(** * Atlas peer-to-peer zonefile replication: a shallow embedding of
      [blockstack/atlas.py] and the properties of its inventory bitmap,
      catalog, peer table, RPC client and workers.

    Conventions of the embedding.
    - A Python 2 [str] is a byte string; it is modelled by [string], and
      [list(s)] / ["".join(l)] by [list_byte_of_string] /
      [string_of_list_byte].  Inventory vectors are such strings.
    - Python integers are [Z]; list positions, bit indexes and lengths
      that the code only ever produces as non-negative numbers are [nat].
    - A Python exception is the [Raise] branch of [result].
    - Timestamps ([time_now()]) are integers (seconds); the health score,
      a quotient of two small counters, is a rational number. *)

From Stdlib Require Import ZArith QArith Lia.
From Stdlib Require Import Strings.Byte Strings.Ascii.
From Stdlib Require Strings.String.
From stdpp Require Import base option list gmap strings pretty fin_maps sorting.

Abbreviation list_byte_of_string := String.list_byte_of_string.
Abbreviation string_of_list_byte := String.string_of_list_byte.

Set Warnings "-abstract-large-number".
Close Scope Q_scope.
Open Scope string_scope.
Open Scope Z_scope.
Open Scope list_scope.
Open Scope nat_scope.

(** ** Python exceptions and results *)

(** Besides the exceptions, [Abort] stands for [os.abort()]: the process
    is killed, and like an exception the call gives no result. *)
Inductive exn : Set :=
| ValueError | IndexError | KeyError | TypeError | AttributeError
| AssertionError
| Abort.

Inductive result (A : Type) : Type :=
| Ok (a : A)
| Raise (e : exn).
Arguments Ok {A} a.
Arguments Raise {A} e.

#[global] Instance result_ret : MRet result := @Ok.
#[global] Instance result_bind : MBind result :=
  fun A B f m => match m with Ok a => f a | Raise e => Raise e end.

(** A [for] loop whose body may raise. *)
Fixpoint foldM {A B : Type} (f : B -> A -> result B) (b : B) (l : list A)
  : result B :=
  match l with
  | [] => Ok b
  | x :: l' => b' ← f b x; foldM f b' l'
  end.

(** ** Inventory bitmap (big-endian bit strings) *)

Module Inventory.

(** [ord(c)] for a one-character string. *)
Definition ord (c : byte) : Z := Z.of_N (Byte.to_N c).

(** [chr(n)]: raises [ValueError] outside [range(256)]. *)
Definition chr (n : Z) : result byte :=
  if (n <? 0)%Z then Raise ValueError
  else match Byte.of_N (Z.to_N n) with
       | Some c => Ok c
       | None => Raise ValueError
       end.

(** [max(l)]: raises [ValueError] on the empty list. *)
Definition py_max (l : list nat) : result nat :=
  match l with
  | [] => Raise ValueError
  | x :: l' => Ok (fold_left Nat.max l' x)
  end.

(** [l[i]]: raises [IndexError] out of range. *)
Definition getitem {A : Type} (l : list A) (i : nat) : result A :=
  match l !! i with
  | Some x => Ok x
  | None => Raise IndexError
  end.

(** The common prologue of flip and test:
    [if len(inv_list) <= max_byte_index:
         inv_list += ['\0'] * (max_byte_index - len(inv_list))] *)
Definition expand (inv_list : list byte) (max_byte_index : nat) : list byte :=
  if length inv_list <=? max_byte_index
  then inv_list ++ replicate (max_byte_index - length inv_list) x00
  else inv_list.

(** Body of the [for bit_index in bit_indexes] loop of
    [atlas_inventory_flip_zonefile_bits]. *)
Definition flip_bit (operation : bool) (inv_list : list byte) (bit_index : nat)
  : result (list byte) :=
  let byte_index := bit_index / 8 in
  let bit_index := 7 - bit_index mod 8 in
  c ← getitem inv_list byte_index;
  let zfbits := ord c in
  let zfbits :=
    if operation
    then Z.lor zfbits (Z.shiftl 1 (Z.of_nat bit_index))
    else Z.land zfbits (Z.lnot (Z.shiftl 1 (Z.of_nat bit_index))) in
  c' ← chr zfbits;
  Ok (<[byte_index := c']> inv_list).

Definition atlas_inventory_flip_zonefile_bits
  (inv_vec : string) (bit_indexes : list nat) (operation : bool) : result string :=
  let inv_list := list_byte_of_string inv_vec in
  m ← py_max bit_indexes;
  let max_byte_index := m / 8 + 1 in
  let inv_list := expand inv_list max_byte_index in
  inv_list ← foldM (flip_bit operation) inv_list bit_indexes;
  Ok (string_of_list_byte inv_list).

Definition atlas_inventory_set_zonefile_bits inv_vec bit_indexes :=
  atlas_inventory_flip_zonefile_bits inv_vec bit_indexes true.

Definition atlas_inventory_clear_zonefile_bits inv_vec bit_indexes :=
  atlas_inventory_flip_zonefile_bits inv_vec bit_indexes false.

(** Body of the loop of [atlas_inventory_test_zonefile_bits]. *)
Definition test_bit (inv_list : list byte) (ret : bool) (bit_index : nat)
  : result bool :=
  let byte_index := bit_index / 8 in
  let bit_index := 7 - bit_index mod 8 in
  c ← getitem inv_list byte_index;
  let zfbits := ord c in
  Ok (ret && negb (Z.land zfbits (Z.shiftl 1 (Z.of_nat bit_index)) =? 0)%Z).

Definition atlas_inventory_test_zonefile_bits
  (inv_vec : string) (bit_indexes : list nat) : result bool :=
  let inv_list := list_byte_of_string inv_vec in
  m ← py_max bit_indexes;
  let max_byte_index := m / 8 + 1 in
  let inv_list := expand inv_list max_byte_index in
  foldM (test_bit inv_list) true bit_indexes.

(** [atlas_inventory_to_string]: "0"/"1" characters, most significant
    bit of each byte first. *)
Definition byte_to_bits (c : byte) : list bool :=
  map (fun j => negb (Z.land (ord c) (Z.shiftl 1 (Z.of_nat (7 - j))) =? 0)%Z)
      (seq 0 8).

Definition atlas_inventory_to_string (inv : string) : string :=
  String.string_of_list_ascii
    (map (fun b : bool => if b then "1"%char else "0"%char)
         (flat_map byte_to_bits (list_byte_of_string inv))).

End Inventory.

(** ** Catalog store: the [zonefiles] table and the cached inventory *)

Module Catalog.
Import Inventory.

(** One row of [zonefiles].  [inv_index] is the [INTEGER PRIMARY KEY
    AUTOINCREMENT] column: assigned keys start at 1. *)
Record zonefile_row : Type := {
  inv_index : positive;
  zonefile_hash : string;
  present : bool;
  tried_storage : bool;
  block_height : Z
}.

(** The table in rowid order (the order of a [SELECT] without
    [ORDER BY]) and the [sqlite_sequence] counter of the largest key
    ever assigned. *)
Record atlasdb : Type := {
  zonefiles : list zonefile_row;
  zonefiles_seq : N
}.

(** The database together with the module globals [ZONEFILE_INV]
    ([None] until first written) and [NUM_ZONEFILES]. *)
Record atlas_state : Type := {
  db : atlasdb;
  ZONEFILE_INV : option string;
  NUM_ZONEFILES : nat
}.

Definition atlasdb_empty : atlasdb := {| zonefiles := []; zonefiles_seq := 0%N |}.

Definition atlas_state_init : atlas_state :=
  {| db := atlasdb_empty; ZONEFILE_INV := None; NUM_ZONEFILES := 0 |}.

(** [SELECT MAX(inv_index) FROM zonefiles]: [NULL] on an empty table. *)
Definition sql_max_inv_index (d : atlasdb) : option positive :=
  match zonefiles d with
  | [] => None
  | r :: rs => Some (fold_left Pos.max (map inv_index rs) (inv_index r))
  end.

(** Key given to the next inserted row: one more than the largest key
    that ever existed in the table. *)
Definition sql_next_inv_index (d : atlasdb) : positive :=
  let in_table := match sql_max_inv_index d with
                  | Some m => Npos m
                  | None => 0%N
                  end in
  N.succ_pos (N.max (zonefiles_seq d) in_table).

(** [INSERT INTO zonefiles (zonefile_hash, present, tried_storage,
    block_height) VALUES (?,?,?,?)] *)
Definition sql_insert_zonefile
  (zfhash : string) (pres tried : bool) (height : Z) (d : atlasdb) : atlasdb :=
  let k := sql_next_inv_index d in
  {| zonefiles := zonefiles d ++
       [ {| inv_index := k; zonefile_hash := zfhash; present := pres;
            tried_storage := tried; block_height := height |} ];
     zonefiles_seq := Npos k |}.

Definition has_hash (zfhash : string) (r : zonefile_row) : bool :=
  bool_decide (zonefile_hash r = zfhash).

(** [SELECT ... FROM zonefiles WHERE zonefile_hash = ?] *)
Definition rows_of_hash (zfhash : string) (d : atlasdb) : list zonefile_row :=
  List.filter (has_hash zfhash) (zonefiles d).

(** [atlasdb_get_zonefile_bits]: zero-based bit indexes. *)
Definition atlasdb_get_zonefile_bits (zfhash : string) (d : atlasdb) : list nat :=
  map (fun r => Pos.to_nat (inv_index r) - 1) (rows_of_hash zfhash d).

(** [atlasdb_zonefile_inv_length] (rows delivered as dictionaries by
    [atlasdb_row_factory], so that [row[0]] raises and is skipped). *)
Definition atlasdb_zonefile_inv_length (d : atlasdb) : nat :=
  match sql_max_inv_index d with
  | None => 0
  | Some m => Pos.to_nat m + 1
  end.

(** An integer that sqlite3 can bind to a parameter: a signed 64-bit
    [INTEGER].  For any other, [cur.execute] raises [OverflowError],
    and [atlasdb_query_execute] answers every exception of
    [cur.execute] with [os.abort()]. *)
Definition sql_integer (n : Z) : bool :=
  (- 2 ^ 63 <=? n)%Z && (n <? 2 ^ 63)%Z.

(** [atlasdb_add_zonefile_info]: returns the state after the call
    (the Python function returns [True]).  The block height is bound
    to the [INSERT]. *)
Definition atlasdb_add_zonefile_info
  (zfhash : string) (pres : bool) (height : Z) (st : atlas_state)
  : result atlas_state :=
  if negb (sql_integer height) then Raise Abort
  else
    let d := sql_insert_zonefile zfhash pres false height (db st) in
    let zfbits := atlasdb_get_zonefile_bits zfhash d in
    let inv_vec := match ZONEFILE_INV st with None => "" | Some inv => inv end in
    inv ← atlas_inventory_flip_zonefile_bits inv_vec zfbits pres;
    Ok {| db := d; ZONEFILE_INV := Some inv;
          NUM_ZONEFILES := atlasdb_zonefile_inv_length d |}.

(** [UPDATE zonefiles SET present = ? WHERE zonefile_hash = ?] *)
Definition sql_update_present (zfhash : string) (pres : bool) (d : atlasdb)
  : atlasdb :=
  {| zonefiles :=
       map (fun r => if has_hash zfhash r
                     then {| inv_index := inv_index r;
                             zonefile_hash := zonefile_hash r;
                             present := pres;
                             tried_storage := tried_storage r;
                             block_height := block_height r |}
                     else r) (zonefiles d);
     zonefiles_seq := zonefiles_seq d |}.

(** [atlasdb_set_zonefile_present]: the new state and [was_present]. *)
Definition atlasdb_set_zonefile_present
  (zfhash : string) (pres : bool) (st : atlas_state)
  : result (atlas_state * bool) :=
  let d := sql_update_present zfhash pres (db st) in
  let zfbits := atlasdb_get_zonefile_bits zfhash d in
  let inv_vec := match ZONEFILE_INV st with None => "" | Some inv => inv end in
  was_present ← atlas_inventory_test_zonefile_bits inv_vec zfbits;
  inv ← atlas_inventory_flip_zonefile_bits inv_vec zfbits pres;
  Ok ({| db := d; ZONEFILE_INV := Some inv;
         NUM_ZONEFILES := NUM_ZONEFILES st |}, was_present).

(** [atlasdb_set_zonefile_tried_storage] *)
Definition atlasdb_set_zonefile_tried_storage
  (zfhash : string) (tried : bool) (d : atlasdb) : atlasdb :=
  {| zonefiles :=
       map (fun r => if has_hash zfhash r
                     then {| inv_index := inv_index r;
                             zonefile_hash := zonefile_hash r;
                             present := present r;
                             tried_storage := tried;
                             block_height := block_height r |}
                     else r) (zonefiles d);
     zonefiles_seq := zonefiles_seq d |}.

(** [atlasdb_zonefile_block_reset]:
    [DELETE FROM zonefiles WHERE block_height = ?].  The cached
    inventory is not touched.  This is the state when the call
    returns; [run_op] below has the abort for a block number that
    cannot be bound. *)
Definition atlasdb_zonefile_block_reset (drop_block : Z) (st : atlas_state)
  : atlas_state :=
  {| db := {| zonefiles :=
                List.filter (fun r => negb (block_height r =? drop_block)%Z)
                            (zonefiles (db st));
              zonefiles_seq := zonefiles_seq (db st) |};
     ZONEFILE_INV := ZONEFILE_INV st;
     NUM_ZONEFILES := NUM_ZONEFILES st |}.

(** [atlasdb_zonefile_inv_list]:
    [SELECT * FROM zonefiles LIMIT ? OFFSET ?] *)
Definition atlasdb_zonefile_inv_list (bit_offset bit_length : nat) (d : atlasdb)
  : list zonefile_row :=
  take bit_length (drop bit_offset (zonefiles d)).

(** [atlasdb_zonefile_find_missing]:
    [SELECT * FROM zonefiles WHERE present = 0 LIMIT ? OFFSET ?] *)
Definition atlasdb_zonefile_find_missing (bit_offset bit_count : nat) (d : atlasdb)
  : list zonefile_row :=
  take bit_count
       (drop bit_offset (List.filter (fun r => negb (present r)) (zonefiles d))).

Definition bit_of (b : bool) : Z := if b then 1%Z else 0%Z.

(** The loop [for i in xrange(0, len(bool_vec), 8)] of
    [atlas_make_zonefile_inventory]; [bit_vec[k]] raises [IndexError]
    on a chunk of fewer than eight entries. *)
Fixpoint pack_bool_vec (bool_vec : list bool) : result (list byte) :=
  match bool_vec with
  | [] => Ok []
  | b0 :: b1 :: b2 :: b3 :: b4 :: b5 :: b6 :: b7 :: rest =>
      let next_byte :=
        Z.lor (Z.shiftl (bit_of b0) 7)
       (Z.lor (Z.shiftl (bit_of b1) 6)
       (Z.lor (Z.shiftl (bit_of b2) 5)
       (Z.lor (Z.shiftl (bit_of b3) 4)
       (Z.lor (Z.shiftl (bit_of b4) 3)
       (Z.lor (Z.shiftl (bit_of b5) 2)
       (Z.lor (Z.shiftl (bit_of b6) 1) (bit_of b7))))))) in
      c ← chr next_byte;
      cs ← pack_bool_vec rest;
      Ok (c :: cs)
  | _ => Raise IndexError
  end.

(** [atlas_make_zonefile_inventory] *)
Definition atlas_make_zonefile_inventory (bit_offset bit_length : nat) (d : atlasdb)
  : result string :=
  let listing := atlasdb_zonefile_inv_list bit_offset bit_length d in
  let bool_vec := map present listing in
  let bool_vec :=
    if negb (length bool_vec mod 8 =? 0)
    then bool_vec ++ replicate (8 - length bool_vec mod 8) false
    else bool_vec in
  inv ← pack_bool_vec bool_vec;
  Ok (string_of_list_byte inv).

(** [atlasdb_cache_zonefile_info]: the new state and the inventory. *)
Definition atlasdb_cache_zonefile_info (st : atlas_state)
  : result (atlas_state * string) :=
  let inv_len := atlasdb_zonefile_inv_length (db st) in
  inv ← atlas_make_zonefile_inventory 0 inv_len (db st);
  Ok ({| db := db st; ZONEFILE_INV := Some inv; NUM_ZONEFILES := inv_len |}, inv).

(** [atlasdb_queue_zonefiles] / [atlasdb_sync_zonefiles]: the ledger
    is given by its tip [lastblock] and its hash list per block;
    [is_zonefile_cached] is the blob store's [has]. *)
Section Ledger.
Variable lastblock : Z.
Variable get_value_hashes_at : Z -> list string.
Variable is_zonefile_cached : string -> bool.

Definition atlasdb_queue_zonefiles (start_block : Z) (st : atlas_state)
  : result atlas_state :=
  foldM (fun st block_height =>
           foldM (fun st zfhash =>
                    atlasdb_add_zonefile_info
                      zfhash (is_zonefile_cached zfhash) block_height st)
                 st (get_value_hashes_at block_height))
        st (seqZ start_block (lastblock + 1 - start_block)).

Definition atlasdb_sync_zonefiles := atlasdb_queue_zonefiles.
End Ledger.

(** The catalog operations as commands, and their execution in order. *)
Inductive catalog_op : Type :=
| OpAdd (zfhash : string) (pres : bool) (height : Z)
| OpSetPresent (zfhash : string) (pres : bool)
| OpBlockReset (drop_block : Z)
| OpCacheInfo.

Definition run_op (st : atlas_state) (op : catalog_op) : result atlas_state :=
  match op with
  | OpAdd h p b => atlasdb_add_zonefile_info h p b st
  | OpSetPresent h p => r ← atlasdb_set_zonefile_present h p st; Ok r.1
  | OpBlockReset b =>
      if negb (sql_integer b) then Raise Abort
      else Ok (atlasdb_zonefile_block_reset b st)
  | OpCacheInfo => r ← atlasdb_cache_zonefile_info st; Ok r.1
  end.

Definition run_ops (ops : list catalog_op) : result atlas_state :=
  foldM run_op atlas_state_init ops.

End Catalog.

(** ** Configuration constants (environment overrides give other values) *)

Record atlas_config : Type := {
  PEER_LIFETIME_INTERVAL : Z;
  PEER_PING_INTERVAL : Z;
  NUM_NEIGHBORS : nat;
  MAX_QUEUED_ZONEFILES : nat
}.

Definition default_config : atlas_config :=
  {| PEER_LIFETIME_INTERVAL := 3600;
     PEER_PING_INTERVAL := 60;
     NUM_NEIGHBORS := 80;
     MAX_QUEUED_ZONEFILES := 1000 |}.

Definition MIN_PEER_HEALTH : Q := (1 # 2)%Q.

(** ** Peer table *)

Module PeerTable.

(** One entry of [PEER_TABLE]; ['zonefile_inventory_last_refresh'] is
    absent until the first successful refresh. *)
Record peer_info : Type := {
  time : list (Z * bool);
  zonefile_inv : string;
  blacklisted : bool;
  whitelisted : bool;
  zonefile_inventory_last_refresh : option Z
}.

Abbreviation peer_table := (gmap string peer_info).

(** [peer_table.keys()] *)
Definition keys (pt : peer_table) : list string := (map_to_list pt).*1.

(** [atlas_init_peer_info] *)
Definition atlas_init_peer_info
  (pt : peer_table) (peer_hostport : string) (bl wl : bool) : peer_table :=
  <[peer_hostport := {| time := []; zonefile_inv := ""; blacklisted := bl;
                        whitelisted := wl;
                        zonefile_inventory_last_refresh := None |}]> pt.

Definition set_time (info : peer_info) (times : list (Z * bool)) : peer_info :=
  {| time := times; zonefile_inv := zonefile_inv info;
     blacklisted := blacklisted info; whitelisted := whitelisted info;
     zonefile_inventory_last_refresh := zonefile_inventory_last_refresh info |}.

Definition set_inv (info : peer_info) (inv : string) : peer_info :=
  {| time := time info; zonefile_inv := inv;
     blacklisted := blacklisted info; whitelisted := whitelisted info;
     zonefile_inventory_last_refresh := zonefile_inventory_last_refresh info |}.

Definition set_last_refresh (info : peer_info) (t : Z) : peer_info :=
  {| time := time info; zonefile_inv := zonefile_inv info;
     blacklisted := blacklisted info; whitelisted := whitelisted info;
     zonefile_inventory_last_refresh := Some t |}.

(** The entries of a history that [atlas_peer_update_health] keeps:
    those with [not (t + lifetime < now)]. *)
Definition unexpired (cfg : atlas_config) (now : Z) (times : list (Z * bool))
  : list (Z * bool) :=
  List.filter (fun tr => negb (tr.1 + PEER_LIFETIME_INTERVAL cfg <? now)%Z) times.

(** [atlas_peer_update_health]: the table afterwards and the returned
    boolean; [now] is the reading of [time_now()]. *)
Definition atlas_peer_update_health
  (cfg : atlas_config) (now : Z) (peer_hostport : string)
  (received_response : bool) (pt : peer_table) : peer_table * bool :=
  match pt !! peer_hostport with
  | None => (pt, false)
  | Some info =>
      let new_times := unexpired cfg now (time info) ++ [(now, received_response)] in
      (<[peer_hostport := set_time info new_times]> pt, true)
  end.

(** [atlas_peer_get_health]: responses / requests, [0.0] without
    requests.  The score is kept as the exact ratio; the source divides
    two floats, which rounds that ratio to the nearest double. *)
Definition atlas_peer_get_health (peer_hostport : string) (pt : peer_table) : Q :=
  let times := match pt !! peer_hostport with
               | Some info => time info
               | None => []
               end in
  let num_requests := length times in
  let num_responses := length (List.filter (fun tr : Z * bool => tr.2) times) in
  if 0 <? num_requests
  then (Z.of_nat num_responses # Pos.of_nat num_requests)%Q
  else 0%Q.

(** [atlas_peer_get_request_count]: counts the entries with [r] true. *)
Definition atlas_peer_get_request_count (peer_hostport : string) (pt : peer_table)
  : nat :=
  match pt !! peer_hostport with
  | None => 0
  | Some info => length (List.filter (fun tr : Z * bool => tr.2) (time info))
  end.

(** [atlas_peer_get_zonefile_inventory] *)
Definition atlas_peer_get_zonefile_inventory (peer_hostport : string) (pt : peer_table)
  : option string :=
  zonefile_inv <$> pt !! peer_hostport.

(** [atlas_peer_set_zonefile_inventory] *)
Definition atlas_peer_set_zonefile_inventory
  (peer_hostport : string) (peer_inv : string) (pt : peer_table) : peer_table :=
  match pt !! peer_hostport with
  | None => pt
  | Some info => <[peer_hostport := set_inv info peer_inv]> pt
  end.

(** [atlas_peer_is_blacklisted] ([None] for an unknown peer). *)
Definition atlas_peer_is_blacklisted (peer_hostport : string) (pt : peer_table)
  : option bool :=
  blacklisted <$> pt !! peer_hostport.

(** [x[i], x[j] = x[j], x[i]] *)
Definition swap {A : Type} (x : list A) (i j : nat) : list A :=
  match x !! i, x !! j with
  | Some xi, Some xj => <[j := xi]> (<[i := xj]> x)
  | _, _ => x
  end.

(** [random.shuffle(x)]:
    [for i in reversed(xrange(1, len(x))):
         j = int(random() * (i+1)); x[i], x[j] = x[j], x[i]].
    [draw i] is the random number drawn at position [i], reduced to
    the range [0..i] that [int(random() * (i+1))] lies in. *)
Fixpoint shuffle_down {A : Type} (draw : nat -> nat) (i : nat) (x : list A)
  : list A :=
  match i with
  | 0 => x
  | S i' => shuffle_down draw i' (swap x i (draw i mod (i + 1)))
  end.

Definition random_shuffle {A : Type} (draw : nat -> nat) (x : list A) : list A :=
  shuffle_down draw (length x - 1) x.

(** The test applied to each key by [atlas_get_live_neighbors];
    [remote_peer_hostport] may be Python's [None]. *)
Definition is_live (remote_peer_hostport : option string) (min_health : Q)
  (min_request_count : nat) (pt : peer_table) (peer_hostport : string) : bool :=
  if bool_decide (Some peer_hostport = remote_peer_hostport) then false
  else if atlas_peer_get_request_count peer_hostport pt <? min_request_count
       then false
       else if negb (Qle_bool min_health (atlas_peer_get_health peer_hostport pt))
            then false
            else true.

(** [atlas_get_live_neighbors] *)
Definition atlas_get_live_neighbors (draw : nat -> nat)
  (remote_peer_hostport : option string) (pt : peer_table)
  (min_health : Q) (min_request_count : nat) : list string :=
  let alive_peers :=
    List.filter (is_live remote_peer_hostport min_health min_request_count pt)
                (keys pt) in
  random_shuffle draw alive_peers.

End PeerTable.

(** ** RPC client *)

(** Values a JSON-RPC call can hand back. *)
#[local] Unset Elimination Schemes.
Inductive pyval : Type :=
| PyNone
| PyBool (b : bool)
| PyInt (n : Z)
| PyStr (s : string)
| PyList (l : list pyval)
| PyDict (d : list (string * pyval)).
#[local] Set Elimination Schemes.

(** What a call on the RPC proxy does: raise one of the socket
    exceptions, raise anything else, or return a value. *)
Inductive rpc_outcome : Type :=
| RpcSocketError
| RpcException
| RpcReturn (v : pyval).

Module Rpc.
Import PeerTable.

(** Truth value of a Python object. *)
Definition py_truthy (v : pyval) : bool :=
  match v with
  | PyNone => false
  | PyBool b => b
  | PyInt n => negb (n =? 0)%Z
  | PyStr s => negb (bool_decide (s = ""))
  | PyList l => negb (bool_decide (length l = 0))
  | PyDict d => negb (bool_decide (length d = 0))
  end.

(** [d[k]] on the items of a dictionary. *)
Fixpoint dict_get (d : list (string * pyval)) (k : string) : option pyval :=
  match d with
  | [] => None
  | (k', v) :: d' => if bool_decide (k' = k) then Some v else dict_get d' k
  end.

(** [d[k] = v] *)
Fixpoint dict_set (d : list (string * pyval)) (k : string) (v : pyval)
  : list (string * pyval) :=
  match d with
  | [] => [(k, v)]
  | (k', v') :: d' =>
      if bool_decide (k' = k) then (k, v) :: d' else (k', v') :: dict_set d' k v
  end.

Definition dict_has_key (d : list (string * pyval)) (k : string) : bool :=
  bool_decide (is_Some (dict_get d k)).

(** The value bound by [x = rpc.call(...)] after the [try] block:
    the variable keeps its initial [None] when the call raises. *)
Definition returned (o : rpc_outcome) : pyval :=
  match o with
  | RpcReturn v => v
  | _ => PyNone
  end.

Section Client.
Variable cfg : atlas_config.
(** [base64.b64decode]; [None] when it raises. *)
Variable b64decode : string -> option string.

(** [atlas_peer_ping] *)
Definition atlas_peer_ping
  (now : Z) (peer_hostport : string) (o : rpc_outcome) (pt : peer_table)
  : bool * peer_table :=
  let ret := match o with RpcReturn _ => true | _ => false end in
  let pt := match pt !! peer_hostport with
            | Some _ => (atlas_peer_update_health cfg now peer_hostport ret pt).1
            | None => pt
            end in
  (ret, pt).

(** The [for req_field in ...] loop of [atlas_peer_getinfo]: fields
    are converted with [str(...)] until the first failed assertion. *)
Fixpoint getinfo_fields (d : list (string * pyval)) (fields : list string)
  : list (string * pyval) :=
  match fields with
  | [] => d
  | f :: fields' =>
      match dict_get d f with
      | Some (PyStr s) => getinfo_fields (dict_set d f (PyStr s)) fields'
      | Some (PyInt n) => getinfo_fields (dict_set d f (PyStr (pretty n))) fields'
      | _ => d
      end
  end.

(** [atlas_peer_getinfo] *)
Definition atlas_peer_getinfo
  (now : Z) (peer_hostport : string) (o : rpc_outcome) (pt : peer_table)
  : pyval * peer_table :=
  let res :=
    match returned o with
    | PyDict d =>
        if negb (dict_has_key d "error")
        then PyDict (getinfo_fields d
                       ["consensus"; "server_version"; "last_block_processed"])
        else PyNone
    | v => v
    end in
  let responded := match res with PyNone => false | _ => true end in
  let pt := match pt !! peer_hostport with
            | Some _ => (atlas_peer_update_health cfg now peer_hostport responded pt).1
            | None => pt
            end in
  (res, pt).

(** [atlas_peer_get_neighbors], for a hostport that parses (else the
    function raises [ValueError] before any call).  The assertions of
    the [try] block only log; what follows it reads [peer_list] again. *)
Definition atlas_peer_get_neighbors
  (now : Z) (peer_hostport : string) (o : rpc_outcome) (pt : peer_table)
  : result (pyval * peer_table) :=
  match returned o with
  | PyNone =>
      Ok (PyNone, (atlas_peer_update_health cfg now peer_hostport false pt).1)
  | PyDict d =>
      if dict_has_key d "error"
      then Ok (PyNone, (atlas_peer_update_health cfg now peer_hostport false pt).1)
      else match dict_get d "peers" with
           | None => Raise KeyError
           | Some ret =>
               Ok (ret, (atlas_peer_update_health cfg now peer_hostport true pt).1)
           end
  | _ => Raise TypeError
  end.

(** [atlas_get_zonefiles] *)
Definition atlas_get_zonefiles
  (now : Z) (peer_hostport : string) (o : rpc_outcome) (pt : peer_table)
  : result (pyval * peer_table) :=
  match returned o with
  | PyNone =>
      Ok (PyNone, (atlas_peer_update_health cfg now peer_hostport false pt).1)
  | PyDict d =>
      if dict_has_key d "error"
      then Ok (PyNone, (atlas_peer_update_health cfg now peer_hostport false pt).1)
      else
        let pt := (atlas_peer_update_health cfg now peer_hostport true pt).1 in
        match dict_get d "zonefiles" with
        | None => Raise KeyError
        | Some zfs => Ok (zfs, pt)
        end
  | _ => Raise AttributeError
  end.

(** [atlas_zonefile_push]: [status] is never assigned after its
    initialisation to [False]. *)
Definition atlas_zonefile_push
  (now : Z) (peer_hostport : string) (o : rpc_outcome) (pt : peer_table)
  : bool * peer_table :=
  let status := false in
  (status, (atlas_peer_update_health cfg now peer_hostport status pt).1).

(** The bound asserted on a decoded slice:
    [len(zf_inv['inv']) <= (bit_count / 8) + (bit_count % 8)] *)
Definition inventory_length_ok (bit_count : Z) (inv : string) : bool :=
  (Z.of_nat (String.length inv) <=? bit_count `div` 8 + bit_count `mod` 8)%Z.

(** The [try] block of [atlas_peer_get_zonefile_inventory_range]
    run on a returned dictionary: the dictionary as the block
    leaves it (['inv'] is overwritten by its decoding before the
    length is asserted), and whether the block completed or an
    assertion failed. *)
Definition inventory_range_try (bit_count : Z) (d : list (string * pyval))
  : list (string * pyval) * result unit :=
  if negb (dict_has_key d "error") then
    match dict_get d "status" with
    | None => (d, Raise AssertionError)
    | Some status =>
        if negb (py_truthy status) then (d, Raise AssertionError)
        else match dict_get d "inv" with
             | Some (PyStr s) =>
                 match b64decode s with
                 | None => (d, Raise AssertionError)
                 | Some inv =>
                     let d := dict_set d "inv" (PyStr inv) in
                     if inventory_length_ok bit_count inv
                     then (d, Ok ())
                     else (d, Raise AssertionError)
                 end
             | _ => (d, Raise AssertionError)
             end
    end
  else
    match dict_get d "error" with
    | Some (PyStr _) => (d, Ok ())
    | _ => (d, Raise AssertionError)
    end.

(** [atlas_peer_get_zonefile_inventory_range].  Both [except]
    clauses log and fall through, so the outcome of the [try] block
    is dropped and [zf_inv] is read as the block left it. *)
Definition atlas_peer_get_zonefile_inventory_range
  (now : Z) (peer_hostport : string) (bit_offset bit_count : Z)
  (o : rpc_outcome) (pt : peer_table) : result (pyval * peer_table) :=
  match returned o with
  | PyNone =>
      Ok (PyNone, (atlas_peer_update_health cfg now peer_hostport false pt).1)
  | PyDict d =>
      let zf_inv := (inventory_range_try bit_count d).1 in
      let responded :=
        match dict_get zf_inv "status" with
        | Some status => py_truthy status
        | None => false
        end in
      let pt := (atlas_peer_update_health cfg now peer_hostport responded pt).1 in
      if dict_has_key zf_inv "error" then Ok (PyNone, pt)
      else match dict_get zf_inv "inv" with
           | None => Raise KeyError
           | Some inv => Ok (inv, pt)
           end
  | _ => Raise AttributeError
  end.

(** The remote peers: what [rpc.get_zonefile_inventory(bit_offset,
    bit_count)] does at each peer. *)
Variable get_zonefile_inventory : string -> Z -> Z -> rpc_outcome.

Definition interval : Z := 524288.

(** [xrange(start, stop, step)] for a positive step. *)
Definition py_xrange (start stop step : Z) : list Z :=
  map (fun k => start + step * k)%Z
      (seqZ 0 ((stop - start + step - 1) `div` step)).

Definition py_len (s : string) : Z := Z.of_nat (String.length s).

(** The loop of [atlas_peer_download_zonefile_inventory] over the
    remaining offsets.  Besides the inventory and the peer table it
    returns the requests made, in order, as [(bit_offset, bit_count)]. *)
Fixpoint download_loop (now : Z) (peer_hostport : string)
  (offsets : list Z) (peer_inv : string) (requests : list (Z * Z))
  (pt : peer_table) : result (string * list (Z * Z) * peer_table) :=
  match offsets with
  | [] => Ok (peer_inv, requests, pt)
  | offset :: offsets' =>
      r ← atlas_peer_get_zonefile_inventory_range
            now peer_hostport offset interval
            (get_zonefile_inventory peer_hostport offset interval) pt;
      let requests := requests ++ [(offset, interval)] in
      match r.1 with
      | PyNone => Ok (peer_inv, requests, r.2)
      | PyStr next_inv =>
          let peer_inv := peer_inv +:+ next_inv in
          if (py_len next_inv <? interval)%Z
          then Ok (peer_inv, requests, r.2)
          else download_loop now peer_hostport offsets' peer_inv requests r.2
      | _ => Raise TypeError
      end
  end.

(** [atlas_peer_download_zonefile_inventory] *)
Definition atlas_peer_download_zonefile_inventory
  (now : Z) (peer_hostport : string) (maxlen bit_offset : Z) (pt : peer_table)
  : result (string * list (Z * Z) * peer_table) :=
  let peer_inv := "" in
  if (maxlen <? bit_offset)%Z then Ok (peer_inv, [], pt)
  else download_loop now peer_hostport (py_xrange bit_offset maxlen interval)
                     peer_inv [] pt.

(** [atlas_peer_sync_zonefile_inventory] *)
Definition atlas_peer_sync_zonefile_inventory
  (now : Z) (peer_hostport : string) (maxlen : Z) (pt : peer_table)
  : result (option string * list (Z * Z) * peer_table) :=
  match atlas_peer_get_zonefile_inventory peer_hostport pt with
  | None => Ok (None, [], pt)
  | Some peer_inv =>
      let bit_offset := ((py_len peer_inv - 1) * 8)%Z in
      let bit_offset := if (bit_offset <? 0)%Z then 0%Z else bit_offset in
      r ← atlas_peer_download_zonefile_inventory
            now peer_hostport maxlen bit_offset pt;
      let '(peer_inv, requests, pt) := r in
      match pt !! peer_hostport with
      | None => Ok (None, requests, pt)
      | Some _ =>
          Ok (Some peer_inv, requests,
              atlas_peer_set_zonefile_inventory peer_hostport peer_inv pt)
      end
  end.

(** [atlas_peer_refresh_zonefile_inventory]; [local_inv] is the
    argument of that name, or [None] to rebuild it from the table. *)
Definition atlas_peer_refresh_zonefile_inventory
  (now : Z) (peer_hostport : string) (byte_offset : nat)
  (local_inv : option string) (d : Catalog.atlasdb) (pt : peer_table)
  : result (bool * list (Z * Z) * peer_table) :=
  local_inv ← match local_inv with
              | Some inv => Ok inv
              | None =>
                  Catalog.atlas_make_zonefile_inventory
                    0 (Catalog.atlasdb_zonefile_inv_length d) d
              end;
  let maxlen := py_len local_inv in
  match atlas_peer_get_zonefile_inventory peer_hostport pt with
  | None => Ok (false, [], pt)
  | Some cur_inv =>
      let pt := atlas_peer_set_zonefile_inventory
                  peer_hostport (String.substring 0 byte_offset cur_inv) pt in
      r ← atlas_peer_sync_zonefile_inventory now peer_hostport maxlen pt;
      let '(inv, requests, pt) := r in
      match inv with
      | None => Ok (false, requests, pt)
      | Some _ =>
          match pt !! peer_hostport with
          | None => Ok (false, requests, pt)
          | Some info =>
              Ok (true, requests,
                  <[peer_hostport := set_last_refresh info now]> pt)
          end
      end
  end.

End Client.
End Rpc.

(** ** Zonefile pusher *)

Module Pusher.
Import Inventory Catalog PeerTable.

(** [atlas_zonefile_find_push_peers]; [zonefile_bits] is the optional
    argument of that name. *)
Definition atlas_zonefile_find_push_peers
  (zonefile_hash : string) (pt : peer_table) (zonefile_bits : option (list nat))
  (d : atlasdb) : result (list string) :=
  let bits := match zonefile_bits with
              | Some bits => bits
              | None => atlasdb_get_zonefile_bits zonefile_hash d
              end in
  if bool_decide (zonefile_bits = None) && bool_decide (length bits = 0)
  then Ok []
  else
    foldM (fun push_peers peer_hostport =>
             let zonefile_inv :=
               default "" (atlas_peer_get_zonefile_inventory peer_hostport pt) in
             res ← atlas_inventory_test_zonefile_bits zonefile_inv bits;
             Ok (if res : bool then push_peers ++ [peer_hostport] else push_peers))
          [] (keys pt).

Section Queue.
Variable cfg : atlas_config.

(** [atlas_zonefile_push_enqueue]: the returned value ([None] for
    the bare [return], else [res]) and the queue afterwards. *)
Definition atlas_zonefile_push_enqueue
  (zonefile_hash zonefile_data : string) (pt : peer_table)
  (zonefile_queue : list (string * string)) (d : atlasdb)
  : result (option bool * list (string * string)) :=
  let bits := atlasdb_get_zonefile_bits zonefile_hash d in
  if bool_decide (length bits = 0) then Ok (None, zonefile_queue)
  else
    push_peers ← atlas_zonefile_find_push_peers zonefile_hash pt (Some bits) d;
    if 0 <? length push_peers then
      if length zonefile_queue <? MAX_QUEUED_ZONEFILES cfg
      then Ok (Some true, zonefile_queue ++ [(zonefile_hash, zonefile_data)])
      else Ok (Some false, zonefile_queue)
    else Ok (Some false, zonefile_queue).

(** [atlas_zonefile_push_dequeue] *)
Definition atlas_zonefile_push_dequeue (zonefile_queue : list (string * string))
  : option (string * string) * list (string * string) :=
  match zonefile_queue with
  | [] => (None, [])
  | zfinfo :: rest => (Some zfinfo, rest)
  end.

(** The zone-file library and the remote peers. *)
Variable zonefile : Type.
Variable parse_zone_file : string -> option zonefile.
Variable serialize_zonefile : zonefile -> string.
Variable put_zonefiles : string -> list string -> rpc_outcome.

(** [AtlasZonefilePusher.step].  [table_arg] is the argument
    [peer_table]: the table the peers are selected from, the global
    [PEER_TABLE] when it is [None].  The step calls
    [atlas_zonefile_push] without a [peer_table], so that every push
    is recorded in the global [PEER_TABLE], whatever table was given.
    Returned: the number, the calls [put_zonefiles] made in order as
    [(peer, bodies)], the global peer table and the queue afterwards. *)
Definition step (now : Z) (table_arg : option peer_table) (PEER_TABLE : peer_table)
  (zonefile_queue : list (string * string)) (d : atlasdb)
  : result (nat * list (string * list string) * peer_table
            * list (string * string)) :=
  match atlas_zonefile_push_dequeue zonefile_queue with
  | (None, q) => Ok (0, [], PEER_TABLE, q)
  | (Some (zfhash, zfdata_txt), q) =>
      match parse_zone_file zfdata_txt with
      | None => Ok (0, [], PEER_TABLE, q)
      | Some zfdata =>
          let zfbits := atlasdb_get_zonefile_bits zfhash d in
          if bool_decide (length zfbits = 0) then Ok (0, [], PEER_TABLE, q)
          else
            let pt := match table_arg with
                      | Some pt => pt
                      | None => PEER_TABLE
                      end in
            peers ← atlas_zonefile_find_push_peers zfhash pt (Some zfbits) d;
            if bool_decide (length peers = 0) then Ok (0, [], PEER_TABLE, q)
            else
              let '(ret, sent, PEER_TABLE) :=
                fold_left
                  (fun (acc : nat * list (string * list string) * peer_table) peer =>
                     let '(ret, sent, PEER_TABLE) := acc in
                     let bodies := [serialize_zonefile zfdata] in
                     let r := Rpc.atlas_zonefile_push
                                cfg now peer (put_zonefiles peer bodies) PEER_TABLE in
                     (ret + 1, sent ++ [(peer, bodies)], r.2))
                  peers (0, [], PEER_TABLE) in
              Ok (ret, sent, PEER_TABLE, q)
      end
  end.
End Queue.
End Pusher.

(** ** Zonefile fetcher *)

Module ZonefileCrawler.
Import Inventory Catalog PeerTable.

(** One value of the dictionary built by
    [atlas_find_missing_zonefile_availability]. *)
Record missing_info : Type := {
  indexes : list nat;
  popularity : nat;
  peers : list string;
  mi_tried_storage : bool
}.

(** The paging loop [while True: zfinfo = atlasdb_zonefile_find_missing(
    bit_offset, bit_count) ...]; [fuel] bounds the number of pages. *)
Fixpoint find_all_missing (fuel : nat) (bit_offset bit_count : nat) (d : atlasdb)
  : list zonefile_row :=
  match fuel with
  | 0 => []
  | S fuel' =>
      let zfinfo := atlasdb_zonefile_find_missing bit_offset bit_count d in
      if bool_decide (length zfinfo = 0) then []
      else zfinfo ++ find_all_missing fuel' (bit_offset + length zfinfo) bit_count d
  end.

(** Does the mirrored inventory of a peer have the bit of this row? *)
Definition peer_claims (peer_inv : string) (byte_index bit_index : nat) : bool :=
  match list_byte_of_string peer_inv !! byte_index with
  | None => false
  | Some c => negb (Z.land (ord c) (Z.shiftl 1 (Z.of_nat bit_index)) =? 0)%Z
  end.

(** Body of [for zfinfo in missing] in
    [atlas_find_missing_zonefile_availability]. *)
Definition availability_row (pt : peer_table)
  (ret : gmap string missing_info) (zfinfo : zonefile_row)
  : gmap string missing_info :=
  let byte_index := (Pos.to_nat (inv_index zfinfo) - 1) / 8 in
  let bit_index := 7 - (Pos.to_nat (inv_index zfinfo) - 1) mod 8 in
  let entry := default {| indexes := []; popularity := 0; peers := [];
                          mi_tried_storage := false |}
                       (ret !! zonefile_hash zfinfo) in
  let new_peers :=
    List.filter
      (fun peer_hostport =>
         peer_claims (default "" (atlas_peer_get_zonefile_inventory peer_hostport pt))
                     byte_index bit_index
         && negb (bool_decide (peer_hostport ∈ peers entry)))
      (keys pt) in
  <[zonefile_hash zfinfo :=
      {| indexes := indexes entry ++ [Pos.to_nat (inv_index zfinfo) - 1];
         popularity := popularity entry + length new_peers;
         peers := peers entry ++ new_peers;
         mi_tried_storage := tried_storage zfinfo |}]> ret.

(** [atlas_find_missing_zonefile_availability] (without the optional
    [missing_zonefile_info]). *)
Definition atlas_find_missing_zonefile_availability
  (pt : peer_table) (d : atlasdb) : gmap string missing_info :=
  let missing := find_all_missing (S (length (zonefiles d))) 0 10000 d in
  fold_left (availability_row pt) missing ∅.

(** Order of Python tuples [(popularity, zfhash)]. *)
Definition ranking_leb (x y : nat * string) : bool :=
  (x.1 <? y.1) || ((x.1 =? y.1) && String.leb x.2 y.2).

Fixpoint sort_insert (x : nat * string) (l : list (nat * string))
  : list (nat * string) :=
  match l with
  | [] => [x]
  | y :: l' => if ranking_leb x y then x :: y :: l' else y :: sort_insert x l'
  end.

(** [zonefile_ranking.sort()] *)
Definition py_sort (l : list (nat * string)) : list (nat * string) :=
  fold_right sort_insert [] l.

Section Step.
(** [list(set(l))]: the iteration order of a Python set is fixed by
    the interpreter, not by the program. *)
Variable list_of_set : list string -> list string.

(** Lines 3342-3344 of [AtlasZonefileCrawler.step]. *)
Definition zonefile_ranking (missing_zfinfo : gmap string missing_info)
  : list (nat * string) :=
  py_sort (map (fun kv : string * missing_info => (popularity kv.2, kv.1))
               (map_to_list missing_zfinfo)).

Definition zonefile_hashes (missing_zfinfo : gmap string missing_info)
  : list string :=
  list_of_set (map snd (zonefile_ranking missing_zfinfo)).

(** The worker's state during a step, and the work done on the
    head of [zonefile_hashes] (storage lookup, requests to the
    ranked peers, updates of catalog and mirrored inventories): it
    reads the list but changes it only by the final [pop(0)]. *)
Variable step_state : Type.
Variable attempt : string -> list string -> step_state -> step_state.

(** [while len(zonefile_hashes) > 0: zfhash = zonefile_hashes[0]; ...;
    zonefile_hashes.pop(0)], with the hashes taken as head so far. *)
Fixpoint fetch_loop (zonefile_hashes : list string) (attempted : list string)
  (s : step_state) : list string * step_state :=
  match zonefile_hashes with
  | [] => (attempted, s)
  | zfhash :: rest =>
      fetch_loop rest (attempted ++ [zfhash])
                 (attempt zfhash zonefile_hashes s)
  end.

(** [AtlasZonefileCrawler.step]: the hashes attempted, in order. *)
Definition step (pt : peer_table) (d : atlasdb) (s : step_state)
  : list string * step_state :=
  let missing_zfinfo := atlas_find_missing_zonefile_availability pt d in
  fetch_loop (zonefile_hashes missing_zfinfo) [] s.
End Step.

End ZonefileCrawler.

(** ** The interpreter's share: [list(set(...))] and [base64.b64decode] *)

(** Sets of strings as CPython 2.7 (64-bit, hash randomisation off)
    implements them: an open-addressing table that starts with eight
    slots and is iterated in slot order.  The program leaves the order
    of [list(set(l))] to this table. *)
Module CPython27.
Import Inventory.

Definition word : Z := 2 ^ 64.

(** [string_hash] of [stringobject.c], as an unsigned machine word. *)
Definition string_hash (s : string) : Z :=
  match list_byte_of_string s with
  | [] => 0%Z
  | (c :: _) as cs =>
      let x := Z.shiftl (ord c) 7 in
      let x := fold_left (fun x c => Z.lxor ((1000003 * x) mod word) (ord c)) cs x in
      let x := Z.lxor x (Z.of_nat (length cs)) in
      if (x =? word - 1)%Z then (word - 2)%Z else x
  end.

Abbreviation table := (list (option (string * Z))).

(** The probe sequence of [set_lookkey]: the slot of [key], or the
    first free slot met. *)
Fixpoint probe (fuel : nat) (t : table) (mask : Z) (key : string) (i perturb : Z)
  : option nat :=
  let slot := Z.to_nat (Z.land i mask) in
  match t !! slot with
  | None => None
  | Some None => Some slot
  | Some (Some (k, _)) =>
      if bool_decide (k = key) then Some slot
      else match fuel with
           | 0 => None
           | S fuel' =>
               probe fuel' t mask key
                     ((Z.shiftl i 2 + i + perturb + 1) mod word)%Z
                     (Z.shiftr perturb 5)
           end
  end.

Definition insert_entry (t : table) (key : string) (h : Z) : table :=
  let mask := (Z.of_nat (length t) - 1)%Z in
  match probe (64 + length t) t mask key (Z.land h mask) h with
  | Some slot => <[slot := Some (key, h)]> t
  | None => t
  end.

Definition entries (t : table) : list (string * Z) := omap id t.

(** [set_table_resize]: the smallest power of two above [minused],
    starting from eight, then reinsertion in slot order. *)
Fixpoint new_size (fuel : nat) (size minused : nat) : nat :=
  match fuel with
  | 0 => size
  | S fuel' => if size <=? minused then new_size fuel' (2 * size) minused else size
  end.

Definition resize (t : table) (minused : nat) : table :=
  fold_left (fun t' e => insert_entry t' e.1 e.2) (entries t)
            (replicate (new_size 64 8 minused) None).

(** [set_add_key]: insert, then grow once two thirds are filled. *)
Definition set_add (t : table) (key : string) : table :=
  let t' := insert_entry t key (string_hash key) in
  let used := length (entries t') in
  if (length (entries t) <? used) && (2 * length t' <=? 3 * used)
  then resize t' (if 50000 <? used then 2 * used else 4 * used)
  else t'.

(** [list(set(l))] *)
Definition list_of_set (l : list string) : list string :=
  (entries (fold_left set_add l (replicate 8 None))).*1.

End CPython27.

(** Decoding of well-formed base64 text (RFC 4648 alphabet, padded to a
    multiple of four characters), on which [base64.b64decode] agrees
    with it; any other text is rejected here. *)
Module Base64.

Definition index (c : ascii) : option N :=
  let n := N_of_ascii c in
  if (65 <=? n)%N && (n <=? 90)%N then Some (n - 65)%N
  else if (97 <=? n)%N && (n <=? 122)%N then Some (n - 71)%N
  else if (48 <=? n)%N && (n <=? 57)%N then Some (n + 4)%N
  else if (n =? 43)%N then Some 62%N
  else if (n =? 47)%N then Some 63%N
  else None.

Definition is_pad (c : ascii) : bool := (N_of_ascii c =? 61)%N.

Fixpoint decode_chars (l : list ascii) : option (list ascii) :=
  match l with
  | [] => Some []
  | a :: b :: c :: d :: rest =>
      x ← index a;
      y ← index b;
      let b0 := ascii_of_N (x * 4 + y / 16) in
      if is_pad c && is_pad d then
        match rest with [] => Some [b0] | _ => None end
      else
        z ← index c;
        let b1 := ascii_of_N ((y mod 16) * 16 + z / 4) in
        if is_pad d then
          match rest with [] => Some [b0; b1] | _ => None end
        else
          w ← index d;
          let b2 := ascii_of_N ((z mod 4) * 64 + w) in
          tl ← decode_chars rest;
          Some (b0 :: b1 :: b2 :: tl)
  | _ => None
  end.

Definition b64decode (s : string) : option string :=
  String.string_of_list_ascii <$> decode_chars (String.list_ascii_of_string s).

End Base64.

(** ** Every RPC as one call *)

Inductive rpc_call : Type :=
| CallPing
| CallGetinfo
| CallGetNeighbors
| CallGetInventory (bit_offset bit_count : Z)
| CallGetZonefiles
| CallPutZonefiles.

(** The peer table after the client function for [call] has returned. *)
Definition table_after_call (cfg : atlas_config) (b64decode : string -> option string)
  (now : Z) (peer_hostport : string) (call : rpc_call) (o : rpc_outcome)
  (pt : PeerTable.peer_table) : result PeerTable.peer_table :=
  match call with
  | CallPing => Ok (Rpc.atlas_peer_ping cfg now peer_hostport o pt).2
  | CallGetinfo => Ok (Rpc.atlas_peer_getinfo cfg now peer_hostport o pt).2
  | CallGetNeighbors =>
      r ← Rpc.atlas_peer_get_neighbors cfg now peer_hostport o pt; Ok r.2
  | CallGetInventory bit_offset bit_count =>
      r ← Rpc.atlas_peer_get_zonefile_inventory_range
            cfg b64decode now peer_hostport bit_offset bit_count o pt;
      Ok r.2
  | CallGetZonefiles =>
      r ← Rpc.atlas_get_zonefiles cfg now peer_hostport o pt; Ok r.2
  | CallPutZonefiles => Ok (Rpc.atlas_zonefile_push cfg now peer_hostport o pt).2
  end.

(** The peer table when the client function for [call] is left, by a
    return or by an exception (what was written to the table before an
    exception stays written).
    - [atlas_peer_get_neighbors] raises at ['error' in peer_list] or at
      [ret = peer_list['peers']], before it calls
      [atlas_peer_update_health].
    - [atlas_get_zonefiles] raises at [zf_payload.keys()] before that
      call, or at [zf_payload['zonefiles']] after it.
    - [atlas_peer_get_zonefile_inventory_range] raises at
      [zf_inv.has_key('status')], while the argument of
      [atlas_peer_update_health] is computed, or at [zf_inv['inv']]
      after the call. *)
Definition table_at_exit (cfg : atlas_config) (b64decode : string -> option string)
  (now : Z) (peer_hostport : string) (call : rpc_call) (o : rpc_outcome)
  (pt : PeerTable.peer_table) : PeerTable.peer_table :=
  match call with
  | CallPing => (Rpc.atlas_peer_ping cfg now peer_hostport o pt).2
  | CallGetinfo => (Rpc.atlas_peer_getinfo cfg now peer_hostport o pt).2
  | CallGetNeighbors =>
      match Rpc.atlas_peer_get_neighbors cfg now peer_hostport o pt with
      | Ok r => r.2
      | Raise _ => pt
      end
  | CallGetInventory bit_offset bit_count =>
      match Rpc.returned o with
      | PyNone =>
          (PeerTable.atlas_peer_update_health cfg now peer_hostport false pt).1
      | PyDict d =>
          let zf_inv := (Rpc.inventory_range_try b64decode bit_count d).1 in
          let responded :=
            match Rpc.dict_get zf_inv "status" with
            | Some status => Rpc.py_truthy status
            | None => false
            end in
          (PeerTable.atlas_peer_update_health cfg now peer_hostport responded pt).1
      | _ => pt
      end
  | CallGetZonefiles =>
      match Rpc.returned o with
      | PyNone =>
          (PeerTable.atlas_peer_update_health cfg now peer_hostport false pt).1
      | PyDict d =>
          (PeerTable.atlas_peer_update_health
             cfg now peer_hostport (negb (Rpc.dict_has_key d "error")) pt).1
      | _ => pt
      end
  | CallPutZonefiles => (Rpc.atlas_zonefile_push cfg now peer_hostport o pt).2
  end.

(** ** Reading single bits and rows, for the statements below *)

(** Bit [i] of an inventory vector, counted from the most significant
    bit of byte 0; bits past the end read as unset. *)
Definition list_bit (inv_list : list byte) (i : nat) : bool :=
  match inv_list !! (i / 8) with
  | Some c => Z.testbit (Inventory.ord c) (Z.of_nat (7 - i mod 8))
  | None => false
  end.

Definition inv_bit (inv : string) (i : nat) : bool :=
  list_bit (list_byte_of_string inv) i.

(** Is some row of this hash marked present? *)
Definition any_present (zfhash : string) (d : Catalog.atlasdb) : bool :=
  existsb Catalog.present (Catalog.rows_of_hash zfhash d).

(** The cached inventory, read as the empty string before it is set. *)
Definition local_inv (st : Catalog.atlas_state) : string :=
  match Catalog.ZONEFILE_INV st with None => "" | Some inv => inv end.

(** The invariant of the catalog for one hash: testing the hash's bits
    in the cached bitmap tells whether some row is present. *)
Definition bitmap_consistent (st : Catalog.atlas_state) (zfhash : string) : Prop :=
  Inventory.atlas_inventory_test_zonefile_bits
    (local_inv st) (Catalog.atlasdb_get_zonefile_bits zfhash (Catalog.db st))
  = Ok (any_present zfhash (Catalog.db st)).

(** Insert at block 100, reset block 100, insert again, rebuild. *)
Definition reset_then_rebuild : list Catalog.catalog_op :=
  [Catalog.OpAdd "a" true 100; Catalog.OpBlockReset 100;
   Catalog.OpAdd "b" true 100; Catalog.OpCacheInfo].

(** ** Concrete nodes used by the examples *)

(** A peer-table entry as [atlas_init_peer_info] makes it, with the
    given mirrored inventory. *)
Definition peer_with_inv (inv : list byte) : PeerTable.peer_info :=
  {| PeerTable.time := []; PeerTable.zonefile_inv := string_of_list_byte inv;
     PeerTable.blacklisted := false; PeerTable.whitelisted := false;
     PeerTable.zonefile_inventory_last_refresh := None |}.

(** A catalog holding the single hash "h" at key 1 (bit 0). *)
Definition catalog_h : result Catalog.atlas_state :=
  Catalog.run_ops [Catalog.OpAdd "h" true 1].

(** Two peers: the mirrored inventory of "holder" has bit 0 set, that
    of "lacker" is empty. *)
Definition holder_and_lacker : PeerTable.peer_table :=
  <["holder:6264" := peer_with_inv [x80]]>
    (<["lacker:6264" := peer_with_inv []]> ∅).

Definition only_holder : PeerTable.peer_table :=
  <["holder:6264" := peer_with_inv [x80]]> ∅.

Definition only_lacker : PeerTable.peer_table :=
  <["lacker:6264" := peer_with_inv []]> ∅.

(** A remote peer that accepts every pushed zonefile. *)
Definition put_ok (peer_hostport : string) (bodies : list string) : rpc_outcome :=
  RpcReturn (PyDict [("status", PyBool true); ("saved", PyList [PyInt 1])]).

(** [AtlasZonefilePusher.step] with zone files kept as their text,
    called without a [peer_table] on the global table [pt]. *)
Definition pusher_step (now : Z) (pt : PeerTable.peer_table) :=
  Pusher.step default_config string Some id put_ok now None pt.

(** A catalog with the missing hashes "a", "b", "c" at keys 1, 2, 3 and
    three peers whose mirrored inventories claim {a, b, c}, {b, c} and
    {c}: popularity 1, 2 and 3. *)
Definition catalog_abc : result Catalog.atlas_state :=
  Catalog.run_ops [Catalog.OpAdd "a" false 1; Catalog.OpAdd "b" false 1;
                   Catalog.OpAdd "c" false 1].

Definition peers_abc : PeerTable.peer_table :=
  <["p1:6264" := peer_with_inv [xe0]]>
    (<["p2:6264" := peer_with_inv [x60]]>
       (<["p3:6264" := peer_with_inv [x20]]> ∅)).

(** [AtlasZonefileCrawler.step] under CPython 2.7, recording only the
    order of the attempts. *)
Definition crawler_attempts (pt : PeerTable.peer_table) (d : Catalog.atlasdb)
  : list string :=
  (ZonefileCrawler.step CPython27.list_of_set unit (fun _ _ s => s) pt d tt).1.

(** [s * n] *)
Fixpoint string_repeat (n : nat) (s : string) : string :=
  match n with
  | 0 => ""
  | S n' => s +:+ string_repeat n' s
  end.

(** The base64 text of 65,536 zero bytes, a full window of 524,288
    bits, and the reply of a peer that serves it for every window. *)
Definition full_window_text : string :=
  string_repeat 21845 "AAAA" +:+ "AA==".

Definition full_window : string :=
  string_repeat 65536 (String (ascii_of_nat 0) "").

Definition serves_full_windows (peer_hostport : string) (bit_offset bit_count : Z)
  : rpc_outcome :=
  RpcReturn (PyDict [("status", PyBool true); ("inv", PyStr full_window_text)]).

(** A local inventory of 589,824 bytes, longer than one window. *)
Definition long_local_inv : string := string_repeat 9 full_window.

(** A reply to [get_inventory(0, 8)] whose slice decodes to two bytes. *)
Definition two_byte_reply : rpc_outcome :=
  RpcReturn (PyDict [("status", PyBool true); ("inv", PyStr "AAA=")]).

Definition two_zero_bytes : string := string_of_list_byte [x00; x00].

Definition one_peer : PeerTable.peer_table :=
  <["peer:6264" := peer_with_inv []]> ∅.

(** ** Two properties one might expect of the peer table *)

(** Live neighbours at the default thresholds, as a list of exactly the
    non-blacklisted, contacted, healthy peers other than [excluding]. *)
Definition live_neighbors_skip_blacklisted (draw : nat -> nat)
  (excluding : option string) (pt : PeerTable.peer_table) : Prop :=
  forall p : string,
    p ∈ PeerTable.atlas_get_live_neighbors draw excluding pt MIN_PEER_HEALTH 1
    <-> exists info,
          pt !! p = Some info
          /\ PeerTable.blacklisted info = false
          /\ Some p <> excluding
          /\ 1 <= PeerTable.atlas_peer_get_request_count p pt
          /\ (MIN_PEER_HEALTH <= PeerTable.atlas_peer_get_health p pt)%Q.

(** A blacklisted peer that answered its only request. *)
Definition blacklisted_responsive : PeerTable.peer_table :=
  <["bad:6264" :=
      {| PeerTable.time := [(0%Z, true)]; PeerTable.zonefile_inv := "";
         PeerTable.blacklisted := true; PeerTable.whitelisted := false;
         PeerTable.zonefile_inventory_last_refresh := None |}]> ∅.

(** The history of a peer grows by exactly one entry over a call. *)
Definition history_grows_by_one (cfg : atlas_config)
  (b64decode : string -> option string) (now : Z) (peer_hostport : string)
  (call : rpc_call) (o : rpc_outcome) (pt : PeerTable.peer_table) : Prop :=
  forall info pt',
    pt !! peer_hostport = Some info ->
    table_after_call cfg b64decode now peer_hostport call o pt = Ok pt' ->
    exists info',
      pt' !! peer_hostport = Some info'
      /\ length (PeerTable.time info') = S (length (PeerTable.time info)).

(** A peer last contacted at time 0. *)
Definition contacted_at_0 : PeerTable.peer_table :=
  <["peer:6264" :=
      {| PeerTable.time := [(0%Z, true)]; PeerTable.zonefile_inv := "";
         PeerTable.blacklisted := false; PeerTable.whitelisted := false;
         PeerTable.zonefile_inventory_last_refresh := None |}]> ∅.

(** ** A property one might expect of [set_present] *)

(** [set_present] returns whether some row of the hash was present. *)
Definition set_present_returns_prior
  (st : Catalog.atlas_state) (zfhash : string) (pres : bool) : Prop :=
  forall st' was,
    Catalog.atlasdb_set_zonefile_present zfhash pres st = Ok (st', was) ->
    was = any_present zfhash (Catalog.db st).

(** The row [r] with its [present] column set. *)
Definition with_present (pres : bool) (r : Catalog.zonefile_row)
  : Catalog.zonefile_row :=
  {| Catalog.inv_index := Catalog.inv_index r;
     Catalog.zonefile_hash := Catalog.zonefile_hash r;
     Catalog.present := pres;
     Catalog.tried_storage := Catalog.tried_storage r;
     Catalog.block_height := Catalog.block_height r |}.

(** The state that [reset_then_rebuild] ends in. *)
Definition rebuilt_state : Catalog.atlas_state :=
  {| Catalog.db :=
       {| Catalog.zonefiles :=
            [ {| Catalog.inv_index := 2; Catalog.zonefile_hash := "b";
                 Catalog.present := true; Catalog.tried_storage := false;
                 Catalog.block_height := 100 |} ];
          Catalog.zonefiles_seq := 2 |};
     Catalog.ZONEFILE_INV := Some (string_of_list_byte [x80]);
     Catalog.NUM_ZONEFILES := 3 |}.

(** The state after the single insertion [add("h", True, 1)]. *)
Definition state_h : Catalog.atlas_state :=
  {| Catalog.db :=
       {| Catalog.zonefiles :=
            [ {| Catalog.inv_index := 1; Catalog.zonefile_hash := "h";
                 Catalog.present := true; Catalog.tried_storage := false;
                 Catalog.block_height := 1 |} ];
          Catalog.zonefiles_seq := 1 |};
     Catalog.ZONEFILE_INV := Some (string_of_list_byte [x80]);
     Catalog.NUM_ZONEFILES := 2 |}.

(** * Further functions of the module *)

(** ** Counting the bits one inventory has and another lacks *)

Module InventoryCount.
Import Inventory.

(** [(1 << (7 - j)) & ord(c)] *)
Definition masked (c : byte) (j : nat) : Z :=
  Z.land (Z.shiftl 1 (Z.of_nat (7 - j))) (ord c).

(** The first pair of loops of [atlas_inventory_count_missing], over
    the bytes both vectors have; [and] evaluates [inv1[i]] only when
    the bit of [inv2[i]] is set. *)
Definition count_common (l1 l2 : list byte) (count i : nat) : result nat :=
  foldM (fun count j =>
           c2 ← getitem l2 i;
           if negb (masked c2 j =? 0)%Z then
             c1 ← getitem l1 i;
             Ok (if (masked c1 j =? 0)%Z then count + 1 else count)
           else Ok count)
        count (seq 0 8).

(** The second pair of loops, over the bytes only [inv2] has. *)
Definition count_tail (l2 : list byte) (count i : nat) : result nat :=
  foldM (fun count j =>
           c2 ← getitem l2 i;
           Ok (if negb (masked c2 j =? 0)%Z then count + 1 else count))
        count (seq 0 8).

(** [atlas_inventory_count_missing] *)
Definition atlas_inventory_count_missing (inv1 inv2 : string) : result nat :=
  let l1 := list_byte_of_string inv1 in
  let l2 := list_byte_of_string inv2 in
  let common := Nat.min (length l1) (length l2) in
  count ← foldM (count_common l1 l2) 0 (seq 0 common);
  if length l1 <? length l2
  then foldM (count_tail l2) count (seq (length l1) (length l2 - length l1))
  else Ok count.

End InventoryCount.

(** The number of bit positions below [n] at which [inv2] has a bit
    that [inv1] lacks. *)
Definition missing_bits (inv1 inv2 : string) (n : nat) : nat :=
  length (List.filter (fun k => inv_bit inv2 k && negb (inv_bit inv1 k)) (seq 0 n)).

(** ** Further queries on the catalog *)

Module CatalogQueries.
Import Catalog.

(** The dictionary returned by [atlasdb_get_zonefile]. *)
Record zonefile_info : Type := {
  zi_zonefile_hash : string;
  zi_indexes : list positive;
  zi_block_heights : list Z;
  zi_present : bool;
  zi_tried_storage : bool
}.

(** [atlasdb_get_zonefile] *)
Definition atlasdb_get_zonefile (zfhash : string) (d : atlasdb) : zonefile_info :=
  fold_left
    (fun ret zfinfo =>
       {| zi_zonefile_hash := zi_zonefile_hash ret;
          zi_indexes := zi_indexes ret ++ [inv_index zfinfo];
          zi_block_heights := zi_block_heights ret ++ [block_height zfinfo];
          zi_present := zi_present ret || present zfinfo;
          zi_tried_storage := zi_tried_storage ret || tried_storage zfinfo |})
    (rows_of_hash zfhash d)
    {| zi_zonefile_hash := zfhash; zi_indexes := []; zi_block_heights := [];
       zi_present := false; zi_tried_storage := false |}.

(** A bound of a Python slice brought into [0 .. len]. *)
Definition slice_bound (len i : Z) : Z :=
  if (i <? 0)%Z then Z.max 0 (i + len) else Z.min i len.

(** [s[lo:hi]] *)
Definition py_slice (s : string) (lo hi : Z) : string :=
  let len := Z.of_nat (String.length s) in
  let lo := slice_bound len lo in
  let hi := slice_bound len hi in
  if (lo <? hi)%Z then String.substring (Z.to_nat lo) (Z.to_nat (hi - lo)) s else "".

(** [atlas_get_zonefile_inventory]; [None] stands for the abort of the
    process when the inventory was never loaded. *)
Definition atlas_get_zonefile_inventory (offset length : option Z) (st : atlas_state)
  : option string :=
  match ZONEFILE_INV st with
  | None => None
  | Some inv =>
      let len := Z.of_nat (String.length inv) in
      let offset := match offset with Some o => o | None => 0%Z end in
      let length := match length with Some l => l | None => (len - offset)%Z end in
      if (len <=? offset)%Z then Some ""
      else
        let length := if (len <? offset + length)%Z then (len - offset)%Z else length in
        Some (py_slice inv offset (offset + length))
  end.

End CatalogQueries.

(** The keys of the table ascend and none exceeds the counter of
    [sqlite_sequence]. *)
Definition keys_ascend (d : Catalog.atlasdb) : Prop :=
  StronglySorted Pos.lt (map Catalog.inv_index (Catalog.zonefiles d))
  /\ Forall (fun r => (Npos (Catalog.inv_index r) <= Catalog.zonefiles_seq d)%N)
            (Catalog.zonefiles d).

(** The rows carry the keys 1, 2, ... in table order, and the counter
    is their number. *)
Definition keys_dense (d : Catalog.atlasdb) : Prop :=
  (forall j r, Catalog.zonefiles d !! j = Some r ->
               Pos.to_nat (Catalog.inv_index r) = S j)
  /\ Catalog.zonefiles_seq d = N.of_nat (length (Catalog.zonefiles d)).

Definition is_block_reset (op : Catalog.catalog_op) : bool :=
  match op with
  | Catalog.OpBlockReset _ => true
  | _ => false
  end.

(** The state after [add("a", True, 1)] and [add("b", False, 1)]. *)
Definition state_ab : Catalog.atlas_state :=
  {| Catalog.db :=
       {| Catalog.zonefiles :=
            [ {| Catalog.inv_index := 1; Catalog.zonefile_hash := "a";
                 Catalog.present := true; Catalog.tried_storage := false;
                 Catalog.block_height := 1 |};
              {| Catalog.inv_index := 2; Catalog.zonefile_hash := "b";
                 Catalog.present := false; Catalog.tried_storage := false;
                 Catalog.block_height := 1 |} ];
          Catalog.zonefiles_seq := 2 |};
     Catalog.ZONEFILE_INV := Some (string_of_list_byte [x80]);
     Catalog.NUM_ZONEFILES := 3 |}.

(** What [atlasdb_queue_zonefiles] asks to be recorded, in order: for
    each block from [start_block] to the tip, each hash of the block
    with the answer of the blob store. *)
Definition queued_entries
  (lastblock : Z) (get_value_hashes_at : Z -> list string)
  (is_zonefile_cached : string -> bool) (start_block : Z)
  : list (string * bool * Z) :=
  flat_map (fun block_height =>
              map (fun zfhash => (zfhash, is_zonefile_cached zfhash, block_height))
                  (get_value_hashes_at block_height))
           (seqZ start_block (lastblock + 1 - start_block)).

Definition row_entry (r : Catalog.zonefile_row) : string * bool * Z :=
  (Catalog.zonefile_hash r, Catalog.present r, Catalog.block_height r).

(** ** What a peer is known to hold *)

Module PeerInventory.
Import Inventory Catalog PeerTable.

(** [atlas_peer_is_whitelisted] ([None] for an unknown peer). *)
Definition atlas_peer_is_whitelisted (peer_hostport : string) (pt : peer_table)
  : option bool :=
  whitelisted <$> pt !! peer_hostport.

(** [atlas_peer_has_fresh_zonefile_inventory]; [now] is the reading of
    [time_now()], [local_inv] the argument of that name, or [None] to
    rebuild it from the table. *)
Definition atlas_peer_has_fresh_zonefile_inventory
  (cfg : atlas_config) (now : Z) (peer_hostport : string)
  (local_inv : option string) (pt : peer_table) (d : atlasdb) : result bool :=
  local_inv ← match local_inv with
              | Some inv => Ok inv
              | None => atlas_make_zonefile_inventory 0 (atlasdb_zonefile_inv_length d) d
              end;
  match pt !! peer_hostport with
  | None => Ok false
  | Some info =>
      let expected_length := String.length local_inv in
      let peer_inv := zonefile_inv info in
      Ok ((expected_length <=? String.length peer_inv)
          && match zonefile_inventory_last_refresh info with
             | Some t => (now <? t + PEER_PING_INTERVAL cfg)%Z
             | None => false
             end)
  end.

(** [atlas_peer_set_zonefile_status]: the peer table afterwards. *)
Definition atlas_peer_set_zonefile_status
  (peer_hostport zonefile_hash : string) (pres : bool)
  (zonefile_bits : option (list nat)) (pt : peer_table) (d : atlasdb)
  : result peer_table :=
  let zonefile_bits := match zonefile_bits with
                       | Some bits => bits
                       | None => atlasdb_get_zonefile_bits zonefile_hash d
                       end in
  match pt !! peer_hostport with
  | Some info =>
      peer_inv ← atlas_inventory_flip_zonefile_bits (zonefile_inv info) zonefile_bits pres;
      Ok (atlas_peer_set_zonefile_inventory peer_hostport peer_inv pt)
  | None => Ok pt
  end.

(** [atlas_peer_has_zonefile]: [Some true], [Some false] or Python's
    [None]. *)
Definition atlas_peer_has_zonefile
  (peer_hostport zonefile_hash : string) (zonefile_bits : option (list nat))
  (d : atlasdb) (pt : peer_table) : result (option bool) :=
  let check bits :=
    match pt !! peer_hostport with
    | None => Ok (Some false)
    | Some info =>
        res ← atlas_inventory_test_zonefile_bits (zonefile_inv info) bits;
        Ok (Some res)
    end in
  match zonefile_bits with
  | None =>
      let bits := atlasdb_get_zonefile_bits zonefile_hash d in
      if length bits =? 0 then Ok None else check bits
  | Some bits => check bits
  end.

End PeerInventory.

(** Between two peer tables, nothing but the contact history of
    [peer_hostport] differs: the same peers are known, every other
    entry is the same, and the entry of [peer_hostport] keeps its
    inventory, its flags and its refresh time. *)
Definition only_history_changed
  (peer_hostport : string) (pt pt' : PeerTable.peer_table) : Prop :=
  (forall q, q <> peer_hostport -> pt' !! q = pt !! q)
  /\ match pt !! peer_hostport, pt' !! peer_hostport with
     | None, None => True
     | Some info, Some info' =>
         PeerTable.zonefile_inv info' = PeerTable.zonefile_inv info
         /\ PeerTable.blacklisted info' = PeerTable.blacklisted info
         /\ PeerTable.whitelisted info' = PeerTable.whitelisted info
         /\ PeerTable.zonefile_inventory_last_refresh info'
            = PeerTable.zonefile_inventory_last_refresh info
     | _, _ => False
     end.

(** The history of a peer, empty for an unknown peer. *)
Definition history (peer_hostport : string) (pt : PeerTable.peer_table)
  : list (Z * bool) :=
  match pt !! peer_hostport with
  | Some info => PeerTable.time info
  | None => []
  end.

(** A remote peer that serves no inventory. *)
Definition no_inventory (peer_hostport : string) (bit_offset bit_count : Z)
  : rpc_outcome := RpcSocketError.

(** ** Reading the availability map *)

(** The bit of a row in an inventory vector. *)
Definition row_bit (r : Catalog.zonefile_row) : nat :=
  Pos.to_nat (Catalog.inv_index r) - 1.

(** The rows marked absent, in table order. *)
Definition missing_rows (d : Catalog.atlasdb) : list Catalog.zonefile_row :=
  List.filter (fun r => negb (Catalog.present r)) (Catalog.zonefiles d).

(** The inventory mirrored for a peer, empty for an unknown peer. *)
Definition mirrored_inv (peer_hostport : string) (pt : PeerTable.peer_table)
  : string :=
  default "" (PeerTable.atlas_peer_get_zonefile_inventory peer_hostport pt).

(** What the availability map says about one hash, given the absent
    rows processed so far. *)
Definition availability_ok (pt : PeerTable.peer_table) (rows : list Catalog.zonefile_row)
  (ret : gmap string ZonefileCrawler.missing_info) (zfhash : string) : Prop :=
  match ret !! zfhash with
  | None => forall r, r ∈ rows -> Catalog.zonefile_hash r <> zfhash
  | Some info =>
      ZonefileCrawler.indexes info = map row_bit (List.filter (Catalog.has_hash zfhash) rows)
      /\ ZonefileCrawler.indexes info <> []
      /\ ZonefileCrawler.popularity info = length (ZonefileCrawler.peers info)
      /\ NoDup (ZonefileCrawler.peers info)
      /\ forall p, p ∈ ZonefileCrawler.peers info
                   <-> is_Some (pt !! p)
                       /\ exists j, j ∈ ZonefileCrawler.indexes info
                                    /\ inv_bit (mirrored_inv p pt) j = true
  end.

(** ** Ranking the peers, and forgetting the unhealthy ones *)

Module PeerRanking.
Import PeerTable PeerInventory.

(** Order of the Python tuples [(health_score, peer_hostport)]; the
    scores are compared as the exact ratios they stand for. *)
Definition health_leb (x y : Q * string) : bool :=
  negb (Qle_bool y.1 x.1) || (Qeq_bool x.1 y.1 && String.leb x.2 y.2).

Fixpoint health_insert (x : Q * string) (l : list (Q * string))
  : list (Q * string) :=
  match l with
  | [] => [x]
  | y :: l' => if health_leb x y then x :: y :: l' else y :: health_insert x l'
  end.

(** [peer_health_ranking.sort()] *)
Definition health_sort (l : list (Q * string)) : list (Q * string) :=
  fold_right health_insert [] l.

(** [atlas_rank_peers_by_health] with [with_rank=True]; without it the
    function returns the second components. *)
Definition atlas_rank_peers_by_health
  (peer_list : option (list string)) (pt : peer_table) (with_zero_requests : bool)
  : list (Q * string) :=
  let peer_list := match peer_list with
                   | Some l => l
                   | None => keys pt
                   end in
  let peer_health_ranking :=
    flat_map (fun peer_hostport =>
                let reqcount := atlas_peer_get_request_count peer_hostport pt in
                if (reqcount =? 0) && negb with_zero_requests then []
                else [(atlas_peer_get_health peer_hostport pt, peer_hostport)])
             peer_list in
  rev (health_sort peer_health_ranking).

(** One row of the table [peers]. *)
Record peer_row : Type := {
  peer_index : positive;
  peer_slot : Z;
  peer_hostport : string;
  discovery_time : Z
}.

(** [atlasdb_remove_peer]: the rows and the peer table afterwards. *)
Definition atlasdb_remove_peer
  (hostport : string) (peers : list peer_row) (pt : peer_table)
  : list peer_row * peer_table :=
  let peers :=
    List.filter (fun r => negb (bool_decide (peer_hostport r = hostport))) peers in
  let pt :=
    match pt !! hostport with
    | Some info =>
        if negb (whitelisted info) && negb (blacklisted info)
        then delete hostport pt else pt
    | None => pt
    end in
  (peers, pt).

(** The first loop of [AtlasPeerCrawler.remove_unhealthy_peers]. *)
Fixpoint select_unhealthy (count : Z) (min_request_count : nat) (min_health : Q)
  (pt : peer_table) (rank_peer_list : list (Q * string)) (removed : list string)
  : list string :=
  match rank_peer_list with
  | [] => removed
  | (rank, peer) :: rest =>
      let reqcount := atlas_peer_get_request_count peer pt in
      if (min_request_count <=? reqcount) && negb (Qle_bool min_health rank) then
        let removed := removed ++ [peer] in
        if (count <=? Z.of_nat (length removed))%Z then removed
        else select_unhealthy count min_request_count min_health pt rest removed
      else select_unhealthy count min_request_count min_health pt rest removed
  end.

(** [AtlasPeerCrawler.remove_unhealthy_peers]: the list returned, the
    rows of [peers] and the peer table afterwards. *)
Definition remove_unhealthy_peers
  (count : Z) (peers : list peer_row) (pt : peer_table)
  (min_request_count : nat) (min_health : Q)
  : list string * list peer_row * peer_table :=
  let rank_peer_list := atlas_rank_peers_by_health None pt false in
  let removed :=
    select_unhealthy count min_request_count min_health pt rank_peer_list [] in
  let '(peers, pt) :=
    fold_left (fun (acc : list peer_row * peer_table) peer =>
                 atlasdb_remove_peer peer acc.1 acc.2)
              removed (peers, pt) in
  (removed, peers, pt).

Definition PEER_MAX_DB : nat := 65536.

(** [atlas_max_new_peers] *)
Definition atlas_max_new_peers (max_neighbors : nat) : nat :=
  Nat.min (max_neighbors * 10) PEER_MAX_DB.

(** [atlas_peer_enqueue]: the value returned and the queue afterwards. *)
Definition atlas_peer_enqueue
  (hostport : string) (pt : peer_table) (peer_queue : list string)
  (max_neighbors : nat) : bool * list string :=
  let present := bool_decide (hostport ∈ keys pt) in
  if present then (false, peer_queue)
  else if length peer_queue <? atlas_max_new_peers max_neighbors
       then (true, peer_queue ++ [hostport])
       else (false, peer_queue).

(** [atlas_peer_dequeue_all]: the peers returned and the queue left. *)
Fixpoint dequeue_loop (peer_queue peers : list string) : list string * list string :=
  match peer_queue with
  | [] => (peers, [])
  | p :: rest => dequeue_loop rest (peers ++ [p])
  end.

Definition atlas_peer_dequeue_all (peer_queue : list string)
  : list string * list string :=
  dequeue_loop peer_queue [].

End PeerRanking.

(** Is this peer one that [remove_unhealthy_peers] looks for? *)
Definition unhealthy (min_request_count : nat) (min_health : Q)
  (pt : PeerTable.peer_table) (peer_hostport : string) : bool :=
  (min_request_count <=? PeerTable.atlas_peer_get_request_count peer_hostport pt)
  && negb (Qle_bool min_health (PeerTable.atlas_peer_get_health peer_hostport pt)).

(** Offering the peers of [offered] to the queue, one after the other. *)
Definition enqueue_all (pt : PeerTable.peer_table) (max_neighbors : nat)
  (peer_queue offered : list string) : list string :=
  fold_left (fun q p => (PeerRanking.atlas_peer_enqueue p pt q max_neighbors).2)
            offered peer_queue.

(** Two peers that answered two of twelve requests, one of them
    whitelisted, and a peer that answered its only request. *)
Definition twelve_requests : list (Z * bool) :=
  [(0, true); (0, true); (0, false); (0, false); (0, false); (0, false);
   (0, false); (0, false); (0, false); (0, false); (0, false); (0, false)]%Z.

Definition mixed_peers : PeerTable.peer_table :=
  <["weak:6264" :=
      {| PeerTable.time := twelve_requests; PeerTable.zonefile_inv := "";
         PeerTable.blacklisted := false; PeerTable.whitelisted := false;
         PeerTable.zonefile_inventory_last_refresh := None |}]>
  (<["seed:6264" :=
      {| PeerTable.time := twelve_requests; PeerTable.zonefile_inv := "";
         PeerTable.blacklisted := false; PeerTable.whitelisted := true;
         PeerTable.zonefile_inventory_last_refresh := None |}]>
   (<["good:6264" :=
       {| PeerTable.time := [(0%Z, true)]; PeerTable.zonefile_inv := "";
          PeerTable.blacklisted := false; PeerTable.whitelisted := false;
          PeerTable.zonefile_inventory_last_refresh := None |}]> ∅)).

(** * Properties *)

(** ** The bitmap primitives on small inputs *)

Example flip_scenario :
  Inventory.atlas_inventory_set_zonefile_bits
    (string_of_list_byte [x00; x00]) [0; 5; 15]
  = Ok (string_of_list_byte [x84; x01]).
Proof. vm_compute. reflexivity. Qed.

Example test_scenario_set :
  Inventory.atlas_inventory_test_zonefile_bits
    (string_of_list_byte [x84; x01]) [0; 5; 15] = Ok true.
Proof. vm_compute. reflexivity. Qed.

Example test_scenario_unset :
  Inventory.atlas_inventory_test_zonefile_bits
    (string_of_list_byte [x84; x01]) [1] = Ok false.
Proof. vm_compute. reflexivity. Qed.

Example to_string_scenario :
  Inventory.atlas_inventory_to_string (string_of_list_byte [xff; xf0])
  = "1111111111110000".
Proof. vm_compute. reflexivity. Qed.

Example inventory_round_trip :
  let ops := map (fun k => Catalog.OpAdd (pretty k) true 1) (seq 1 12) in
  (st ← Catalog.run_ops ops;
   Catalog.atlas_make_zonefile_inventory 0 12 (Catalog.db st))
  = Ok (string_of_list_byte [xff; xf0]).
Proof. vm_compute. reflexivity. Qed.

(** ** Bits of bytes *)

Section ByteBits.
Import Inventory.

Lemma ord_range c : (0 <= ord c < 256)%Z.
Proof. unfold ord. pose proof (Byte.to_N_bounded c). lia. Qed.

Lemma chr_ok z : (0 <= z < 256)%Z -> exists c, chr z = Ok c /\ ord c = z.
Proof.
  intros Hz. unfold chr.
  destruct (z <? 0)%Z eqn:Hneg; [lia|].
  destruct (Byte.of_N (Z.to_N z)) as [c|] eqn:Hc.
  - exists c. split; [reflexivity|].
    apply Byte.to_of_N in Hc. unfold ord. rewrite Hc. lia.
  - apply Byte.of_N_None_iff in Hc. lia.
Qed.

Lemma high_bits_clear z j : (0 <= z < 256)%Z -> (8 <= j)%Z -> Z.testbit z j = false.
Proof.
  intros Hz Hj. rewrite <- (Z.mod_small z (2 ^ 8)) by lia.
  apply Z.mod_pow2_bits_high. lia.
Qed.

Lemma below_256 z :
  (0 <= z)%Z -> (forall j, (8 <= j)%Z -> Z.testbit z j = false) -> (z < 256)%Z.
Proof.
  intros Hz Hhigh.
  assert (Hmod : z = (z mod 2 ^ 8)%Z).
  { apply Z.bits_inj'. intros n Hn.
    destruct (Z.lt_ge_cases n 8) as [Hlt|Hge].
    - rewrite Z.mod_pow2_bits_low by lia. reflexivity.
    - rewrite Z.mod_pow2_bits_high by lia. apply Hhigh. exact Hge. }
  rewrite Hmod. apply Z.mod_pos_bound. lia.
Qed.

Lemma testbit_one_shifted k j :
  (0 <= k)%Z -> Z.testbit (Z.shiftl 1 k) j = (k =? j)%Z.
Proof. intros Hk. rewrite Z.shiftl_1_l. apply Z.pow2_bits_eqb. exact Hk. Qed.

Lemma set_bit_spec z k j :
  (0 <= k)%Z ->
  Z.testbit (Z.lor z (Z.shiftl 1 k)) j = Z.testbit z j || (k =? j)%Z.
Proof. intros Hk. rewrite Z.lor_spec, testbit_one_shifted by exact Hk. done. Qed.

Lemma clear_bit_spec z k j :
  (0 <= k)%Z -> (0 <= j)%Z ->
  Z.testbit (Z.land z (Z.lnot (Z.shiftl 1 k))) j = Z.testbit z j && negb (k =? j)%Z.
Proof.
  intros Hk Hj.
  rewrite Z.land_spec, Z.lnot_spec, testbit_one_shifted by assumption. done.
Qed.

Lemma land_test z k :
  (0 <= k)%Z -> negb (Z.land z (Z.shiftl 1 k) =? 0)%Z = Z.testbit z k.
Proof.
  intros Hk. destruct (Z.testbit z k) eqn:Hbit.
  - apply negb_true_iff, Z.eqb_neq. intros Hzero.
    assert (Hk' : Z.testbit (Z.land z (Z.shiftl 1 k)) k = true).
    { rewrite Z.land_spec, testbit_one_shifted, Hbit, Z.eqb_refl by exact Hk. done. }
    rewrite Hzero, Z.bits_0 in Hk'. discriminate.
  - apply negb_false_iff, Z.eqb_eq, Z.bits_inj'. intros n Hn.
    rewrite Z.land_spec, testbit_one_shifted, Z.bits_0 by exact Hk.
    destruct (k =? n)%Z eqn:Hkn.
    + apply Z.eqb_eq in Hkn. subst n. rewrite Hbit. done.
    + apply andb_false_r.
Qed.

(** The byte written by one pass of the flip loop: it exists, and
    differs from the byte read in the flipped bit only. *)
Lemma flipped_byte (operation : bool) c (k : nat) :
  k < 8 ->
  exists c',
    chr (if operation
         then Z.lor (ord c) (Z.shiftl 1 (Z.of_nat k))
         else Z.land (ord c) (Z.lnot (Z.shiftl 1 (Z.of_nat k)))) = Ok c'
    /\ forall j : nat,
         Z.testbit (ord c') (Z.of_nat j)
         = if bool_decide (j = k) then operation
           else Z.testbit (ord c) (Z.of_nat j).
Proof.
  intros Hk. pose proof (ord_range c) as Hc.
  set (z := if operation
            then Z.lor (ord c) (Z.shiftl 1 (Z.of_nat k))
            else Z.land (ord c) (Z.lnot (Z.shiftl 1 (Z.of_nat k)))).
  assert (Hbits : forall j, (0 <= j)%Z ->
            Z.testbit z j = if (Z.of_nat k =? j)%Z then operation
                            else Z.testbit (ord c) j).
  { intros j Hj. subst z. destruct operation.
    - rewrite set_bit_spec by lia. destruct (Z.of_nat k =? j)%Z; [apply orb_true_r|apply orb_false_r].
    - rewrite clear_bit_spec by lia.
      destruct (Z.of_nat k =? j)%Z; [apply andb_false_r|apply andb_true_r]. }
  assert (Hz : (0 <= z < 256)%Z).
  { assert (Hnn : (0 <= z)%Z).
    { subst z. destruct operation.
      - apply Z.lor_nonneg. split; [lia|]. apply Z.shiftl_nonneg. lia.
      - apply Z.land_nonneg. left. lia. }
    split; [exact Hnn|]. apply below_256; [exact Hnn|].
    intros j Hj. rewrite Hbits by lia.
    destruct (Z.of_nat k =? j)%Z eqn:Hkj; [apply Z.eqb_eq in Hkj; lia|].
    apply high_bits_clear; assumption. }
  destruct (chr_ok z Hz) as (c' & Hchr & Hord).
  exists c'. split; [exact Hchr|].
  intros j. rewrite Hord, Hbits by lia.
  destruct (Z.of_nat k =? Z.of_nat j)%Z eqn:Hkj.
  - apply Z.eqb_eq in Hkj. rewrite bool_decide_eq_true_2 by lia. reflexivity.
  - apply Z.eqb_neq in Hkj. rewrite bool_decide_eq_false_2 by lia. reflexivity.
Qed.
End ByteBits.

(** ** What flip and test do to the bits of a vector *)

Section FlipAndTest.
Import Inventory.

Lemma same_byte_same_bit (i j : nat) :
  j / 8 = i / 8 -> (7 - j mod 8 = 7 - i mod 8 <-> j = i).
Proof.
  intros Hdiv.
  pose proof (Nat.div_mod_eq j 8). pose proof (Nat.div_mod_eq i 8).
  pose proof (Nat.mod_upper_bound j 8). pose proof (Nat.mod_upper_bound i 8).
  lia.
Qed.

Lemma flip_bit_spec operation (l : list byte) (i : nat) :
  i / 8 < length l ->
  exists l',
    flip_bit operation l i = Ok l'
    /\ length l' = length l
    /\ forall j, list_bit l' j = if bool_decide (j = i) then operation
                                 else list_bit l j.
Proof.
  intros Hlen.
  destruct (lookup_lt_is_Some_2 l (i / 8) Hlen) as [c Hc].
  assert (Hk : 7 - i mod 8 < 8) by lia.
  destruct (flipped_byte operation c (7 - i mod 8) Hk) as (c' & Hchr & Hbits).
  exists (<[i / 8 := c']> l).
  split; [|split].
  - unfold flip_bit, getitem. rewrite Hc. unfold mbind, result_bind.
    rewrite Hchr. reflexivity.
  - apply length_insert.
  - intros j. unfold list_bit.
    destruct (decide (j / 8 = i / 8)) as [Heq|Hne].
    + rewrite Heq, list_lookup_insert_eq, Hc, Hbits by exact Hlen.
      pose proof (same_byte_same_bit i j Heq) as Hsame.
      destruct (decide (j = i)) as [->|Hji].
      * rewrite !bool_decide_eq_true_2; done.
      * rewrite !bool_decide_eq_false_2; [done|done|]. intros Hb. apply Hji, Hsame, Hb.
    + rewrite list_lookup_insert_ne by congruence.
      rewrite bool_decide_eq_false_2; [done|]. intros ->. done.
Qed.

Lemma foldM_flip_spec operation (bits : list nat) :
  forall l : list byte,
    (forall i, i ∈ bits -> i / 8 < length l) ->
    exists l',
      foldM (flip_bit operation) l bits = Ok l'
      /\ length l' = length l
      /\ forall j, list_bit l' j = if bool_decide (j ∈ bits) then operation
                                   else list_bit l j.
Proof.
  induction bits as [|i bits IH]; intros l Hrange; cbn [foldM].
  - exists l. split; [reflexivity|]. split; [reflexivity|]. intros j.
    rewrite bool_decide_eq_false_2; [done|]. apply not_elem_of_nil.
  - destruct (flip_bit_spec operation l i) as (l1 & Hflip & Hlen1 & Hbits1).
    { apply Hrange. left. }
    rewrite Hflip. unfold mbind, result_bind.
    destruct (IH l1) as (l' & Hfold & Hlen' & Hbits').
    { intros k Hk. rewrite Hlen1. apply Hrange. by right. }
    exists l'. split; [exact Hfold|]. split; [congruence|].
    intros j. rewrite Hbits', Hbits1.
    destruct (decide (j ∈ bits)) as [Hin|Hnin].
    + rewrite !bool_decide_eq_true_2; [done| |done]. by right.
    + rewrite (bool_decide_eq_false_2 (j ∈ bits)) by done.
      destruct (decide (j = i)) as [->|Hji].
      * rewrite !bool_decide_eq_true_2; [done| |done]. left.
      * rewrite !bool_decide_eq_false_2; [done| |done].
        rewrite elem_of_cons. intros [?|?]; done.
Qed.

Lemma test_bit_spec (l : list byte) (ret : bool) (i : nat) :
  i / 8 < length l -> test_bit l ret i = Ok (ret && list_bit l i).
Proof.
  intros Hlen. destruct (lookup_lt_is_Some_2 l (i / 8) Hlen) as [c Hc].
  unfold test_bit, getitem, list_bit. rewrite Hc. unfold mbind, result_bind.
  rewrite land_test by lia. reflexivity.
Qed.

Lemma foldM_test_spec (l : list byte) (bits : list nat) :
  forall ret : bool,
    (forall i, i ∈ bits -> i / 8 < length l) ->
    foldM (test_bit l) ret bits = Ok (ret && forallb (list_bit l) bits).
Proof.
  induction bits as [|i bits IH]; intros ret Hrange; cbn [foldM forallb].
  - rewrite andb_true_r. reflexivity.
  - rewrite test_bit_spec by (apply Hrange; left).
    unfold mbind, result_bind.
    rewrite IH by (intros k Hk; apply Hrange; by right).
    rewrite andb_assoc. reflexivity.
Qed.

Lemma fold_max_bounds (l : list nat) :
  forall a, a <= fold_left Nat.max l a /\ forall i, i ∈ l -> i <= fold_left Nat.max l a.
Proof.
  induction l as [|x l IH]; intros a; simpl.
  - split; [lia|]. intros i Hi. by apply not_elem_of_nil in Hi.
  - destruct (IH (Nat.max a x)) as [Ha Hl]. split; [lia|].
    intros i Hi. apply elem_of_cons in Hi as [->|Hi]; [lia|]. by apply Hl.
Qed.

Lemma py_max_bounds (bits : list nat) :
  bits <> [] ->
  exists m, py_max bits = Ok m /\ forall i, i ∈ bits -> i <= m.
Proof.
  destruct bits as [|x bits]; [done|]. intros _. simpl.
  eexists. split; [reflexivity|].
  destruct (fold_max_bounds bits x) as [Hx Hl].
  intros i Hi. apply elem_of_cons in Hi as [->|Hi]; [exact Hx|by apply Hl].
Qed.

Lemma expand_length (l : list byte) (m : nat) : m <= length (expand l m).
Proof.
  unfold expand. destruct (length l <=? m) eqn:Hle.
  - apply Nat.leb_le in Hle. rewrite length_app, length_replicate. lia.
  - apply Nat.leb_gt in Hle. lia.
Qed.

Lemma expand_bits (l : list byte) (m j : nat) :
  list_bit (expand l m) j = list_bit l j.
Proof.
  unfold expand. destruct (length l <=? m); [|reflexivity].
  unfold list_bit.
  destruct (l !! (j / 8)) as [c|] eqn:Hc.
  - rewrite (lookup_app_l_Some _ _ _ _ Hc). reflexivity.
  - apply lookup_ge_None in Hc. rewrite lookup_app_r by exact Hc.
    destruct (replicate _ x00 !! _) as [c|] eqn:Hpad; [|reflexivity].
    apply lookup_replicate in Hpad as [-> _]. apply Z.bits_0.
Qed.

Lemma in_range_after_expand (bits : list nat) (l : list byte) (m : nat) :
  (forall i, i ∈ bits -> i <= m) ->
  forall i, i ∈ bits -> i / 8 < length (expand l (m / 8 + 1)).
Proof.
  intros Hmax i Hi. pose proof (expand_length l (m / 8 + 1)).
  pose proof (Nat.Div0.div_le_mono i m 8 (Hmax i Hi)). lia.
Qed.

(** Flipping a non-empty list of bits succeeds; the listed bits then
    read [operation] and every other bit reads as before. *)
Lemma flip_spec (inv_vec : string) (bits : list nat) (operation : bool) :
  bits <> [] ->
  exists inv',
    atlas_inventory_flip_zonefile_bits inv_vec bits operation = Ok inv'
    /\ forall j, inv_bit inv' j = if bool_decide (j ∈ bits) then operation
                                  else inv_bit inv_vec j.
Proof.
  intros Hne. destruct (py_max_bounds bits Hne) as (m & Hm & Hmax).
  unfold atlas_inventory_flip_zonefile_bits. rewrite Hm.
  unfold mbind, result_bind. cbv zeta.
  destruct (foldM_flip_spec operation bits
              (expand (list_byte_of_string inv_vec) (m / 8 + 1)))
    as (l' & Hfold & _ & Hbits).
  { apply in_range_after_expand, Hmax. }
  rewrite Hfold. eexists. split; [reflexivity|].
  intros j. unfold inv_bit.
  rewrite String.list_byte_of_string_of_list_byte, Hbits, expand_bits.
  reflexivity.
Qed.

Lemma forallb_pointwise {A : Type} (f g : A -> bool) (l : list A) :
  (forall x, f x = g x) -> forallb f l = forallb g l.
Proof.
  intros Hfg. induction l as [|x l IH]; simpl; [reflexivity|].
  rewrite Hfg, IH. reflexivity.
Qed.

(** Testing a non-empty list of bits succeeds and tells whether every
    listed bit is set. *)
Lemma test_spec (inv_vec : string) (bits : list nat) :
  bits <> [] ->
  atlas_inventory_test_zonefile_bits inv_vec bits
  = Ok (forallb (inv_bit inv_vec) bits).
Proof.
  intros Hne. destruct (py_max_bounds bits Hne) as (m & Hm & Hmax).
  unfold atlas_inventory_test_zonefile_bits. rewrite Hm.
  unfold mbind, result_bind. cbv zeta.
  rewrite foldM_test_spec by (apply in_range_after_expand, Hmax).
  rewrite andb_true_l. f_equal. apply forallb_pointwise. intros j. apply expand_bits.
Qed.
End FlipAndTest.

(** ** C10: the primitives are partial in the list of bit indexes *)

Section Partiality.
Import Inventory Catalog.

Lemma flip_empty_raises inv_vec operation :
  atlas_inventory_flip_zonefile_bits inv_vec [] operation = Raise ValueError.
Proof. reflexivity. Qed.


(** An [UPDATE] that matches no row changes nothing. *)
Lemma rows_of_hash_update zfhash pres d :
  rows_of_hash zfhash (sql_update_present zfhash pres d)
  = map (fun r => {| inv_index := inv_index r; zonefile_hash := zonefile_hash r;
                     present := pres; tried_storage := tried_storage r;
                     block_height := block_height r |})
        (rows_of_hash zfhash d).
Proof.
  unfold rows_of_hash, sql_update_present; simpl.
  induction (zonefiles d) as [|r rows IH]; simpl; [reflexivity|].
  destruct (has_hash zfhash r) eqn:Hr; simpl.
  - unfold has_hash at 1; simpl. unfold has_hash in Hr. rewrite Hr.
    simpl. f_equal. exact IH.
  - rewrite Hr. exact IH.
Qed.

Lemma get_bits_update zfhash pres d :
  atlasdb_get_zonefile_bits zfhash (sql_update_present zfhash pres d)
  = atlasdb_get_zonefile_bits zfhash d.
Proof.
  unfold atlasdb_get_zonefile_bits. rewrite rows_of_hash_update.
  rewrite map_map. reflexivity.
Qed.

(** C10.  Flipping or testing an empty list of bit indexes raises
    (from [max([])]) instead of returning the vector or a vacuous
    [True]; hence [set_present] on a hash without rows raises and
    returns no prior presence. *)
Theorem C10_primitives_partial
  (inv_vec : string) (operation : bool) (zfhash : string) (pres : bool)
  (st : atlas_state) :
  rows_of_hash zfhash (db st) = [] ->
  atlas_inventory_flip_zonefile_bits inv_vec [] operation = Raise ValueError
  /\ atlas_inventory_test_zonefile_bits inv_vec [] = Raise ValueError
  /\ atlasdb_get_zonefile_bits zfhash (db st) = []
  /\ atlasdb_set_zonefile_present zfhash pres st = Raise ValueError.
Proof.
  intros Hrows.
  assert (Hbits : atlasdb_get_zonefile_bits zfhash (db st) = [])
    by (unfold atlasdb_get_zonefile_bits; rewrite Hrows; reflexivity).
  repeat split; try reflexivity; [exact Hbits|].
  unfold atlasdb_set_zonefile_present.
  rewrite get_bits_update, Hbits. reflexivity.
Qed.

Lemma C10_primitives_partial_witness :
  rows_of_hash "unknown" (db atlas_state_init) = []
  /\ atlasdb_set_zonefile_present "unknown" true atlas_state_init
     = Raise ValueError.
Proof.
  split; [reflexivity|].
  apply (C10_primitives_partial "" true "unknown" true atlas_state_init).
  reflexivity.
Defined.
End Partiality.

(** ** Rebuilding the bitmap from the table *)

Section Rebuild.
Import Inventory Catalog.

Lemma packed_byte (b0 b1 b2 b3 b4 b5 b6 b7 : bool) :
  exists c,
    chr (Z.lor (Z.shiftl (bit_of b0) 7)
        (Z.lor (Z.shiftl (bit_of b1) 6)
        (Z.lor (Z.shiftl (bit_of b2) 5)
        (Z.lor (Z.shiftl (bit_of b3) 4)
        (Z.lor (Z.shiftl (bit_of b4) 3)
        (Z.lor (Z.shiftl (bit_of b5) 2)
        (Z.lor (Z.shiftl (bit_of b6) 1) (bit_of b7)))))))) = Ok c
    /\ map (list_bit [c]) (seq 0 8) = [b0; b1; b2; b3; b4; b5; b6; b7].
Proof.
  destruct b0, b1, b2, b3, b4, b5, b6, b7;
    eexists; (split; [vm_compute; reflexivity|vm_compute; reflexivity]).
Qed.

Lemma list_bit_cons_low c (l : list byte) j :
  j < 8 -> list_bit (c :: l) j = list_bit [c] j.
Proof.
  intros Hj. unfold list_bit. rewrite (Nat.div_small j 8) by exact Hj. reflexivity.
Qed.

Lemma list_bit_cons_high c (l : list byte) j :
  list_bit (c :: l) (8 + j) = list_bit l j.
Proof.
  pose proof (Nat.div_mod_eq (8 + j) 8). pose proof (Nat.div_mod_eq j 8).
  pose proof (Nat.mod_upper_bound (8 + j) 8). pose proof (Nat.mod_upper_bound j 8).
  unfold list_bit.
  replace ((8 + j) / 8) with (S (j / 8)) by lia.
  replace ((8 + j) mod 8) with (j mod 8) by lia.
  reflexivity.
Qed.

Lemma pack_bool_vec_spec (n : nat) :
  forall bool_vec : list bool,
    length bool_vec = 8 * n ->
    exists l,
      pack_bool_vec bool_vec = Ok l
      /\ length l = n
      /\ forall j, list_bit l j = default false (bool_vec !! j).
Proof.
  induction n as [|n IH]; intros bv Hlen.
  - destruct bv; [|discriminate]. exists []. repeat split.
  - destruct bv as [|b0 [|b1 [|b2 [|b3 [|b4 [|b5 [|b6 [|b7 rest]]]]]]]];
      try (simpl in Hlen; lia).
    destruct (packed_byte b0 b1 b2 b3 b4 b5 b6 b7) as (c & Hc & Hbits).
    destruct (IH rest) as (l & Hl & Hn & Hrest); [simpl in Hlen; lia|].
    exists (c :: l). split; [|split].
    + cbn [pack_bool_vec]. rewrite Hc. unfold mbind, result_bind.
      rewrite Hl. reflexivity.
    + simpl. lia.
    + intros j. destruct (Nat.lt_ge_cases j 8) as [Hlt|Hge].
      * rewrite list_bit_cons_low by exact Hlt.
        injection Hbits as H0 H1 H2 H3 H4 H5 H6 H7.
        do 8 (destruct j as [|j]; [assumption|]). lia.
      * replace j with (8 + (j - 8)) by lia.
        rewrite list_bit_cons_high, Hrest. reflexivity.
Qed.

Lemma padded_lookup (bool_vec : list bool) (k j : nat) :
  default false ((bool_vec ++ replicate k false) !! j)
  = default false (bool_vec !! j).
Proof.
  destruct (bool_vec !! j) as [b|] eqn:Hb.
  - rewrite (lookup_app_l_Some _ _ _ _ Hb). reflexivity.
  - apply lookup_ge_None in Hb. rewrite lookup_app_r by exact Hb.
    destruct (replicate k false !! _) as [b|] eqn:Hpad; [|reflexivity].
    apply lookup_replicate in Hpad as [-> _]. reflexivity.
Qed.

(** [atlas_make_zonefile_inventory] returns, and bit [j] of its result
    is the [present] column of the [j]-th row listed: rows are placed
    by their position in the listing, not by their key. *)
Lemma make_inventory_by_position (bit_offset bit_length : nat) (d : atlasdb) :
  exists inv,
    atlas_make_zonefile_inventory bit_offset bit_length d = Ok inv
    /\ forall j,
         inv_bit inv j
         = default false
             (present <$> atlasdb_zonefile_inv_list bit_offset bit_length d !! j).
Proof.
  unfold atlas_make_zonefile_inventory.
  set (bv := map present (atlasdb_zonefile_inv_list bit_offset bit_length d)).
  set (padded := if negb (length bv mod 8 =? 0)
                 then bv ++ replicate (8 - length bv mod 8) false else bv).
  assert (Hlen : exists n, length padded = 8 * n).
  { pose proof (Nat.div_mod_eq (length bv) 8).
    pose proof (Nat.mod_upper_bound (length bv) 8).
    subst padded. destruct (length bv mod 8 =? 0) eqn:Hmod; cbn [negb].
    - apply Nat.eqb_eq in Hmod. exists (length bv / 8). lia.
    - apply Nat.eqb_neq in Hmod. exists (length bv / 8 + 1).
      rewrite length_app, length_replicate. lia. }
  destruct Hlen as [n Hlen].
  destruct (pack_bool_vec_spec n padded Hlen) as (l & Hl & _ & Hbits).
  rewrite Hl. unfold mbind, result_bind.
  eexists. split; [reflexivity|].
  intros j. unfold inv_bit.
  rewrite String.list_byte_of_string_of_list_byte, Hbits.
  assert (Hpad : default false (padded !! j) = default false (bv !! j)).
  { subst padded. destruct (negb (length bv mod 8 =? 0)); [|reflexivity].
    apply padded_lookup. }
  rewrite Hpad. subst bv. rewrite list_lookup_fmap. reflexivity.
Qed.

(** The rebuild of the cached bitmap: bit [j] becomes the [present]
    column of the [j]-th row of the table. *)
Lemma cache_by_position (st : atlas_state) :
  exists st' inv,
    atlasdb_cache_zonefile_info st = Ok (st', inv)
    /\ db st' = db st
    /\ ZONEFILE_INV st' = Some inv
    /\ forall j,
         inv_bit inv j
         = default false
             (present <$> take (atlasdb_zonefile_inv_length (db st))
                               (zonefiles (db st)) !! j).
Proof.
  destruct (make_inventory_by_position
              0 (atlasdb_zonefile_inv_length (db st)) (db st))
    as (inv & Hinv & Hbits).
  unfold atlasdb_cache_zonefile_info. rewrite Hinv. unfold mbind, result_bind.
  eexists. exists inv. repeat split. exact Hbits.
Qed.
End Rebuild.

(** ** C1: the cached bitmap against the catalog *)

Section BitmapConsistency.
Import Inventory Catalog.

(** C1.  After a block reset, a re-insertion and a rebuild of the
    cached bitmap by [make_inventory], the only row is that of hash
    "b" with key 2 and [present = true]; the rebuilt bitmap is the
    byte 0x80, whose bit 1 is clear, so the test of the bits of "b"
    gives [False].  Just before the rebuild the test gave [True]. *)
Theorem C1_rebuild_after_reset_misaligns :
  (exists st,
      run_ops [OpAdd "a" true 100; OpBlockReset 100; OpAdd "b" true 100] = Ok st
      /\ bitmap_consistent st "b")
  /\ exists st,
      run_ops reset_then_rebuild = Ok st
      /\ map inv_index (zonefiles (db st)) = [2%positive]
      /\ atlasdb_get_zonefile_bits "b" (db st) = [1]
      /\ ZONEFILE_INV st = Some (string_of_list_byte [x80])
      /\ any_present "b" (db st) = true
      /\ atlas_inventory_test_zonefile_bits
           (local_inv st) (atlasdb_get_zonefile_bits "b" (db st)) = Ok false
      /\ ~ bitmap_consistent st "b".
Proof.
  split.
  - eexists. split; [vm_compute; reflexivity|]. vm_compute. reflexivity.
  - eexists. split; [vm_compute; reflexivity|].
    repeat split; try (vm_compute; reflexivity).
    unfold bitmap_consistent. vm_compute. discriminate.
Qed.
End BitmapConsistency.

(** ** C4: the inventory length *)

Section InventoryLength.
Import Inventory Catalog.

(** On a non-empty table the length operation is one more than the
    largest key. *)
Lemma inv_length_is_max_plus_one d m :
  sql_max_inv_index d = Some m ->
  atlasdb_zonefile_inv_length d = Pos.to_nat m + 1.
Proof. unfold atlasdb_zonefile_inv_length. intros ->. reflexivity. Qed.

(** C4.  With one row (key 1) in the table, the cached bitmap is one
    byte, but [atlasdb_zonefile_inv_length], and with it
    [NUM_ZONEFILES], is 2, not [max(inv_index) = 1]; after a rebuild
    from the table the same. *)
Theorem C4_inv_length_off_by_one :
  exists st inv,
    (st' ← run_ops [OpAdd "a" true 100]; atlasdb_cache_zonefile_info st')
    = Ok (st, inv)
    /\ sql_max_inv_index (db st) = Some 1%positive
    /\ atlasdb_zonefile_inv_length (db st) = 2
    /\ NUM_ZONEFILES st = 2
    /\ inv = string_of_list_byte [x80]
    /\ ZONEFILE_INV st = Some inv.
Proof.
  eexists. eexists. split; [vm_compute; reflexivity|].
  repeat split; vm_compute; reflexivity.
Qed.
End InventoryLength.

(** ** C5: [set_present] *)

Section SetPresent.
Import Inventory Catalog.

Lemma zonefiles_update zfhash pres d :
  zonefiles (sql_update_present zfhash pres d)
  = map (fun r => if has_hash zfhash r then with_present pres r else r)
        (zonefiles d).
Proof. reflexivity. Qed.

Lemma get_bits_nonempty zfhash d :
  0 < length (rows_of_hash zfhash d) -> atlasdb_get_zonefile_bits zfhash d <> [].
Proof.
  unfold atlasdb_get_zonefile_bits.
  destruct (rows_of_hash zfhash d); simpl; [lia|discriminate].
Qed.

(** C5.  [set_present] answers from the cached bitmap (the conjunction
    of the hash's bits), not from the rows, and the two disagree in
    states the catalog operations reach.  After [add("a", True, 1)] and
    [add("a", False, 2)] the first row of "a" is present, the second
    insertion has cleared both bits of "a", and [set_present("a", True)]
    returns [False].  After a block reset, a re-insertion and a rebuild
    the only row, of "b", is present, and [set_present("b", True)]
    returns [False] as well. *)
Theorem C5_set_present_misreports_prior_presence :
  (exists st,
      run_ops [OpAdd "a" true 1; OpAdd "a" false 2] = Ok st
      /\ map present (rows_of_hash "a" (db st)) = [true; false]
      /\ any_present "a" (db st) = true
      /\ ZONEFILE_INV st = Some (string_of_list_byte [x00])
      /\ (r ← atlasdb_set_zonefile_present "a" true st; Ok r.2) = Ok false
      /\ ~ set_present_returns_prior st "a" true)
  /\ run_ops reset_then_rebuild = Ok rebuilt_state
  /\ map present (rows_of_hash "b" (db rebuilt_state)) = [true]
  /\ (r ← atlasdb_set_zonefile_present "b" true rebuilt_state; Ok r.2) = Ok false
  /\ ~ set_present_returns_prior rebuilt_state "b" true.
Proof.
  assert (Hwrong : forall st zfhash,
             any_present zfhash (db st) = true ->
             (r ← atlasdb_set_zonefile_present zfhash true st; Ok r.2) = Ok false ->
             ~ set_present_returns_prior st zfhash true).
  { intros st zfhash Hany Hcall Hprior.
    destruct (atlasdb_set_zonefile_present zfhash true st) as [[st' was]|e] eqn:Hset;
      [|discriminate].
    cbn in Hcall. rewrite (Hprior st' was Hset), Hany in Hcall. discriminate. }
  split.
  - eexists. split; [vm_compute; reflexivity|].
    do 4 (split; [vm_compute; reflexivity|]).
    apply Hwrong; vm_compute; reflexivity.
  - do 3 (split; [vm_compute; reflexivity|]).
    apply Hwrong; vm_compute; reflexivity.
Qed.
End SetPresent.

(** ** The selection of push peers, in general *)

Section PushPeersGeneral.
Import Inventory Catalog PeerTable Pusher.

Lemma foldM_select (holds : string -> bool) (bits : list nat)
  (inv_of : string -> string) (l : list string) :
  bits <> [] ->
  (forall p, holds p = forallb (inv_bit (inv_of p)) bits) ->
  forall acc,
    foldM (fun push_peers peer_hostport =>
             res ← atlas_inventory_test_zonefile_bits (inv_of peer_hostport) bits;
             Ok (if res : bool then push_peers ++ [peer_hostport] else push_peers))
          acc l
    = Ok (acc ++ List.filter holds l).
Proof.
  intros Hbits Hholds. induction l as [|p l IH]; intros acc; cbn [foldM List.filter].
  - rewrite app_nil_r. reflexivity.
  - rewrite test_spec by exact Hbits. unfold mbind, result_bind.
    rewrite IH, Hholds.
    destruct (forallb (inv_bit (inv_of p)) bits).
    + rewrite <- app_assoc. reflexivity.
    + reflexivity.
Qed.

(** For a hash the catalog knows, the peers selected are those of the
    table in whose mirrored inventory every bit of the hash is set. *)
Lemma find_push_peers_are_holders (zfhash : string) (pt : peer_table) (d : atlasdb) :
  0 < length (rows_of_hash zfhash d) ->
  atlas_zonefile_find_push_peers zfhash pt None d
  = Ok (List.filter
          (fun p => forallb
                      (inv_bit (default "" (atlas_peer_get_zonefile_inventory p pt)))
                      (atlasdb_get_zonefile_bits zfhash d))
          (keys pt)).
Proof.
  intros Hrows. pose proof (get_bits_nonempty zfhash d Hrows) as Hbits.
  unfold atlas_zonefile_find_push_peers.
  destruct (atlasdb_get_zonefile_bits zfhash d) as [|b bits] eqn:Hb; [done|].
  cbn [length bool_decide andb]. rewrite andb_false_r.
  rewrite (foldM_select
             (fun p => forallb
                         (inv_bit (default "" (atlas_peer_get_zonefile_inventory p pt)))
                         (b :: bits))
             (b :: bits)
             (fun p => default "" (atlas_peer_get_zonefile_inventory p pt)));
    [reflexivity|done|reflexivity].
Qed.
End PushPeersGeneral.

(** ** C2: which peers the pusher selects *)

Section PushPeers.
Import Inventory Catalog PeerTable Pusher.

(** C2.  With "holder" mirroring bit 0 of hash "h" as set and "lacker"
    not, [atlas_zonefile_find_push_peers] selects the holder; the
    pusher's step sends the body to the holder and not to the lacker;
    push-enqueue grows the queue when every known peer has the
    zonefile and leaves it alone when the only known peer lacks it. *)
Theorem C2_pusher_selects_holders :
  exists st,
    catalog_h = Ok st
    /\ atlasdb_get_zonefile_bits "h" (db st) = [0]
    /\ atlas_inventory_test_zonefile_bits (string_of_list_byte [x80]) [0] = Ok true
    /\ atlas_inventory_test_zonefile_bits "" [0] = Ok false
    /\ atlas_zonefile_find_push_peers "h" holder_and_lacker None (db st)
       = Ok ["holder:6264"]
    /\ (r ← pusher_step 0%Z holder_and_lacker [("h", "body")] (db st);
        Ok (r.1.1.1, r.1.1.2, r.2))
       = Ok (1, [("holder:6264", ["body"])], [])
    /\ atlas_zonefile_push_enqueue default_config "h" "body" only_holder [] (db st)
       = Ok (Some true, [("h", "body")])
    /\ atlas_zonefile_push_enqueue default_config "h" "body" only_lacker [] (db st)
       = Ok (Some false, [])
    /\ (r ← pusher_step 0%Z only_lacker [("h", "body")] (db st);
        Ok (r.1.1.1, r.1.1.2))
       = Ok (0, []).
Proof.
  eexists. split; [vm_compute; reflexivity|].
  repeat split; vm_compute; reflexivity.
Qed.
End PushPeers.

(** ** C3: the order of the fetcher's attempts *)

Section FetchOrder.
Import Catalog PeerTable ZonefileCrawler.

(** The loop takes the hashes as head in list order. *)
Lemma fetch_loop_order (S : Type) (attempt : string -> list string -> S -> S)
  (hashes attempted : list string) (s : S) :
  (fetch_loop S attempt hashes attempted s).1 = attempted ++ hashes.
Proof.
  revert attempted s. induction hashes as [|h hashes IH]; intros attempted s; simpl.
  - rewrite app_nil_r. reflexivity.
  - rewrite IH, <- app_assoc. reflexivity.
Qed.

(** Whatever the interpreter's set order is, the attempts follow it. *)
Lemma step_order (list_of_set : list string -> list string) (S : Type)
  (attempt : string -> list string -> S -> S) pt d s :
  (step list_of_set S attempt pt d s).1
  = list_of_set
      (map snd (zonefile_ranking (atlas_find_missing_zonefile_availability pt d))).
Proof. unfold step. rewrite fetch_loop_order. reflexivity. Qed.

(** C3.  Hashes "a", "b", "c" are missing and known at 1, 2 and 3 peers;
    the ranking is sorted rarest first, but the attempts are made in
    the order "a", "c", "b": the hash known at 3 peers before the one
    known at 2. *)
Theorem C3_attempts_follow_set_order :
  exists st,
    catalog_abc = Ok st
    /\ (fun m => (popularity <$> m !! "a", popularity <$> m !! "b",
                  popularity <$> m !! "c"))
         (atlas_find_missing_zonefile_availability peers_abc (db st))
       = (Some 1, Some 2, Some 3)
    /\ zonefile_ranking (atlas_find_missing_zonefile_availability peers_abc (db st))
       = [(1, "a"); (2, "b"); (3, "c")]
    /\ crawler_attempts peers_abc (db st) = ["a"; "c"; "b"].
Proof.
  eexists. split; [vm_compute; reflexivity|].
  repeat split; vm_compute; reflexivity.
Qed.
End FetchOrder.

(** ** C6: live neighbours *)

Section LiveNeighbors.
Import PeerTable.

Lemma insert_Permutation {A : Type} (l : list A) (j : nat) (x y : A) :
  l !! j = Some y -> <[j := x]> l ≡ₚ x :: delete j l.
Proof.
  revert j. induction l as [|a l IH]; intros [|j] Hj; simpl in *; try discriminate.
  - reflexivity.
  - rewrite (IH j Hj). apply Permutation_swap.
Qed.

Lemma swap_Permutation {A : Type} (x : list A) (i j : nat) : swap x i j ≡ₚ x.
Proof.
  unfold swap.
  destruct (x !! i) as [xi|] eqn:Hi; [|reflexivity].
  destruct (x !! j) as [xj|] eqn:Hj; [|reflexivity].
  revert i j Hi Hj.
  induction x as [|a x IH]; intros [|i] [|j] Hi Hj; simpl in *; try discriminate.
  - by simplify_eq.
  - injection Hi as ->.
    transitivity (xj :: xi :: delete j x).
    + apply Permutation_skip, (insert_Permutation x j xi xj Hj).
    + transitivity (xi :: xj :: delete j x); [apply Permutation_swap|].
      apply Permutation_skip. symmetry. apply (delete_Permutation x j xj Hj).
  - injection Hj as ->.
    transitivity (xi :: xj :: delete i x).
    + apply Permutation_skip, (insert_Permutation x i xj xi Hi).
    + transitivity (xj :: xi :: delete i x); [apply Permutation_swap|].
      apply Permutation_skip. symmetry. apply (delete_Permutation x i xi Hi).
  - rewrite (IH i j Hi Hj). reflexivity.
Qed.

Lemma random_shuffle_Permutation {A : Type} (draw : nat -> nat) (x : list A) :
  random_shuffle draw x ≡ₚ x.
Proof.
  unfold random_shuffle. generalize (length x - 1) as i. intros i. revert x.
  induction i as [|i IH]; intros x; simpl; [reflexivity|].
  rewrite IH. apply swap_Permutation.
Qed.

Lemma is_live_spec excluding min_health min_request_count pt p :
  is_live excluding min_health min_request_count pt p = true
  <-> Some p <> excluding
      /\ min_request_count <= atlas_peer_get_request_count p pt
      /\ (min_health <= atlas_peer_get_health p pt)%Q.
Proof.
  unfold is_live.
  destruct (bool_decide (Some p = excluding)) eqn:He.
  - apply bool_decide_eq_true in He. split; [discriminate|]. intros [Hne _]. done.
  - apply bool_decide_eq_false in He.
    destruct (atlas_peer_get_request_count p pt <? min_request_count) eqn:Hc.
    + apply Nat.ltb_lt in Hc. split; [discriminate|]. intros (_ & Hle & _). lia.
    + apply Nat.ltb_ge in Hc.
      destruct (Qle_bool min_health (atlas_peer_get_health p pt)) eqn:Hq; simpl.
      * apply Qle_bool_iff in Hq. split; [intros _; done|reflexivity].
      * split; [discriminate|]. intros (_ & _ & Hle).
        apply Qle_bool_iff in Hle. congruence.
Qed.

(** C6 (amended).  [live_neighbors] returns, in an order fixed by the
    random draws and without repetition, exactly the peers of the table
    other than the excluded hostport whose request count is at least
    the minimum and whose health is at least the minimum health;
    whether a peer is blacklisted plays no part. *)
Theorem C6_live_neighbors_filter
  (draw : nat -> nat) (excluding : option string) (pt : peer_table)
  (min_health : Q) (min_request_count : nat) :
  let alive :=
    atlas_get_live_neighbors draw excluding pt min_health min_request_count in
  NoDup alive
  /\ forall p : string,
       p ∈ alive
       <-> is_Some (pt !! p)
           /\ Some p <> excluding
           /\ min_request_count <= atlas_peer_get_request_count p pt
           /\ (min_health <= atlas_peer_get_health p pt)%Q.
Proof.
  intros alive. subst alive. unfold atlas_get_live_neighbors.
  split.
  - rewrite random_shuffle_Permutation.
    apply NoDup_ListNoDup, List.NoDup_filter, NoDup_ListNoDup.
    unfold keys. apply NoDup_fst_map_to_list.
  - intros p. rewrite random_shuffle_Permutation.
    rewrite list_elem_of_In, List.filter_In, <- list_elem_of_In, is_live_spec.
    unfold keys. rewrite list_elem_of_fmap.
    split.
    + intros [[[k info] [-> Hin]] Hrest]. simpl.
      apply elem_of_map_to_list in Hin. split; [eauto|exact Hrest].
    + intros [[info Hinfo] Hrest]. split; [|exact Hrest].
      exists (p, info). split; [reflexivity|]. by apply elem_of_map_to_list.
Qed.

(** C6, counterexample: a blacklisted peer that answered its one
    request is returned as a live neighbour. *)
Lemma C6_blacklisted_peer_is_live :
  ~ live_neighbors_skip_blacklisted (fun _ => 0) None blacklisted_responsive.
Proof.
  intros H. destruct (H "bad:6264") as [Hin _].
  assert (Hlive : "bad:6264" ∈ atlas_get_live_neighbors
                    (fun _ => 0) None blacklisted_responsive MIN_PEER_HEALTH 1).
  { vm_compute. left. }
  destruct (Hin Hlive) as (info & Hinfo & Hbl & _).
  unfold blacklisted_responsive in Hinfo. rewrite lookup_insert_eq in Hinfo.
  injection Hinfo as <-. discriminate.
Qed.
End LiveNeighbors.

(** ** C9: the health history over an RPC *)

Section HealthHistory.
Import PeerTable Rpc.

Lemma update_health_history cfg now p responded (pt : peer_table) info :
  pt !! p = Some info ->
  time <$> (atlas_peer_update_health cfg now p responded pt).1 !! p
  = Some (unexpired cfg now (time info) ++ [(now, responded)]).
Proof.
  intros Hp. unfold atlas_peer_update_health. rewrite Hp. simpl.
  rewrite lookup_insert_eq. reflexivity.
Qed.

Lemma filter_length_le {A : Type} (f : A -> bool) (l : list A) :
  length (List.filter f l) <= length l.
Proof.
  induction l as [|a l IH]; simpl; [lia|]. destruct (f a); simpl; lia.
Qed.

Lemma filter_keeps_all {A : Type} (f : A -> bool) (l : list A) :
  length (List.filter f l) = length l <-> List.filter f l = l.
Proof.
  split; [|intros ->; reflexivity].
  induction l as [|a l IH]; simpl; [reflexivity|].
  destruct (f a); simpl; intros H.
  - f_equal. apply IH. lia.
  - pose proof (filter_length_le f l). lia.
Qed.

Ltac history_after :=
  match goal with
  | H : Ok _ = Ok _ |- _ => injection H as <-
  | H : Raise _ = Ok _ |- _ => discriminate H
  | H : ?pt !! ?p = Some ?info |- context [match ?pt !! ?p with _ => _ end] =>
      rewrite H
  | |- exists r, time <$> (atlas_peer_update_health _ _ _ ?b _).1 !! _ = _ =>
      exists b; eapply update_health_history; eassumption
  end.

(** After an RPC client call to a peer of the peer table that returns
    to its caller, the peer's history is its prior entries that have
    not outlived [PEER_LIFETIME_INTERVAL], followed by exactly one new
    [(now, responded)] entry; so it has exactly one entry more than
    before precisely when no prior entry had expired. *)
Lemma history_after_returning_call
  (cfg : atlas_config) (b64decode : string -> option string) (now : Z)
  (p : string) (call : rpc_call) (o : rpc_outcome) (pt pt' : peer_table)
  (info : peer_info) :
  pt !! p = Some info ->
  table_after_call cfg b64decode now p call o pt = Ok pt' ->
  exists responded : bool,
    time <$> pt' !! p = Some (unexpired cfg now (time info) ++ [(now, responded)])
    /\ (length (unexpired cfg now (time info) ++ [(now, responded)])
        = S (length (time info))
        <-> unexpired cfg now (time info) = time info).
Proof.
  intros Hp Hcall.
  assert (Hhist : exists responded : bool,
             time <$> pt' !! p
             = Some (unexpired cfg now (time info) ++ [(now, responded)])).
  { destruct call; simpl in Hcall.
    - unfold atlas_peer_ping in Hcall. repeat history_after.
    - unfold atlas_peer_getinfo in Hcall. repeat history_after.
    - unfold atlas_peer_get_neighbors in Hcall.
      destruct (returned o) as [| | | | |d]; simpl in Hcall;
        repeat history_after.
      destruct (dict_has_key d "error"); simpl in Hcall; repeat history_after.
      destruct (dict_get d "peers"); simpl in Hcall; repeat history_after.
    - unfold atlas_peer_get_zonefile_inventory_range in Hcall.
      destruct (returned o) as [| | | | |d]; simpl in Hcall;
        repeat history_after.
      destruct (dict_has_key _ "error"); simpl in Hcall; repeat history_after.
      destruct (dict_get _ "inv"); simpl in Hcall; repeat history_after.
    - unfold atlas_get_zonefiles in Hcall.
      destruct (returned o) as [| | | | |d]; simpl in Hcall;
        repeat history_after.
      destruct (dict_has_key d "error"); simpl in Hcall; repeat history_after.
      destruct (dict_get d "zonefiles"); simpl in Hcall; repeat history_after.
    - unfold atlas_zonefile_push in Hcall. repeat history_after. }
  destruct Hhist as [responded Hhist]. exists responded. split; [exact Hhist|].
  rewrite length_app. simpl. unfold unexpired. rewrite <- filter_keeps_all. lia.
Qed.

(** A peer whose one entry dates from time 0 is pinged at time 4000:
    the old entry is dropped and the history has one entry again, not
    two. *)
Lemma expired_entry_is_dropped :
  ~ history_grows_by_one default_config Base64.b64decode 4000 "peer:6264"
      CallPing (RpcReturn PyNone) contacted_at_0.
Proof.
  intros H.
  destruct (H {| time := [(0%Z, true)]; zonefile_inv := "";
                 blacklisted := false; whitelisted := false;
                 zonefile_inventory_last_refresh := None |}
              (atlas_peer_ping default_config 4000 "peer:6264"
                 (RpcReturn PyNone) contacted_at_0).2)
    as (info' & Hinfo' & Hlen); [reflexivity|reflexivity|].
  vm_compute in Hinfo'. injection Hinfo' as <-. simpl in Hlen. discriminate.
Qed.

(** On a return, the table at the exit is the table returned. *)
Lemma table_at_exit_of_return cfg b64decode now p call o (pt pt' : peer_table) :
  table_after_call cfg b64decode now p call o pt = Ok pt' ->
  table_at_exit cfg b64decode now p call o pt = pt'.
Proof.
  destruct call; cbn [table_after_call table_at_exit].
  - by intros [= <-].
  - by intros [= <-].
  - destruct (atlas_peer_get_neighbors cfg now p o pt) as [r|e]; [|discriminate].
    by intros [= <-].
  - unfold atlas_peer_get_zonefile_inventory_range.
    destruct (returned o) as [| | | | |d]; try discriminate.
    + by intros [= <-].
    + cbv zeta. destruct (dict_has_key _ "error"); [by intros [= <-]|].
      destruct (dict_get _ "inv"); [by intros [= <-]|discriminate].
  - unfold atlas_get_zonefiles.
    destruct (returned o) as [| | | | |d]; try discriminate.
    + by intros [= <-].
    + destruct (dict_has_key d "error"); [by intros [= <-]|]. cbv zeta.
      destruct (dict_get d "zonefiles"); [by intros [= <-]|discriminate].
  - by intros [= <-].
Qed.

(** A reply to [get_atlas_peers] that is a dictionary without the keys
    ["error"] and ["peers"] fails the sanity checks; the [except] clause
    logs, and [ret = peer_list['peers']] raises [KeyError] one line
    before the health update: the table is left as it was. *)
Lemma neighbors_reply_without_peers cfg b64decode now p d (pt : peer_table) :
  dict_get d "error" = None -> dict_get d "peers" = None ->
  atlas_peer_get_neighbors cfg now p (RpcReturn (PyDict d)) pt = Raise KeyError
  /\ table_at_exit cfg b64decode now p CallGetNeighbors (RpcReturn (PyDict d)) pt = pt.
Proof.
  intros Herr Hpeers.
  assert (Hraise : atlas_peer_get_neighbors cfg now p (RpcReturn (PyDict d)) pt
                   = Raise KeyError).
  { unfold atlas_peer_get_neighbors, dict_has_key. cbn [returned].
    rewrite Herr, Hpeers. rewrite bool_decide_eq_false_2 by (intros [? ?]; done).
    reflexivity. }
  split; [exact Hraise|]. cbn [table_at_exit]. by rewrite Hraise.
Qed.

(** C9.  A peer contacted once, at time 0, is asked for its neighbours
    at time 10.  When the call times out, the history gains the entry
    [(10, False)].  When the peer answers [{'status': True}], a reply
    without ['peers'], the client raises [KeyError] and the history is
    what it was: no entry records the call.  The same holds for a list
    in place of the dictionary of [get_zonefile_inventory], where the
    client raises [AttributeError]. *)
Theorem C9_malformed_reply_is_not_recorded :
  history "peer:6264" contacted_at_0 = [(0%Z, true)]
  /\ history "peer:6264"
       (table_at_exit default_config Base64.b64decode 10 "peer:6264"
                      CallGetNeighbors RpcSocketError contacted_at_0)
     = [(0%Z, true); (10%Z, false)]
  /\ atlas_peer_get_neighbors default_config 10 "peer:6264"
       (RpcReturn (PyDict [("status", PyBool true)])) contacted_at_0
     = Raise KeyError
  /\ history "peer:6264"
       (table_at_exit default_config Base64.b64decode 10 "peer:6264"
                      CallGetNeighbors
                      (RpcReturn (PyDict [("status", PyBool true)])) contacted_at_0)
     = [(0%Z, true)]
  /\ atlas_peer_get_zonefile_inventory_range
       default_config Base64.b64decode 10 "peer:6264" 0 8
       (RpcReturn (PyList [])) contacted_at_0
     = Raise AttributeError
  /\ history "peer:6264"
       (table_at_exit default_config Base64.b64decode 10 "peer:6264"
                      (CallGetInventory 0 8) (RpcReturn (PyList [])) contacted_at_0)
     = [(0%Z, true)].
Proof. do 5 (split; [vm_compute; reflexivity|]). vm_compute. reflexivity. Qed.
End HealthHistory.

(** ** The inventory client, in general *)

Section InventoryClientGeneral.
Import PeerTable Rpc.

Lemma dict_get_set_eq d k v : dict_get (dict_set d k v) k = Some v.
Proof.
  induction d as [|[k' v'] d IH]; simpl.
  - rewrite bool_decide_eq_true_2; done.
  - destruct (bool_decide (k' = k)) eqn:Hk; simpl.
    + rewrite bool_decide_eq_true_2; done.
    + rewrite Hk. exact IH.
Qed.

Lemma dict_get_set_ne d k k' v :
  k <> k' -> dict_get (dict_set d k v) k' = dict_get d k'.
Proof.
  intros Hne. induction d as [|[k0 v0] d IH]; simpl.
  - rewrite bool_decide_eq_false_2; done.
  - destruct (bool_decide (k0 = k)) eqn:Hk; simpl.
    + apply bool_decide_eq_true in Hk. subst k0.
      rewrite !bool_decide_eq_false_2; done.
    + destruct (bool_decide (k0 = k')); [reflexivity|exact IH].
Qed.

(** Whatever its length, a slice that decodes is returned, and the
    call is recorded as a response. *)
Lemma decoded_slice_is_returned
  (cfg : atlas_config) (b64decode : string -> option string) (now : Z)
  (p : string) (bit_offset bit_count : Z) (d : list (string * pyval))
  (status : pyval) (s inv : string) (pt : peer_table) :
  dict_get d "error" = None ->
  dict_get d "status" = Some status ->
  py_truthy status = true ->
  dict_get d "inv" = Some (PyStr s) ->
  b64decode s = Some inv ->
  atlas_peer_get_zonefile_inventory_range
    cfg b64decode now p bit_offset bit_count (RpcReturn (PyDict d)) pt
  = Ok (PyStr inv, (atlas_peer_update_health cfg now p true pt).1).
Proof.
  intros Herr Hstatus Htruthy Hinv Hdec.
  unfold atlas_peer_get_zonefile_inventory_range. cbn [returned].
  assert (Htry : (inventory_range_try b64decode bit_count d).1
                 = dict_set d "inv" (PyStr inv)).
  { unfold inventory_range_try, dict_has_key.
    rewrite Herr, Hstatus, Htruthy, Hinv, Hdec. cbn [negb bool_decide].
    rewrite bool_decide_eq_false_2 by (intros [? ?]; done). cbn [negb].
    destruct (inventory_length_ok bit_count inv); reflexivity. }
  rewrite Htry. unfold dict_has_key.
  rewrite !dict_get_set_ne by done. rewrite dict_get_set_eq.
  rewrite Hstatus, Htruthy, Herr.
  rewrite bool_decide_eq_false_2 by (intros [? ?]; done). reflexivity.
Qed.

Lemma py_xrange_first (start stop step : Z) :
  (0 < step)%Z -> (start < stop)%Z ->
  exists rest, py_xrange start stop step = start :: rest.
Proof.
  intros Hstep Hlt. unfold py_xrange.
  assert (Hn : (0 < (stop - start + step - 1) `div` step)%Z).
  { apply Z.div_str_pos. lia. }
  rewrite seqZ_cons by exact Hn. cbn [map].
  eexists. f_equal. lia.
Qed.

(** A well-formed reply to the first window (one that passes every
    check of the client, the length bound included) ends the download:
    no second window is requested, however long [maxlen] is. *)
Lemma download_asks_once
  (cfg : atlas_config) (b64decode : string -> option string)
  (get_zonefile_inventory : string -> Z -> Z -> rpc_outcome) (now : Z)
  (p : string) (maxlen bit_offset : Z) (d : list (string * pyval))
  (status : pyval) (s inv : string) (pt : peer_table) :
  (bit_offset < maxlen)%Z ->
  get_zonefile_inventory p bit_offset interval = RpcReturn (PyDict d) ->
  dict_get d "error" = None ->
  dict_get d "status" = Some status ->
  py_truthy status = true ->
  dict_get d "inv" = Some (PyStr s) ->
  b64decode s = Some inv ->
  inventory_length_ok interval inv = true ->
  atlas_peer_download_zonefile_inventory
    cfg b64decode get_zonefile_inventory now p maxlen bit_offset pt
  = Ok (inv, [(bit_offset, interval)],
        (atlas_peer_update_health cfg now p true pt).1).
Proof.
  intros Hlt Hreply Herr Hstatus Htruthy Hinv Hdec Hlen.
  unfold atlas_peer_download_zonefile_inventory.
  destruct (maxlen <? bit_offset)%Z eqn:Hcmp; [lia|].
  destruct (py_xrange_first bit_offset maxlen interval) as [rest ->];
    [reflexivity|exact Hlt|].
  cbn [download_loop]. rewrite Hreply.
  rewrite (decoded_slice_is_returned cfg b64decode now p bit_offset interval
             d status s inv pt Herr Hstatus Htruthy Hinv Hdec).
  unfold mbind, result_bind. cbn [fst snd app].
  assert (Hshort : (py_len inv <? interval)%Z = true).
  { unfold inventory_length_ok in Hlen. apply Z.leb_le in Hlen.
    apply Z.ltb_lt. unfold py_len.
    change (interval `div` 8 + interval `mod` 8)%Z with 65536%Z in Hlen.
    change interval with 524288%Z. lia. }
  rewrite Hshort. reflexivity.
Qed.
End InventoryClientGeneral.

(** ** C7 and C8: downloading a peer's inventory *)

Section InventoryDownload.
Import PeerTable Rpc.

(** C8.  Asked for 8 bits, the peer answers with a slice of two bytes.
    The length assertion fails inside the [try] block, yet the client
    returns the two-byte slice and records a response in the history. *)
Theorem C8_long_slice_is_returned :
  Base64.b64decode "AAA=" = Some two_zero_bytes
  /\ py_len two_zero_bytes = 2%Z
  /\ inventory_length_ok 8 two_zero_bytes = false
  /\ (inventory_range_try Base64.b64decode 8
        [("status", PyBool true); ("inv", PyStr "AAA=")]).2 = Raise AssertionError
  /\ (r ← atlas_peer_get_zonefile_inventory_range
            default_config Base64.b64decode 100%Z "peer:6264" 0 8
            two_byte_reply one_peer;
      Ok (r.1, time <$> r.2 !! "peer:6264"))
     = Ok (PyStr two_zero_bytes, Some [(100%Z, true)]).
Proof. repeat split; vm_compute; reflexivity. Qed.

(** C7.  Two windows are due ([maxlen] is 1,048,576) and the peer serves
    a full window of 524,288 bits for each; the loop asks for the first
    window only and returns its 65,536 bytes.  A refresh against a
    local inventory longer than one window likewise makes that single
    request, installs the 65,536 bytes and stamps the refresh time. *)
Theorem C7_download_stops_after_full_window :
  py_xrange 0 1048576 interval = [0%Z; 524288%Z]
  /\ Base64.b64decode full_window_text = Some full_window
  /\ (8 * py_len full_window = interval)%Z
  /\ inventory_length_ok interval full_window = true
  /\ (r ← atlas_peer_download_zonefile_inventory
            default_config Base64.b64decode serves_full_windows
            100%Z "peer:6264" 1048576 0 one_peer;
      Ok (bool_decide (r.1.1 = full_window), r.1.2))
     = Ok (true, [(0%Z, 524288%Z)])
  /\ py_xrange 0 (py_len long_local_inv) interval = [0%Z; 524288%Z]
  /\ (r ← atlas_peer_refresh_zonefile_inventory
            default_config Base64.b64decode serves_full_windows
            100%Z "peer:6264" 0 (Some long_local_inv) Catalog.atlasdb_empty one_peer;
      Ok (r.1.1, r.1.2,
          (fun info => (bool_decide (zonefile_inv info = full_window),
                        zonefile_inventory_last_refresh info))
            <$> r.2 !! "peer:6264"))
     = Ok (true, [(0%Z, 524288%Z)], Some (true, Some 100%Z)).
Proof. repeat split; vm_compute; reflexivity. Qed.
End InventoryDownload.

(** ** Lengths of byte strings *)

Section ByteStrings.

Lemma length_list_byte_of_string (s : string) :
  length (list_byte_of_string s) = String.length s.
Proof.
  unfold String.list_byte_of_string. rewrite length_map.
  induction s as [|c s IH]; simpl; [reflexivity|]. rewrite IH. reflexivity.
Qed.

Lemma length_string_of_list_byte (l : list byte) :
  String.length (string_of_list_byte l) = length l.
Proof.
  rewrite <- length_list_byte_of_string.
  rewrite String.list_byte_of_string_of_list_byte. reflexivity.
Qed.

End ByteStrings.

(** ** More on flip and test *)

Section FlipAndTestMore.
Import Inventory.

Lemma fold_max_in (l : list nat) :
  forall a, fold_left Nat.max l a = a \/ fold_left Nat.max l a ∈ l.
Proof.
  induction l as [|x l IH]; intros a; simpl; [by left|].
  destruct (IH (Nat.max a x)) as [Heq|Hin].
  - rewrite Heq. destruct (Nat.max_spec a x) as [[_ ->]|[_ ->]]; [right; left|by left].
  - right. by right.
Qed.

Lemma py_max_in (bits : list nat) (m : nat) : py_max bits = Ok m -> m ∈ bits.
Proof.
  destruct bits as [|x bits]; [discriminate|]. simpl. intros [= <-].
  destruct (fold_max_in bits x) as [->|Hin]; [left|by right].
Qed.

Lemma nonempty_of_length {A : Type} (l : list A) : 0 < length l -> l <> [].
Proof. destruct l; simpl; [lia|discriminate]. Qed.

(** X1.  Flipping a non-empty list of bit indexes never raises; each
    listed bit then reads the operation's value, and every other bit,
    also one beyond the old end of the vector, reads as it did. *)
Theorem flip_changes_listed_bits_only
  (inv_vec : string) (bits : list nat) (operation : bool) :
  0 < length bits ->
  exists inv',
    atlas_inventory_flip_zonefile_bits inv_vec bits operation = Ok inv'
    /\ forall j, inv_bit inv' j = if bool_decide (j ∈ bits) then operation
                                  else inv_bit inv_vec j.
Proof. intros Hlen. apply flip_spec, nonempty_of_length, Hlen. Qed.

Lemma flip_changes_listed_bits_only_witness :
  exists inv',
    atlas_inventory_flip_zonefile_bits "" [9] true = Ok inv'
    /\ forall j, inv_bit inv' j = if bool_decide (j ∈ [9]) then true
                                  else inv_bit "" j.
Proof. apply (flip_changes_listed_bits_only "" [9] true). simpl. lia. Defined.

(** X2.  The vector returned by a flip has the length of the old one,
    or just enough bytes to hold the largest listed bit if that is
    more: it is extended with zero bytes and never shortened. *)
Theorem flip_length
  (inv_vec inv' : string) (bits : list nat) (operation : bool) :
  atlas_inventory_flip_zonefile_bits inv_vec bits operation = Ok inv' ->
  exists m,
    m ∈ bits /\ (forall i, i ∈ bits -> i <= m)
    /\ String.length inv' = Nat.max (String.length inv_vec) (m / 8 + 1).
Proof.
  unfold atlas_inventory_flip_zonefile_bits.
  destruct (py_max bits) as [m|e] eqn:Hm; [|discriminate].
  unfold mbind, result_bind. cbv zeta.
  assert (Hne : bits <> []) by (intros ->; discriminate).
  destruct (py_max_bounds bits Hne) as (m' & Hm' & Hmax).
  assert (m' = m) by congruence. subst m'.
  destruct (foldM_flip_spec operation bits
              (expand (list_byte_of_string inv_vec) (m / 8 + 1)))
    as (l' & Hfold & Hlen & _).
  { apply in_range_after_expand, Hmax. }
  rewrite Hfold. intros [= <-].
  exists m. split; [by apply py_max_in|]. split; [exact Hmax|].
  rewrite length_string_of_list_byte, Hlen. unfold expand.
  rewrite <- length_list_byte_of_string.
  destruct (length (list_byte_of_string inv_vec) <=? m / 8 + 1) eqn:Hle.
  - apply Nat.leb_le in Hle. rewrite length_app, length_replicate. lia.
  - apply Nat.leb_gt in Hle. lia.
Qed.

Lemma flip_length_witness :
  exists m,
    m ∈ [0; 5; 15] /\ (forall i, i ∈ [0; 5; 15] -> i <= m)
    /\ String.length (string_of_list_byte [x84; x01])
       = Nat.max (String.length (string_of_list_byte [x00])) (m / 8 + 1).
Proof.
  apply (flip_length (string_of_list_byte [x00]) (string_of_list_byte [x84; x01])
           [0; 5; 15] true).
  reflexivity.
Defined.

(** X3.  Testing a non-empty list of bit indexes never raises, whatever
    the length of the vector, and answers [True] exactly when every
    listed bit is set. *)
Theorem test_true_iff_all_set (inv_vec : string) (bits : list nat) :
  0 < length bits ->
  exists b,
    atlas_inventory_test_zonefile_bits inv_vec bits = Ok b
    /\ (b = true <-> forall j, j ∈ bits -> inv_bit inv_vec j = true).
Proof.
  intros Hlen. exists (forallb (inv_bit inv_vec) bits).
  split; [apply test_spec, nonempty_of_length, Hlen|].
  rewrite forallb_forall. split; intros H j Hj; apply H.
  - by apply list_elem_of_In.
  - by apply list_elem_of_In.
Qed.

Lemma test_true_iff_all_set_witness :
  exists b,
    atlas_inventory_test_zonefile_bits "" [3] = Ok b
    /\ (b = true <-> forall j, j ∈ [3] -> inv_bit "" j = true).
Proof. apply (test_true_iff_all_set "" [3]). simpl. lia. Defined.

Lemma forallb_const {A : Type} (b : bool) (f : A -> bool) (l : list A) :
  0 < length l -> (forall x, x ∈ l -> f x = b) -> forallb f l = b.
Proof.
  destruct l as [|x l]; simpl; [lia|]. intros _ Hf.
  rewrite (Hf x) by left. destruct b; [|reflexivity]. simpl.
  apply forallb_forall. intros y Hy. apply Hf. right. by apply list_elem_of_In.
Qed.

(** X4.  Setting a non-empty list of bits and then clearing the same
    list: the test says [True] after the set and [False] after the
    clear, and the bits that are not listed read throughout as in the
    vector started from. *)
Theorem set_then_clear (inv_vec : string) (bits : list nat) :
  0 < length bits ->
  exists inv1 inv2,
    atlas_inventory_set_zonefile_bits inv_vec bits = Ok inv1
    /\ atlas_inventory_test_zonefile_bits inv1 bits = Ok true
    /\ atlas_inventory_clear_zonefile_bits inv1 bits = Ok inv2
    /\ atlas_inventory_test_zonefile_bits inv2 bits = Ok false
    /\ forall j, j ∉ bits -> inv_bit inv2 j = inv_bit inv_vec j.
Proof.
  intros Hlen. pose proof (nonempty_of_length bits Hlen) as Hne.
  destruct (flip_spec inv_vec bits true Hne) as (inv1 & Hset & Hbits1).
  destruct (flip_spec inv1 bits false Hne) as (inv2 & Hclear & Hbits2).
  exists inv1, inv2. unfold atlas_inventory_set_zonefile_bits,
    atlas_inventory_clear_zonefile_bits.
  split; [exact Hset|]. split; [|split; [exact Hclear|split]].
  - rewrite test_spec by exact Hne. f_equal. apply forallb_const; [exact Hlen|].
    intros j Hj. rewrite Hbits1, bool_decide_eq_true_2; done.
  - rewrite test_spec by exact Hne. f_equal. apply forallb_const; [exact Hlen|].
    intros j Hj. rewrite Hbits2, bool_decide_eq_true_2; done.
  - intros j Hj. rewrite Hbits2, bool_decide_eq_false_2 by exact Hj.
    rewrite Hbits1, bool_decide_eq_false_2 by exact Hj. reflexivity.
Qed.

Lemma set_then_clear_witness :
  exists inv1 inv2,
    atlas_inventory_set_zonefile_bits "" [0; 12] = Ok inv1
    /\ atlas_inventory_test_zonefile_bits inv1 [0; 12] = Ok true
    /\ atlas_inventory_clear_zonefile_bits inv1 [0; 12] = Ok inv2
    /\ atlas_inventory_test_zonefile_bits inv2 [0; 12] = Ok false
    /\ forall j, j ∉ [0; 12] -> inv_bit inv2 j = inv_bit "" j.
Proof. apply (set_then_clear "" [0; 12]). simpl. lia. Defined.

End FlipAndTestMore.

(** ** The printed form of an inventory *)

Section ToString.
Import Inventory.

Lemma land_test_comm z k :
  (0 <= k)%Z -> negb (Z.land (Z.shiftl 1 k) z =? 0)%Z = Z.testbit z k.
Proof. intros Hk. rewrite Z.land_comm. apply land_test, Hk. Qed.

Lemma byte_to_bits_list_bit c (l : list byte) :
  byte_to_bits c = map (list_bit (c :: l)) (seq 0 8).
Proof.
  unfold byte_to_bits. apply map_ext_in. intros j Hj.
  apply in_seq in Hj. rewrite list_bit_cons_low by lia.
  unfold list_bit. rewrite (Nat.div_small j 8), (Nat.mod_small j 8) by lia.
  simpl. apply land_test. lia.
Qed.

Lemma bits_of_bytes (l : list byte) :
  flat_map byte_to_bits l = map (list_bit l) (seq 0 (8 * length l)).
Proof.
  induction l as [|c l IH]; [reflexivity|].
  cbn [flat_map length]. replace (8 * S (length l)) with (8 + 8 * length l) by lia.
  rewrite seq_app, map_app, <- (byte_to_bits_list_bit c l). f_equal.
  rewrite IH. cbn [Nat.add]. rewrite <- (fmap_add_seq 8 0).
  rewrite <- list_fmap_compose. apply map_ext. intros j. simpl.
  symmetry. apply (list_bit_cons_high c l j).
Qed.

(** X5.  The printed form has eight characters per byte, and its
    [k]-th character is "1" exactly when bit [k] of the vector is set
    (bit 0 being the most significant bit of the first byte). *)
Theorem to_string_reads_bits (inv : string) :
  atlas_inventory_to_string inv
  = String.string_of_list_ascii
      (map (fun k => if inv_bit inv k then "1"%char else "0"%char)
           (seq 0 (8 * String.length inv))).
Proof.
  unfold atlas_inventory_to_string. f_equal.
  rewrite bits_of_bytes, length_list_byte_of_string, map_map. reflexivity.
Qed.

End ToString.

(** ** Counting missing bits *)

Section CountMissing.
Import Inventory InventoryCount.

Lemma foldM_ext_in {A B : Type} (f g : B -> A -> result B) (l : list A) :
  (forall b x, In x l -> f b x = g b x) ->
  forall b, foldM f b l = foldM g b l.
Proof.
  induction l as [|x l IH]; intros Hfg b; cbn [foldM]; [reflexivity|].
  rewrite (Hfg b x) by (left; reflexivity).
  destruct (g b x) as [b'|e]; [|reflexivity].
  unfold mbind, result_bind. apply IH. intros b0 y Hy. apply Hfg. by right.
Qed.

Lemma foldM_count {A : Type} (g : A -> bool) (l : list A) :
  forall count,
    foldM (fun count x => Ok (if g x then count + 1 else count)) count l
    = Ok (count + length (List.filter g l)).
Proof.
  induction l as [|x l IH]; intros count; cbn [foldM List.filter].
  - rewrite Nat.add_0_r. reflexivity.
  - unfold mbind, result_bind. rewrite IH.
    destruct (g x); simpl; f_equal; lia.
Qed.

Lemma foldM_sum {A : Type} (cnt : A -> nat) (l : list A) :
  forall count,
    foldM (fun count x => Ok (count + cnt x)) count l
    = Ok (count + sum_list (map cnt l)).
Proof.
  induction l as [|x l IH]; intros count; cbn [foldM map sum_list].
  - rewrite Nat.add_0_r. reflexivity.
  - unfold mbind, result_bind. rewrite IH. f_equal. simpl. lia.
Qed.

Lemma filter_map_length {A B : Type} (P : B -> bool) (h : A -> B) (l : list A) :
  length (List.filter P (map h l)) = length (List.filter (fun x => P (h x)) l).
Proof.
  induction l as [|x l IH]; simpl; [reflexivity|].
  destruct (P (h x)); simpl; rewrite IH; reflexivity.
Qed.

(** Bits counted byte by byte. *)
Lemma count_by_bytes (P : nat -> bool) (n : nat) :
  forall a,
    length (List.filter P (seq (8 * a) (8 * n)))
    = sum_list (map (fun i => length (List.filter (fun j => P (8 * i + j)) (seq 0 8)))
                    (seq a n)).
Proof.
  induction n as [|n IH]; intros a; [reflexivity|].
  change (seq a (S n)) with (a :: seq (S a) n). cbn [map sum_list].
  replace (8 * S n) with (8 + 8 * n) by lia.
  rewrite seq_app, List.filter_app, length_app.
  replace (8 * a + 8) with (8 * S a) by lia. rewrite IH. f_equal.
  rewrite <- (Nat.add_0_r (8 * a)) at 1.
  rewrite <- (fmap_add_seq (8 * a) 0 8). apply filter_map_length.
Qed.

Lemma masked_list_bit (l : list byte) (i j : nat) c :
  l !! i = Some c -> j < 8 ->
  negb (masked c j =? 0)%Z = list_bit l (8 * i + j).
Proof.
  intros Hc Hj. unfold masked, list_bit.
  pose proof (Nat.div_mod_eq (8 * i + j) 8).
  pose proof (Nat.mod_upper_bound (8 * i + j) 8).
  replace ((8 * i + j) / 8) with i by lia.
  replace ((8 * i + j) mod 8) with j by lia.
  rewrite Hc. apply land_test_comm. lia.
Qed.

Lemma list_bit_beyond (l : list byte) (k : nat) :
  length l <= k / 8 -> list_bit l k = false.
Proof.
  intros Hk. unfold list_bit. rewrite lookup_ge_None_2 by exact Hk. reflexivity.
Qed.

Lemma count_common_spec (l1 l2 : list byte) (count i : nat) :
  i < length l1 -> i < length l2 ->
  count_common l1 l2 count i
  = Ok (count
        + length (List.filter
                    (fun j => list_bit l2 (8 * i + j) && negb (list_bit l1 (8 * i + j)))
                    (seq 0 8))).
Proof.
  intros H1 H2.
  destruct (lookup_lt_is_Some_2 l1 i H1) as [c1 Hc1].
  destruct (lookup_lt_is_Some_2 l2 i H2) as [c2 Hc2].
  unfold count_common.
  rewrite <- (foldM_count
                (fun j => list_bit l2 (8 * i + j) && negb (list_bit l1 (8 * i + j)))).
  apply foldM_ext_in. intros b j Hj. apply in_seq in Hj.
  unfold getitem. rewrite Hc1, Hc2. unfold mbind, result_bind.
  rewrite <- (masked_list_bit l2 i j c2 Hc2), <- (masked_list_bit l1 i j c1 Hc1) by lia.
  destruct (masked c2 j =? 0)%Z; simpl; [reflexivity|].
  destruct (masked c1 j =? 0)%Z; reflexivity.
Qed.

Lemma count_tail_spec (l1 l2 : list byte) (count i : nat) :
  length l1 <= i -> i < length l2 ->
  count_tail l2 count i
  = Ok (count
        + length (List.filter
                    (fun j => list_bit l2 (8 * i + j) && negb (list_bit l1 (8 * i + j)))
                    (seq 0 8))).
Proof.
  intros H1 H2.
  destruct (lookup_lt_is_Some_2 l2 i H2) as [c2 Hc2].
  unfold count_tail.
  rewrite <- (foldM_count
                (fun j => list_bit l2 (8 * i + j) && negb (list_bit l1 (8 * i + j)))).
  apply foldM_ext_in. intros b j Hj. apply in_seq in Hj.
  unfold getitem. rewrite Hc2. unfold mbind, result_bind.
  rewrite <- (masked_list_bit l2 i j c2 Hc2) by lia.
  rewrite (list_bit_beyond l1 (8 * i + j)).
  - rewrite andb_true_r. reflexivity.
  - pose proof (Nat.div_mod_eq (8 * i + j) 8).
    pose proof (Nat.mod_upper_bound (8 * i + j) 8). lia.
Qed.

Lemma count_missing_spec (inv1 inv2 : string) :
  atlas_inventory_count_missing inv1 inv2
  = Ok (missing_bits inv1 inv2 (8 * String.length inv2)).
Proof.
  unfold atlas_inventory_count_missing, missing_bits, inv_bit.
  rewrite <- (length_list_byte_of_string inv2).
  set (l1 := list_byte_of_string inv1). set (l2 := list_byte_of_string inv2).
  set (cnt := fun i => length (List.filter
                (fun j => list_bit l2 (8 * i + j) && negb (list_bit l1 (8 * i + j)))
                (seq 0 8))).
  assert (Hfirst : foldM (count_common l1 l2) 0 (seq 0 (Nat.min (length l1) (length l2)))
                   = Ok (sum_list (map cnt (seq 0 (Nat.min (length l1) (length l2)))))).
  { rewrite (foldM_ext_in _ (fun count i => Ok (count + cnt i))).
    - rewrite foldM_sum. reflexivity.
    - intros b i Hi. apply in_seq in Hi. apply count_common_spec; lia. }
  rewrite Hfirst. unfold mbind, result_bind.
  rewrite <- (Nat.mul_0_r 8) at 3.
  rewrite (count_by_bytes
             (fun k => list_bit l2 k && negb (list_bit l1 k)) (length l2) 0).
  fold cnt.
  destruct (length l1 <? length l2) eqn:Hlt.
  - apply Nat.ltb_lt in Hlt.
    rewrite (foldM_ext_in _ (fun count i => Ok (count + cnt i))).
    + rewrite foldM_sum. f_equal.
      replace (Nat.min (length l1) (length l2)) with (length l1) by lia.
      assert (Hsplit : seq 0 (length l2)
                       = seq 0 (length l1) ++ seq (length l1) (length l2 - length l1)).
      { rewrite <- seq_app. f_equal. lia. }
      rewrite Hsplit, map_app, sum_list_with_app. reflexivity.
    + intros b i Hi. apply in_seq in Hi. apply (count_tail_spec l1); lia.
  - apply Nat.ltb_ge in Hlt.
    replace (Nat.min (length l1) (length l2)) with (length l2) by lia.
    reflexivity.
Qed.

(** X6.  [count_missing(inv1, inv2)] never raises and is the number of
    bit positions of [inv2] at which [inv2] has the bit set and [inv1],
    read as zero beyond its end, has not. *)
Theorem count_missing_counts_bits (inv1 inv2 : string) :
  atlas_inventory_count_missing inv1 inv2
  = Ok (missing_bits inv1 inv2 (8 * String.length inv2)).
Proof. apply count_missing_spec. Qed.

(** X7.  An inventory misses nothing of itself, and nothing of the
    empty inventory. *)
Theorem count_missing_self (inv : string) :
  atlas_inventory_count_missing inv inv = Ok 0
  /\ atlas_inventory_count_missing inv "" = Ok 0.
Proof.
  rewrite !count_missing_spec. unfold missing_bits. split; [|reflexivity].
  f_equal. induction (seq 0 (8 * String.length inv)) as [|k l IH]; [reflexivity|].
  simpl. rewrite andb_negb_r. exact IH.
Qed.

End CountMissing.

(** ** The keys of the catalog *)

Section CatalogKeys.
Import Inventory Catalog.

Lemma fold_pos_max_bounds (l : list positive) :
  forall a, (a <= fold_left Pos.max l a)%positive
            /\ Forall (fun x => (x <= fold_left Pos.max l a)%positive) l.
Proof.
  induction l as [|x l IH]; intros a; simpl.
  - split; [lia|constructor].
  - destruct (IH (Pos.max a x)) as [Ha Hl]. split; [lia|].
    constructor; [lia|exact Hl].
Qed.

Lemma sql_max_bounds (d : atlasdb) :
  match sql_max_inv_index d with
  | None => zonefiles d = []
  | Some m => Forall (fun r => (inv_index r <= m)%positive) (zonefiles d)
  end.
Proof.
  unfold sql_max_inv_index. destruct (zonefiles d) as [|r rs]; [reflexivity|].
  destruct (fold_pos_max_bounds (map inv_index rs) (inv_index r)) as [Hr Hrs].
  constructor; [exact Hr|]. rewrite Forall_fmap in Hrs. exact Hrs.
Qed.

(** The key of the next row exceeds the counter and every key in the
    table. *)
Lemma next_key_is_fresh (d : atlasdb) :
  (zonefiles_seq d < Npos (sql_next_inv_index d))%N
  /\ Forall (fun r => (inv_index r < sql_next_inv_index d)%positive) (zonefiles d).
Proof.
  unfold sql_next_inv_index. pose proof (sql_max_bounds d) as Hmax.
  destruct (sql_max_inv_index d) as [m|].
  - split; [lia|]. eapply Forall_impl; [exact Hmax|]. intros r Hr. simpl in Hr. lia.
  - rewrite Hmax. split; [lia|constructor].
Qed.

Lemma keys_ascend_insert zfhash pres tried height d :
  keys_ascend d -> keys_ascend (sql_insert_zonefile zfhash pres tried height d).
Proof.
  intros [Hsorted Hseq]. destruct (next_key_is_fresh d) as [Hgt Hfresh].
  unfold keys_ascend, sql_insert_zonefile. cbn [zonefiles zonefiles_seq]. split.
  - rewrite map_app. apply StronglySorted_app_2; [|exact Hsorted|repeat constructor].
    intros x y Hx Hy. apply list_elem_of_fmap in Hx as (r & -> & Hr).
    apply list_elem_of_singleton in Hy as ->. simpl.
    rewrite Forall_forall in Hfresh. apply Hfresh, Hr.
  - apply Forall_app. split.
    + eapply Forall_impl; [exact Hseq|]. intros r Hr. simpl in Hr. lia.
    + repeat constructor. simpl. lia.
Qed.

(** What a call of [atlasdb_add_zonefile_info] that returns has done. *)
Lemma add_returned zfhash pres height st st' :
  atlasdb_add_zonefile_info zfhash pres height st = Ok st' ->
  sql_integer height = true
  /\ exists inv,
       atlas_inventory_flip_zonefile_bits
         (local_inv st)
         (atlasdb_get_zonefile_bits
            zfhash (sql_insert_zonefile zfhash pres false height (db st)))
         pres = Ok inv
       /\ st' = {| db := sql_insert_zonefile zfhash pres false height (db st);
                   ZONEFILE_INV := Some inv;
                   NUM_ZONEFILES :=
                     atlasdb_zonefile_inv_length
                       (sql_insert_zonefile zfhash pres false height (db st)) |}.
Proof.
  unfold atlasdb_add_zonefile_info. fold (local_inv st).
  destruct (sql_integer height); cbn [negb]; [|discriminate].
  destruct (atlas_inventory_flip_zonefile_bits _ _ _) as [inv|e]; [|discriminate].
  intros [= <-]. split; [reflexivity|]. by exists inv.
Qed.

Lemma keys_ascend_run_op st st' op :
  keys_ascend (db st) -> run_op st op = Ok st' -> keys_ascend (db st').
Proof.
  intros Hkeys. destruct op as [h p b|h p|b|]; cbn [run_op].
  - intros Hadd. apply add_returned in Hadd as (_ & inv & _ & ->).
    apply keys_ascend_insert, Hkeys.
  - unfold atlasdb_set_zonefile_present.
    destruct (atlas_inventory_test_zonefile_bits _ _); [|discriminate].
    unfold mbind, result_bind.
    destruct (atlas_inventory_flip_zonefile_bits _ _ _); [|discriminate].
    intros [= <-]. cbn [db fst]. destruct Hkeys as [Hsorted Hseq].
    unfold keys_ascend, sql_update_present. cbn [zonefiles zonefiles_seq]. split.
    + rewrite map_map.
      erewrite map_ext; [exact Hsorted|]. intros r. destruct (has_hash h r); reflexivity.
    + rewrite Forall_fmap. eapply Forall_impl; [exact Hseq|].
      intros r Hr. simpl. destruct (has_hash h r); exact Hr.
  - destruct (sql_integer b); cbn [negb]; [|discriminate].
    intros [= <-]. destruct Hkeys as [Hsorted Hseq].
    unfold keys_ascend, atlasdb_zonefile_block_reset. cbn [db zonefiles zonefiles_seq].
    split.
    + clear Hseq. induction (zonefiles (db st)) as [|r rs IH]; [constructor|].
      cbn [map] in Hsorted. apply StronglySorted_inv in Hsorted as [Hrs Hr].
      cbn [List.filter]. destruct (negb (block_height r =? b)%Z); [|by apply IH].
      cbn [map]. constructor; [by apply IH|].
      rewrite List.Forall_forall in *. intros k Hk. apply Hr.
      apply in_map_iff in Hk as (r' & <- & Hr'). apply List.filter_In in Hr' as [Hr' _].
      apply in_map, Hr'.
    + rewrite Forall_forall in *. intros r Hr. apply Hseq.
      apply list_elem_of_In in Hr. apply List.filter_In in Hr as [Hr _].
      by apply list_elem_of_In.
  - unfold atlasdb_cache_zonefile_info.
    destruct (atlas_make_zonefile_inventory _ _ _); [|discriminate].
    intros [= <-]. exact Hkeys.
Qed.

Lemma foldM_invariant {S A : Type} (P : S -> Prop) (f : S -> A -> result S) (l : list A) :
  (forall s s' x, P s -> f s x = Ok s' -> P s') ->
  forall s s', P s -> foldM f s l = Ok s' -> P s'.
Proof.
  intros Hstep. induction l as [|x l IH]; intros s s' Hs; cbn [foldM].
  - intros [= <-]. exact Hs.
  - destruct (f s x) as [s1|e] eqn:Hf; [|discriminate].
    unfold mbind, result_bind. apply IH. eapply Hstep; eassumption.
Qed.

Lemma keys_ascend_reachable ops st : run_ops ops = Ok st -> keys_ascend (db st).
Proof.
  unfold run_ops.
  apply (foldM_invariant (fun st => keys_ascend (db st)) run_op ops).
  - intros s s' op. apply keys_ascend_run_op.
  - split; constructor.
Qed.

(** X8.  In every state reached from the empty database by inserts,
    presence updates, block resets and rebuilds, the keys of the rows
    ascend strictly in table order (so no two rows share a key) and
    none exceeds the counter that hands out the next key. *)
Theorem catalog_keys_ascend (ops : list catalog_op) (st : atlas_state) :
  run_ops ops = Ok st -> keys_ascend (db st).
Proof. apply keys_ascend_reachable. Qed.

Lemma catalog_keys_ascend_witness : keys_ascend (db rebuilt_state).
Proof.
  apply (catalog_keys_ascend reset_then_rebuild rebuilt_state).
  vm_compute. reflexivity.
Defined.

(** X9.  A key is never handed out twice: after a block reset, the row
    inserted next gets a key above that of every row the table held
    before the reset, the deleted ones included. *)
Theorem reinserted_row_gets_fresh_key
  (ops : list catalog_op) (st st' : atlas_state)
  (drop_block : Z) (zfhash : string) (pres : bool) (height : Z) :
  run_ops ops = Ok st ->
  atlasdb_add_zonefile_info zfhash pres height
    (atlasdb_zonefile_block_reset drop_block st) = Ok st' ->
  exists r,
    zonefiles (db st')
    = List.filter (fun r => negb (block_height r =? drop_block)%Z) (zonefiles (db st))
      ++ [r]
    /\ zonefile_hash r = zfhash /\ present r = pres /\ block_height r = height
    /\ Forall (fun r0 => (inv_index r0 < inv_index r)%positive) (zonefiles (db st)).
Proof.
  intros Hreach Hadd. destruct (keys_ascend_reachable ops st Hreach) as [_ Hseq].
  apply add_returned in Hadd as (_ & inv & _ & ->). cbn [db].
  set (d := db (atlasdb_zonefile_block_reset drop_block st)).
  eexists. split; [reflexivity|]. repeat split.
  cbn [inv_index]. destruct (next_key_is_fresh d) as [Hgt _].
  eapply Forall_impl; [exact Hseq|]. intros r0 Hr0. simpl in Hr0.
  subst d. cbn [db atlasdb_zonefile_block_reset zonefiles_seq] in Hgt |- *. lia.
Qed.

Lemma reinserted_row_gets_fresh_key_witness :
  exists r,
    zonefiles (db rebuilt_state)
    = List.filter (fun r => negb (block_height r =? 100)%Z)
        [ {| inv_index := 1; zonefile_hash := "a"; present := true;
             tried_storage := false; block_height := 100 |} ]
      ++ [r]
    /\ (1 < inv_index r)%positive.
Proof.
  destruct (reinserted_row_gets_fresh_key
              [OpAdd "a" true 100]
              {| db := {| zonefiles :=
                            [ {| inv_index := 1; zonefile_hash := "a"; present := true;
                                 tried_storage := false; block_height := 100 |} ];
                          zonefiles_seq := 1 |};
                 ZONEFILE_INV := Some (string_of_list_byte [x80]);
                 NUM_ZONEFILES := 2 |}
              {| db := db rebuilt_state;
                 ZONEFILE_INV := Some (string_of_list_byte [xc0]);
                 NUM_ZONEFILES := 3 |}
              100 "b" true 100)
    as (r & Hrows & _ & _ & _ & Hfresh).
  - vm_compute. reflexivity.
  - vm_compute. reflexivity.
  - exists r. split; [exact Hrows|]. inversion Hfresh. assumption.
Defined.

Lemma sorted_keys_inj (l : list zonefile_row) (r r' : zonefile_row) :
  StronglySorted Pos.lt (map inv_index l) ->
  r ∈ l -> r' ∈ l -> inv_index r = inv_index r' -> r = r'.
Proof.
  induction l as [|x l IH]; cbn [map]; intros Hsorted Hr Hr' Heq.
  - by apply elem_of_nil in Hr.
  - apply StronglySorted_inv in Hsorted as [Hl Hx].
    rewrite List.Forall_forall in Hx.
    apply elem_of_cons in Hr as [->|Hr]; apply elem_of_cons in Hr' as [->|Hr'].
    + reflexivity.
    + assert (inv_index x < inv_index r')%positive; [|lia].
      apply Hx, in_map. by apply list_elem_of_In.
    + assert (inv_index x < inv_index r)%positive; [|lia].
      apply Hx, in_map. by apply list_elem_of_In.
    + by apply IH.
Qed.

Lemma bits_of_distinct_hashes (d : atlasdb) (h h' : string) (j : nat) :
  keys_ascend d -> h' <> h ->
  j ∈ atlasdb_get_zonefile_bits h' d -> j ∉ atlasdb_get_zonefile_bits h d.
Proof.
  intros [Hsorted _] Hne Hj' Hj. unfold atlasdb_get_zonefile_bits, rows_of_hash in *.
  apply list_elem_of_fmap in Hj' as (r' & -> & Hr').
  apply list_elem_of_fmap in Hj as (r & Heq & Hr).
  apply list_elem_of_In, List.filter_In in Hr' as [Hr' Hh'].
  apply list_elem_of_In, List.filter_In in Hr as [Hr Hh].
  apply list_elem_of_In in Hr, Hr'.
  unfold has_hash in Hh, Hh'. apply bool_decide_eq_true in Hh, Hh'.
  assert (r' = r) as ->; [|congruence].
  apply (sorted_keys_inj (zonefiles d)); [exact Hsorted|exact Hr'|exact Hr|lia].
Qed.

End CatalogKeys.

(** ** What the catalog operations do to the table and to the bitmap *)

Section CatalogEffects.
Import Inventory Catalog.

Lemma rows_of_hash_insert zfhash pres tried height d :
  rows_of_hash zfhash (sql_insert_zonefile zfhash pres tried height d)
  = rows_of_hash zfhash d
    ++ [ {| inv_index := sql_next_inv_index d; zonefile_hash := zfhash;
            present := pres; tried_storage := tried; block_height := height |} ].
Proof.
  unfold rows_of_hash, sql_insert_zonefile. cbn [zonefiles].
  rewrite List.filter_app. cbn [List.filter]. unfold has_hash at 2. cbn [zonefile_hash].
  rewrite bool_decide_eq_true_2; reflexivity.
Qed.

Lemma add_effect (st st' : atlas_state) (zfhash : string) (pres : bool) (height : Z) :
  atlasdb_add_zonefile_info zfhash pres height st = Ok st' ->
  db st' = sql_insert_zonefile zfhash pres false height (db st)
  /\ (forall j,
        inv_bit (local_inv st') j
        = if bool_decide (j ∈ atlasdb_get_zonefile_bits zfhash (db st'))
          then pres else inv_bit (local_inv st) j)
  /\ NUM_ZONEFILES st' = atlasdb_zonefile_inv_length (db st').
Proof.
  intros Hadd. apply add_returned in Hadd as (_ & inv & Hflip & ->).
  cbn [db NUM_ZONEFILES local_inv ZONEFILE_INV].
  set (d := sql_insert_zonefile zfhash pres false height (db st)) in *.
  assert (Hbits : atlasdb_get_zonefile_bits zfhash d <> []).
  { apply get_bits_nonempty. subst d. rewrite rows_of_hash_insert, length_app.
    simpl. lia. }
  destruct (flip_spec (local_inv st) _ pres Hbits) as (inv' & Hflip' & Hinv').
  assert (inv' = inv) as -> by congruence.
  split; [reflexivity|]. split; [exact Hinv'|reflexivity].
Qed.

(** X10.  When [atlasdb_add_zonefile_info] returns, the block height
    was one that SQLite can store (a signed 64-bit integer; for any
    other the process is aborted).  The call has appended one row,
    whose key is the next key and whose [tried_storage] is unset, and
    has written the new row's presence into the bit of every row of
    that hash, the rows inserted earlier included; all other bits of
    the cached bitmap keep their value. *)
Theorem add_appends_row_and_writes_bits
  (st st' : atlas_state) (zfhash : string) (pres : bool) (height : Z) :
  atlasdb_add_zonefile_info zfhash pres height st = Ok st' ->
  (- 2 ^ 63 <= height < 2 ^ 63)%Z
  /\ zonefiles (db st')
     = zonefiles (db st)
       ++ [ {| inv_index := sql_next_inv_index (db st); zonefile_hash := zfhash;
               present := pres; tried_storage := false; block_height := height |} ]
  /\ forall j,
       inv_bit (local_inv st') j
       = if bool_decide
              (j ∈ atlasdb_get_zonefile_bits zfhash (db st)
                   ++ [Pos.to_nat (sql_next_inv_index (db st)) - 1])
         then pres else inv_bit (local_inv st) j.
Proof.
  intros Hadd. pose proof (add_returned _ _ _ _ _ Hadd) as [Hrange _].
  destruct (add_effect _ _ _ _ _ Hadd) as (Hdb & Hinv & _).
  split; [|split].
  - unfold sql_integer in Hrange. apply andb_prop in Hrange as [Hlo Hhi].
    apply Z.leb_le in Hlo. apply Z.ltb_lt in Hhi. split; assumption.
  - rewrite Hdb. reflexivity.
  - intros j. rewrite Hinv, Hdb. unfold atlasdb_get_zonefile_bits.
    rewrite rows_of_hash_insert, map_app. reflexivity.
Qed.

Lemma add_appends_row_and_writes_bits_witness :
  (- 2 ^ 63 <= 1 < 2 ^ 63)%Z
  /\ zonefiles (db state_h)
     = zonefiles (db atlas_state_init)
       ++ [ {| inv_index := sql_next_inv_index (db atlas_state_init);
               zonefile_hash := "h"; present := true; tried_storage := false;
               block_height := 1 |} ]
  /\ forall j,
       inv_bit (local_inv state_h) j
       = if bool_decide
              (j ∈ atlasdb_get_zonefile_bits "h" (db atlas_state_init)
                   ++ [Pos.to_nat (sql_next_inv_index (db atlas_state_init)) - 1])
         then true else inv_bit (local_inv atlas_state_init) j.
Proof.
  apply (add_appends_row_and_writes_bits atlas_state_init state_h "h" true 1).
  vm_compute. reflexivity.
Defined.

Lemma forallb_all {A : Type} (f : A -> bool) (b : bool) (l : list A) :
  l <> [] -> (forall x, x ∈ l -> f x = b) -> forallb f l = b.
Proof.
  induction l as [|x l IH]; [congruence|]. intros _ Hall. cbn [forallb].
  rewrite (Hall x) by apply list_elem_of_here.
  destruct l as [|y l]; [cbn; apply andb_true_r|].
  rewrite IH; [by destruct b|discriminate|].
  intros z Hz. apply Hall. by apply list_elem_of_further.
Qed.


Lemma forallb_agree {A : Type} (f g : A -> bool) (l : list A) :
  (forall x, x ∈ l -> f x = g x) -> forallb f l = forallb g l.
Proof.
  induction l as [|x l IH]; [reflexivity|]. intros Hall. cbn [forallb].
  rewrite (Hall x) by apply list_elem_of_here. f_equal.
  apply IH. intros z Hz. apply Hall. by apply list_elem_of_further.
Qed.





Lemma foldM_invariant_on {S A : Type} (P : S -> Prop) (f : S -> A -> result S)
  (l : list A) :
  (forall s s' x, x ∈ l -> P s -> f s x = Ok s' -> P s') ->
  forall s s', P s -> foldM f s l = Ok s' -> P s'.
Proof.
  induction l as [|x l IH]; intros Hstep s s' Hs; cbn [foldM].
  - intros [= <-]. exact Hs.
  - destruct (f s x) as [s1|e] eqn:Hf; [|discriminate].
    unfold mbind, result_bind. apply IH.
    + intros t t' y Hy. apply Hstep. by apply list_elem_of_further.
    + eapply Hstep; [apply list_elem_of_here|exact Hs|exact Hf].
Qed.

Lemma fold_pos_max_le (l : list positive) (b : positive) :
  forall a, (a <= b)%positive -> Forall (fun x => (x <= b)%positive) l ->
            (fold_left Pos.max l a <= b)%positive.
Proof.
  induction l as [|x l IH]; intros a Ha Hl; simpl; [exact Ha|].
  apply Forall_cons in Hl as [Hx Hl]. apply IH; [lia|exact Hl].
Qed.

Lemma dense_keys_bounded (d : atlasdb) :
  keys_dense d ->
  Forall (fun r => Pos.to_nat (inv_index r) <= length (zonefiles d)) (zonefiles d).
Proof.
  intros [Hkeys _]. apply Forall_lookup. intros j r Hr.
  rewrite (Hkeys j r Hr). apply lookup_lt_Some in Hr. lia.
Qed.

Lemma dense_next (d : atlasdb) :
  keys_dense d -> Pos.to_nat (sql_next_inv_index d) = S (length (zonefiles d)).
Proof.
  intros Hdense. pose proof (dense_keys_bounded d Hdense) as Hle.
  destruct Hdense as [_ Hseq].
  assert (Hmax : match sql_max_inv_index d with
                 | Some m => (Pos.to_nat m <= length (zonefiles d))
                 | None => True
                 end).
  { unfold sql_max_inv_index. destruct (zonefiles d) as [|r rs] eqn:Hrows; [exact I|].
    apply Forall_cons in Hle as [Hr Hrs].
    set (b := Pos.of_nat (length (r :: rs))).
    assert (Hb : Pos.to_nat b = length (r :: rs)) by (subst b; simpl; lia).
    rewrite <- Hb. apply Pos2Nat.inj_le, fold_pos_max_le.
    - apply Pos2Nat.inj_le. lia.
    - apply Forall_fmap. eapply Forall_impl; [exact Hrs|].
      intros x Hx. simpl in *. apply Pos2Nat.inj_le. lia. }
  unfold sql_next_inv_index. rewrite Hseq.
  assert (Hpos : forall n, Pos.to_nat (N.succ_pos n) = S (N.to_nat n)).
  { intros n. pose proof (N.succ_pos_spec n). lia. }
  rewrite Hpos. destruct (sql_max_inv_index d) as [m|]; lia.
Qed.

Lemma keys_dense_insert zfhash pres tried height d :
  keys_dense d -> keys_dense (sql_insert_zonefile zfhash pres tried height d).
Proof.
  intros Hdense. pose proof (dense_next d Hdense) as Hnext.
  destruct Hdense as [Hkeys Hseq].
  unfold keys_dense, sql_insert_zonefile. cbn [zonefiles zonefiles_seq]. split.
  - intros j r Hr. apply lookup_app_Some in Hr as [Hr|[Hge Hr]].
    + apply Hkeys, Hr.
    + apply list_lookup_singleton_Some in Hr as [Hj <-]. cbn [inv_index]. lia.
  - rewrite length_app. simpl. lia.
Qed.

Lemma keys_dense_run_op st st' op :
  is_block_reset op = false ->
  keys_dense (db st) -> run_op st op = Ok st' -> keys_dense (db st').
Proof.
  intros Hop Hdense. destruct op as [h p b|h p|b|]; cbn [run_op]; try discriminate.
  - intros Hadd. destruct (add_effect _ _ _ _ _ Hadd) as (Hdb & _).
    rewrite Hdb. apply keys_dense_insert, Hdense.
  - unfold atlasdb_set_zonefile_present.
    destruct (atlas_inventory_test_zonefile_bits _ _); [|discriminate].
    unfold mbind, result_bind.
    destruct (atlas_inventory_flip_zonefile_bits _ _ _); [|discriminate].
    intros [= <-]. cbn [db fst]. destruct Hdense as [Hkeys Hseq].
    unfold keys_dense, sql_update_present. cbn [zonefiles zonefiles_seq]. split.
    + intros j r Hr. rewrite list_lookup_fmap in Hr.
      destruct (zonefiles (db st) !! j) as [r0|] eqn:Hr0; [|discriminate].
      injection Hr as <-. rewrite <- (Hkeys j r0 Hr0).
      destruct (has_hash h r0); reflexivity.
    + rewrite length_map. exact Hseq.
  - destruct (cache_by_position st) as (st1 & inv & -> & Hdb & _).
    intros [= <-]. cbn [fst]. rewrite Hdb. exact Hdense.
Qed.

Lemma keys_dense_reachable ops st :
  forallb (fun op => negb (is_block_reset op)) ops = true ->
  run_ops ops = Ok st -> keys_dense (db st).
Proof.
  intros Hops. unfold run_ops.
  apply (foldM_invariant_on (fun st => keys_dense (db st)) run_op ops).
  - intros s s' op Hop. apply keys_dense_run_op.
    rewrite forallb_forall in Hops. apply list_elem_of_In, Hops in Hop.
    by apply negb_true_iff in Hop.
  - split; [|reflexivity]. intros j r Hr. cbn in Hr. by destruct j.
Qed.

(** X12.  As long as no block was reset, the rebuild of the cached
    bitmap is aligned with the keys: the bit that
    [atlasdb_get_zonefile_bits] names for a row holds that row's
    [present] column, and every bit past the table is clear. *)
Theorem rebuild_without_reset_is_aligned (ops : list catalog_op) (st : atlas_state) :
  forallb (fun op => negb (is_block_reset op)) ops = true ->
  run_ops ops = Ok st ->
  exists st' inv,
    atlasdb_cache_zonefile_info st = Ok (st', inv)
    /\ (forall r, r ∈ zonefiles (db st) ->
                  inv_bit inv (Pos.to_nat (inv_index r) - 1) = present r)
    /\ (forall j, length (zonefiles (db st)) <= j -> inv_bit inv j = false).
Proof.
  intros Hops Hreach. pose proof (keys_dense_reachable ops st Hops Hreach) as [Hkeys _].
  destruct (cache_by_position st) as (st' & inv & Hcache & _ & _ & Hbits).
  exists st', inv. split; [exact Hcache|]. split.
  - intros r Hr. apply list_elem_of_lookup in Hr as [j Hj].
    rewrite (Hkeys j r Hj), Hbits. replace (S j - 1) with j by lia.
    assert (Hlen : j < atlasdb_zonefile_inv_length (db st)).
    { pose proof (sql_max_bounds (db st)) as Hmax. unfold atlasdb_zonefile_inv_length.
      destruct (sql_max_inv_index (db st)) as [m|].
      - rewrite Forall_lookup in Hmax. specialize (Hmax j r Hj).
        specialize (Hkeys j r Hj). simpl in Hmax. lia.
      - rewrite Hmax in Hj. by rewrite lookup_nil in Hj. }
    rewrite lookup_take_lt by exact Hlen. rewrite Hj. reflexivity.
  - intros j Hj. rewrite Hbits.
    destruct (take _ (zonefiles (db st)) !! j) as [r|] eqn:Hr; [|reflexivity].
    apply lookup_lt_Some in Hr. rewrite length_take in Hr. lia.
Qed.

Lemma rebuild_without_reset_is_aligned_witness :
  exists st' inv,
    atlasdb_cache_zonefile_info state_ab = Ok (st', inv)
    /\ (forall r, r ∈ zonefiles (db state_ab) ->
                  inv_bit inv (Pos.to_nat (inv_index r) - 1) = present r)
    /\ (forall j, length (zonefiles (db state_ab)) <= j -> inv_bit inv j = false).
Proof.
  apply (rebuild_without_reset_is_aligned [OpAdd "a" true 1; OpAdd "b" false 1]).
  - reflexivity.
  - vm_compute. reflexivity.
Defined.


Lemma add_row_entry (st st' : atlas_state) (zfhash : string) (pres : bool)
  (height : Z) :
  atlasdb_add_zonefile_info zfhash pres height st = Ok st' ->
  map row_entry (zonefiles (db st'))
  = map row_entry (zonefiles (db st)) ++ [(zfhash, pres, height)].
Proof.
  intros Hadd. destruct (add_effect _ _ _ _ _ Hadd) as (Hdb & _).
  rewrite Hdb. unfold sql_insert_zonefile. cbn [zonefiles]. rewrite map_app.
  reflexivity.
Qed.

(** X14.  When [atlasdb_queue_zonefiles] returns, it has kept the rows
    that were there and appended one row for every hash of every block
    from [start_block] to the tip, in block order and then in the
    order of the block's hash list, each with the presence the blob
    store reports.  A hash listed twice has got two rows. *)
Theorem queue_zonefiles_appends_in_order
  (lastblock : Z) (get_value_hashes_at : Z -> list string)
  (is_zonefile_cached : string -> bool) (start_block : Z) (st st' : atlas_state) :
  atlasdb_queue_zonefiles lastblock get_value_hashes_at is_zonefile_cached
                          start_block st = Ok st' ->
  map row_entry (zonefiles (db st'))
  = map row_entry (zonefiles (db st))
    ++ queued_entries lastblock get_value_hashes_at is_zonefile_cached start_block.
Proof.
  unfold atlasdb_queue_zonefiles, queued_entries.
  generalize (seqZ start_block (lastblock + 1 - start_block)). intros blocks.
  revert st. induction blocks as [|b blocks IH]; intros st; cbn [foldM flat_map].
  - intros [= <-]. by rewrite app_nil_r.
  - assert (Hinner : forall hashes st0 st1,
               foldM (fun st zfhash =>
                        atlasdb_add_zonefile_info
                          zfhash (is_zonefile_cached zfhash) b st) st0 hashes = Ok st1 ->
               map row_entry (zonefiles (db st1))
               = map row_entry (zonefiles (db st0))
                 ++ map (fun zfhash => (zfhash, is_zonefile_cached zfhash, b)) hashes).
    { induction hashes as [|h hashes IHh]; intros st0 st1; cbn [foldM map].
      - intros [= <-]. by rewrite app_nil_r.
      - destruct (atlasdb_add_zonefile_info h (is_zonefile_cached h) b st0)
          as [st2|e] eqn:Hadd; [|discriminate].
        unfold mbind, result_bind. intros Hrest.
        rewrite (IHh _ _ Hrest), (add_row_entry _ _ _ _ _ Hadd), <- app_assoc.
        reflexivity. }
    destruct (foldM _ st (get_value_hashes_at b)) as [st1|e] eqn:Hblock;
      [|discriminate].
    unfold mbind, result_bind. intros Hrest.
    rewrite (IH _ Hrest), (Hinner _ _ _ Hblock), <- app_assoc. reflexivity.
Qed.

Lemma queue_zonefiles_appends_in_order_witness :
  exists st',
    atlasdb_queue_zonefiles
      2 (fun b => if (b =? 1)%Z then ["a"] else ["b"; "a"])
      (fun zfhash => bool_decide (zfhash = "a")) 1 atlas_state_init = Ok st'
    /\ map row_entry (zonefiles (db st'))
       = [("a", true, 1%Z); ("b", false, 2%Z); ("a", true, 2%Z)].
Proof.
  destruct (atlasdb_queue_zonefiles
              2 (fun b => if (b =? 1)%Z then ["a"] else ["b"; "a"])
              (fun zfhash => bool_decide (zfhash = "a")) 1 atlas_state_init)
    as [st'|e] eqn:Hqueue; [|vm_compute in Hqueue; discriminate].
  exists st'. split; [reflexivity|].
  rewrite (queue_zonefiles_appends_in_order _ _ _ _ _ _ Hqueue).
  vm_compute. reflexivity.
Defined.

End CatalogEffects.

(** ** Queries on the catalog *)

Section CatalogQueriesFacts.
Import Inventory Catalog CatalogQueries.

Lemma get_zonefile_fold (rows : list zonefile_row) :
  forall acc,
    fold_left
      (fun ret zfinfo =>
         {| zi_zonefile_hash := zi_zonefile_hash ret;
            zi_indexes := zi_indexes ret ++ [inv_index zfinfo];
            zi_block_heights := zi_block_heights ret ++ [block_height zfinfo];
            zi_present := zi_present ret || present zfinfo;
            zi_tried_storage := zi_tried_storage ret || tried_storage zfinfo |})
      rows acc
    = {| zi_zonefile_hash := zi_zonefile_hash acc;
         zi_indexes := zi_indexes acc ++ map inv_index rows;
         zi_block_heights := zi_block_heights acc ++ map block_height rows;
         zi_present := zi_present acc || existsb present rows;
         zi_tried_storage := zi_tried_storage acc || existsb tried_storage rows |}.
Proof.
  induction rows as [|r rows IH]; intros acc; cbn [fold_left map existsb].
  - rewrite !app_nil_r, !orb_false_r. by destruct acc.
  - rewrite IH. cbn. rewrite <- !app_assoc, !orb_assoc. reflexivity.
Qed.

(** X15.  The summary of [atlasdb_get_zonefile] lists the keys and the
    block heights of the hash's rows in table order, one entry per row;
    its [present] flag is set when some row of the hash is present, and
    its keys are, each less one, the bits that
    [atlasdb_get_zonefile_bits] names.  For a hash without rows the
    lists are empty and both flags are unset. *)
Theorem get_zonefile_summary (zfhash : string) (d : atlasdb) :
  let ret := atlasdb_get_zonefile zfhash d in
  zi_zonefile_hash ret = zfhash
  /\ zi_indexes ret = map inv_index (rows_of_hash zfhash d)
  /\ zi_block_heights ret = map block_height (rows_of_hash zfhash d)
  /\ zi_present ret = any_present zfhash d
  /\ zi_tried_storage ret = existsb tried_storage (rows_of_hash zfhash d)
  /\ atlasdb_get_zonefile_bits zfhash d
     = map (fun k => Pos.to_nat k - 1) (zi_indexes ret)
  /\ (rows_of_hash zfhash d = [] ->
      ret = {| zi_zonefile_hash := zfhash; zi_indexes := []; zi_block_heights := [];
               zi_present := false; zi_tried_storage := false |}).
Proof.
  cbv zeta. unfold atlasdb_get_zonefile. rewrite get_zonefile_fold.
  cbn [zi_zonefile_hash zi_indexes zi_block_heights zi_present zi_tried_storage
       app orb].
  do 5 (split; [reflexivity|]). split.
  - unfold atlasdb_get_zonefile_bits. rewrite map_map. reflexivity.
  - intros ->. reflexivity.
Qed.

Lemma substring_empty (n m : nat) : String.substring n m "" = "".
Proof. destruct n, m; reflexivity. Qed.

Lemma substring_zero (s : string) : forall n, String.substring n 0 s = "".
Proof.
  induction s as [|c s IH]; intros n; [apply substring_empty|].
  destruct n; [reflexivity|]. cbn [String.substring]. apply IH.
Qed.

Lemma substring_min (s : string) :
  forall n m,
    String.substring n (Nat.min m (String.length s - n)) s = String.substring n m s.
Proof.
  induction s as [|c s IH]; intros n m.
  - rewrite !substring_empty. reflexivity.
  - destruct n as [|n].
    + destruct m as [|m]; [reflexivity|].
      cbn [String.length Nat.sub Nat.min String.substring].
      f_equal. rewrite <- (IH 0 m), Nat.sub_0_r. reflexivity.
    + cbn [String.length Nat.sub String.substring]. apply IH.
Qed.

Lemma substring_length (s : string) :
  forall n m,
    String.length (String.substring n m s) = Nat.min m (String.length s - n).
Proof.
  induction s as [|c s IH]; intros n m.
  - rewrite substring_empty. simpl. lia.
  - destruct n as [|n].
    + destruct m as [|m]; [reflexivity|].
      cbn [String.length Nat.sub Nat.min String.substring].
      rewrite IH, Nat.sub_0_r. reflexivity.
    + cbn [String.length Nat.sub String.substring]. apply IH.
Qed.

Lemma substring_all (s : string) : String.substring 0 (String.length s) s = s.
Proof. induction s as [|c s IH]; [reflexivity|]. simpl. by rewrite IH. Qed.

(** X16.  With a loaded inventory and non-negative arguments,
    [atlas_get_zonefile_inventory] returns the bytes of the cached
    vector from [offset] on, at most [length] of them and none past the
    end of the vector: an offset at or past the end gives the empty
    string, and a window that overruns the vector is cut off.  Without
    arguments it returns the whole vector. *)
Theorem inventory_slice_is_clamped
  (st : atlas_state) (inv : string) (offset length : Z) :
  ZONEFILE_INV st = Some inv ->
  (0 <= offset)%Z -> (0 <= length)%Z ->
  atlas_get_zonefile_inventory (Some offset) (Some length) st
  = Some (String.substring (Z.to_nat offset) (Z.to_nat length) inv)
  /\ String.length (String.substring (Z.to_nat offset) (Z.to_nat length) inv)
     = Nat.min (Z.to_nat length) (String.length inv - Z.to_nat offset)
  /\ atlas_get_zonefile_inventory (Some offset) None st
     = Some (String.substring (Z.to_nat offset)
                              (String.length inv - Z.to_nat offset) inv)
  /\ atlas_get_zonefile_inventory None None st = Some inv.
Proof.
  intros Hinv Hoff Hlen.
  assert (Hslice : forall len : Z,
             (0 <= len)%Z ->
             (offset < Z.of_nat (String.length inv))%Z ->
             py_slice inv offset
               (offset + (if (Z.of_nat (String.length inv) <? offset + len)%Z
                          then Z.of_nat (String.length inv) - offset else len))%Z
             = String.substring (Z.to_nat offset) (Z.to_nat len) inv).
  { intros len Hlen0 Hlt. unfold py_slice, slice_bound.
    set (L := Z.of_nat (String.length inv)) in *.
    rewrite <- (substring_min inv (Z.to_nat offset) (Z.to_nat len)).
    destruct (L <? offset + len)%Z eqn:Hover.
    - apply Z.ltb_lt in Hover.
      replace (offset <? 0)%Z with false by (symmetry; apply Z.ltb_ge; lia).
      replace (offset + (L - offset) <? 0)%Z with false
        by (symmetry; apply Z.ltb_ge; lia).
      replace (Z.min offset L <? Z.min (offset + (L - offset)) L)%Z with true
        by (symmetry; apply Z.ltb_lt; lia).
      f_equal; lia.
    - apply Z.ltb_ge in Hover.
      replace (offset <? 0)%Z with false by (symmetry; apply Z.ltb_ge; lia).
      replace (offset + len <? 0)%Z with false by (symmetry; apply Z.ltb_ge; lia).
      destruct (Z.min offset L <? Z.min (offset + len) L)%Z eqn:Hlo.
      + f_equal; lia.
      + apply Z.ltb_ge in Hlo.
        replace (Nat.min (Z.to_nat len) (String.length inv - Z.to_nat offset))
          with 0 by lia.
        by rewrite substring_zero. }
  assert (Hpast : forall m, (Z.of_nat (String.length inv) <= offset)%Z ->
                            String.substring (Z.to_nat offset) m inv = "").
  { intros m Hge. rewrite <- substring_min.
    replace (Nat.min m (String.length inv - Z.to_nat offset)) with 0 by lia.
    apply substring_zero. }
  unfold atlas_get_zonefile_inventory. rewrite Hinv. cbv zeta.
  split; [|split; [|split]].
  - destruct (Z.of_nat (String.length inv) <=? offset)%Z eqn:Hge.
    + apply Z.leb_le in Hge. by rewrite Hpast.
    + apply Z.leb_gt in Hge. by rewrite Hslice.
  - apply substring_length.
  - destruct (Z.of_nat (String.length inv) <=? offset)%Z eqn:Hge.
    + apply Z.leb_le in Hge. by rewrite Hpast.
    + apply Z.leb_gt in Hge.
      rewrite (Hslice (Z.of_nat (String.length inv) - offset)%Z) by lia.
      do 2 f_equal. lia.
  - destruct (Z.of_nat (String.length inv) <=? 0)%Z eqn:Hge.
    + apply Z.leb_le in Hge. destruct inv; [reflexivity|simpl in Hge; lia].
    + apply Z.leb_gt in Hge. unfold py_slice, slice_bound.
      rewrite !Z.add_0_l, !Z.sub_0_r.
      change (0 <? 0)%Z with false. rewrite Z.ltb_irrefl. cbv iota.
      destruct (Z.ltb_spec (Z.of_nat (String.length inv)) 0); [lia|].
      rewrite Z.min_id, (Z.min_l 0) by lia.
      destruct (Z.ltb_spec 0 (Z.of_nat (String.length inv))); [|lia].
      rewrite Z.sub_0_r, Nat2Z.id. change (Z.to_nat 0) with 0.
      by rewrite substring_all.
Qed.

Lemma inventory_slice_is_clamped_witness :
  atlas_get_zonefile_inventory (Some 1%Z) (Some 5%Z) state_ab = Some ""
  /\ atlas_get_zonefile_inventory None None state_ab
     = Some (string_of_list_byte [x80]).
Proof.
  destruct (inventory_slice_is_clamped state_ab (string_of_list_byte [x80]) 1 5)
    as (Hslice & _ & _ & Hall).
  - reflexivity.
  - lia.
  - lia.
  - split; [exact Hslice|exact Hall].
Defined.

End CatalogQueriesFacts.

(** ** The health score *)

Section Health.
Import PeerTable.

(** X17.  [atlas_peer_get_request_count] is the number of the entries
    of the peer's history that were answered, not of all its entries.
    The health score lies between 0 and 1; it is 0 exactly when no
    entry was answered (as for an unknown peer or an empty history), 1
    exactly when the history is not empty and every entry was answered,
    and it reaches [MIN_PEER_HEALTH] exactly when the history is not
    empty and at least half of its entries were answered.  (0, 1/2 and
    1 are doubles and rounding to the nearest double is monotone, so
    these comparisons come out the same for the rounded quotient of the
    source as for the exact ratio.) *)
Theorem health_reflects_answered_requests (peer_hostport : string) (pt : peer_table) :
  let times := history peer_hostport pt in
  let answered := List.filter (fun tr : Z * bool => tr.2) times in
  let health := atlas_peer_get_health peer_hostport pt in
  atlas_peer_get_request_count peer_hostport pt = length answered
  /\ (0 <= health)%Q /\ (health <= 1)%Q
  /\ ((health == 0)%Q <-> answered = [])
  /\ ((health == 1)%Q <-> times <> [] /\ answered = times)
  /\ ((MIN_PEER_HEALTH <= health)%Q
      <-> 0 < length times /\ length times <= 2 * length answered).
Proof.
  cbv zeta. unfold atlas_peer_get_health, atlas_peer_get_request_count, history.
  cbv zeta.
  assert (Hcount : match pt !! peer_hostport with
                   | Some info =>
                       length (List.filter (fun tr : Z * bool => tr.2) (time info))
                   | None => 0
                   end
                   = length (List.filter (fun tr : Z * bool => tr.2)
                               match pt !! peer_hostport with
                               | Some info => time info
                               | None => []
                               end)).
  { destruct (pt !! peer_hostport); reflexivity. }
  rewrite Hcount. clear Hcount.
  generalize (match pt !! peer_hostport with
              | Some info => time info
              | None => []
              end).
  intros times.
  pose proof (filter_length_le (fun tr : Z * bool => tr.2) times) as Hle.
  pose proof (filter_keeps_all (fun tr : Z * bool => tr.2) times) as Hall.
  pose proof (length_zero_iff_nil times) as Hnil.
  pose proof (length_zero_iff_nil (List.filter (fun tr : Z * bool => tr.2) times))
    as Hnone.
  split; [reflexivity|].
  rewrite <- Hall, <- Hnone.
  assert (Hne : times <> [] <-> length times <> 0) by (rewrite <- Hnil; reflexivity).
  rewrite Hne. clear Hall Hnone Hnil Hne.
  generalize dependent (length (List.filter (fun tr : Z * bool => tr.2) times)).
  generalize (length times). clear times. intros n k Hle.
  unfold MIN_PEER_HEALTH. destruct (0 <? n) eqn:Hn.
  - apply Nat.ltb_lt in Hn.
    assert (Hpos : Z.pos (Pos.of_nat n) = Z.of_nat n)
      by (rewrite <- positive_nat_Z, Nat2Pos.id; [reflexivity|lia]).
    unfold Qle, Qeq. cbn [Qnum Qden]. rewrite Hpos. repeat split; lia.
  - apply Nat.ltb_ge in Hn. unfold Qle, Qeq. cbn [Qnum Qden]. repeat split; lia.
Qed.

End Health.

(** ** What the RPC client does to the peer table *)

Section RpcFrame.
Import PeerTable Rpc.

Lemma only_history_changed_refl p (pt : peer_table) : only_history_changed p pt pt.
Proof.
  split; [reflexivity|]. destruct (pt !! p); [repeat split|exact I].
Qed.

Lemma only_history_changed_trans p (pt1 pt2 pt3 : peer_table) :
  only_history_changed p pt1 pt2 -> only_history_changed p pt2 pt3 ->
  only_history_changed p pt1 pt3.
Proof.
  intros [Hq12 Hp12] [Hq23 Hp23]. split.
  - intros q Hq. rewrite (Hq23 q Hq). apply Hq12, Hq.
  - destruct (pt1 !! p), (pt2 !! p), (pt3 !! p); try contradiction; try exact I.
    destruct Hp12 as (? & ? & ? & ?), Hp23 as (? & ? & ? & ?).
    repeat split; congruence.
Qed.

Lemma update_health_only_history cfg now p responded (pt : peer_table) :
  only_history_changed p pt (atlas_peer_update_health cfg now p responded pt).1.
Proof.
  unfold atlas_peer_update_health.
  destruct (pt !! p) as [info|] eqn:Hp; cbn [fst]; [|apply only_history_changed_refl].
  split.
  - intros q Hq. apply lookup_insert_ne. congruence.
  - rewrite Hp, lookup_insert_eq. repeat split.
Qed.

Lemma update_health_unknown cfg now p responded (pt : peer_table) :
  pt !! p = None -> (atlas_peer_update_health cfg now p responded pt).1 = pt.
Proof. intros Hp. unfold atlas_peer_update_health. rewrite Hp. reflexivity. Qed.

Lemma rpc_frame cfg b64decode now p call o (pt pt' : peer_table) :
  table_after_call cfg b64decode now p call o pt = Ok pt' ->
  only_history_changed p pt pt' /\ (pt !! p = None -> pt' = pt).
Proof.
  destruct call; cbn [table_after_call];
    unfold atlas_peer_ping, atlas_peer_getinfo, atlas_peer_get_neighbors,
      atlas_peer_get_zonefile_inventory_range, atlas_get_zonefiles,
      atlas_zonefile_push, mbind, result_bind; cbn [fst snd].
  - intros [= <-]. destruct (pt !! p) eqn:Hp.
    + split; [apply update_health_only_history|congruence].
    + split; [apply only_history_changed_refl|reflexivity].
  - intros [= <-]. destruct (pt !! p) eqn:Hp.
    + split; [apply update_health_only_history|congruence].
    + split; [apply only_history_changed_refl|reflexivity].
  - destruct (returned o); try discriminate;
      repeat match goal with
             | |- context [if ?c then _ else _] => destruct c
             | |- context [match dict_get ?d ?k with _ => _ end] =>
                 destruct (dict_get d k)
             end;
      try discriminate; intros [= <-]; cbn [snd];
      (split; [apply update_health_only_history|apply update_health_unknown]).
  - destruct (returned o); try discriminate;
      repeat match goal with
             | |- context [if ?c then _ else _] => destruct c
             | |- context [match dict_get ?d ?k with _ => _ end] =>
                 destruct (dict_get d k)
             end;
      try discriminate; intros [= <-]; cbn [snd];
      (split; [apply update_health_only_history|apply update_health_unknown]).
  - destruct (returned o); try discriminate;
      repeat match goal with
             | |- context [if ?c then _ else _] => destruct c
             | |- context [match dict_get ?d ?k with _ => _ end] =>
                 destruct (dict_get d k)
             end;
      try discriminate; intros [= <-]; cbn [snd];
      (split; [apply update_health_only_history|apply update_health_unknown]).
  - intros [= <-].
    split; [apply update_health_only_history|apply update_health_unknown].
Qed.

(** X18.  Whatever the remote peer answers, a call of the RPC client
    ([ping], [getinfo], [get_neighbors], [get_zonefile_inventory],
    [get_zonefiles], [put_zonefiles]) that returns changes nothing in
    the peer table but the contact history of the peer called: no peer
    is added or removed, the entries of the other peers are the same,
    and the peer keeps its inventory, its flags and its refresh time.
    If the peer is not in the table, the table is unchanged. *)
Theorem rpc_call_changes_only_history
  (cfg : atlas_config) (b64decode : string -> option string) (now : Z)
  (peer_hostport : string) (call : rpc_call) (o : rpc_outcome)
  (pt pt' : peer_table) :
  table_after_call cfg b64decode now peer_hostport call o pt = Ok pt' ->
  dom pt' = dom pt
  /\ only_history_changed peer_hostport pt pt'
  /\ (pt !! peer_hostport = None -> pt' = pt).
Proof.
  intros Hcall. destruct (rpc_frame _ _ _ _ _ _ _ _ Hcall) as [Hframe Hunknown].
  split; [|split; assumption].
  apply set_eq. intros q. rewrite !elem_of_dom.
  destruct Hframe as [Hq Hp]. destruct (decide (q = peer_hostport)) as [->|Hne].
  - destruct (pt !! peer_hostport), (pt' !! peer_hostport); try contradiction;
      split; intros [? ?]; try discriminate; eauto.
  - rewrite (Hq q Hne). reflexivity.
Qed.

Lemma rpc_call_changes_only_history_witness :
  exists pt',
    table_after_call default_config Base64.b64decode 10 "peer:6264"
                     CallPing RpcSocketError contacted_at_0 = Ok pt'
    /\ dom pt' = dom contacted_at_0
    /\ only_history_changed "peer:6264" contacted_at_0 pt'.
Proof.
  eexists. split; [reflexivity|].
  destruct (rpc_call_changes_only_history
              default_config Base64.b64decode 10 "peer:6264" CallPing RpcSocketError
              contacted_at_0 _ eq_refl) as (Hdom & Hframe & _).
  split; [exact Hdom|exact Hframe].
Defined.

End RpcFrame.

(** ** Marking and testing what a peer holds *)

Section PeerStatus.
Import Inventory Catalog PeerTable PeerInventory.

Lemma set_inventory_known p inv (pt : peer_table) info :
  pt !! p = Some info ->
  atlas_peer_set_zonefile_inventory p inv pt = <[p := set_inv info inv]> pt.
Proof. intros Hp. unfold atlas_peer_set_zonefile_inventory. by rewrite Hp. Qed.

Lemma has_zonefile_known p zfhash d (pt : peer_table) info :
  pt !! p = Some info ->
  atlas_peer_has_zonefile p zfhash None d pt
  = match atlasdb_get_zonefile_bits zfhash d with
    | [] => Ok None
    | bits => Ok (Some (forallb (inv_bit (zonefile_inv info)) bits))
    end.
Proof.
  intros Hp. unfold atlas_peer_has_zonefile. rewrite Hp.
  destruct (atlasdb_get_zonefile_bits zfhash d) as [|b bs]; [reflexivity|].
  cbn [length Nat.eqb]. rewrite test_spec by discriminate. reflexivity.
Qed.

(** X19.  Marking a zonefile on a known peer and asking again agree:
    after [atlas_peer_set_zonefile_status] with flag [pres] for a hash
    that has rows, [atlas_peer_has_zonefile] answers [pres] for that
    peer and hash.  The entries of the other peers are untouched, the
    peer keeps its history and flags, and, where the keys of the table
    are distinct, the answer for every other hash stays what it was. *)
Theorem status_then_has_zonefile
  (peer_hostport zfhash : string) (pres : bool)
  (pt : peer_table) (d : atlasdb) (info : peer_info) :
  pt !! peer_hostport = Some info ->
  0 < length (rows_of_hash zfhash d) ->
  exists pt',
    atlas_peer_set_zonefile_status peer_hostport zfhash pres None pt d = Ok pt'
    /\ atlas_peer_has_zonefile peer_hostport zfhash None d pt' = Ok (Some pres)
    /\ (forall q, q <> peer_hostport -> pt' !! q = pt !! q)
    /\ (exists inv', pt' !! peer_hostport = Some (set_inv info inv'))
    /\ (keys_ascend d ->
        forall other, other <> zfhash ->
          atlas_peer_has_zonefile peer_hostport other None d pt'
          = atlas_peer_has_zonefile peer_hostport other None d pt).
Proof.
  intros Hp Hrows. pose proof (get_bits_nonempty _ _ Hrows) as Hbits.
  unfold atlas_peer_set_zonefile_status. rewrite Hp.
  destruct (flip_spec (zonefile_inv info) _ pres Hbits) as (inv' & -> & Hinv').
  unfold mbind, result_bind. rewrite (set_inventory_known _ _ _ _ Hp).
  eexists. split; [reflexivity|].
  assert (Hp' : <[peer_hostport := set_inv info inv']> pt !! peer_hostport
                = Some (set_inv info inv')) by apply lookup_insert_eq.
  split; [|split; [|split]].
  - rewrite (has_zonefile_known _ _ _ _ _ Hp').
    destruct (atlasdb_get_zonefile_bits zfhash d) as [|b bs] eqn:Hb; [congruence|].
    do 2 f_equal. apply forallb_all; [discriminate|].
    intros j Hj. cbn [zonefile_inv set_inv]. rewrite Hinv', bool_decide_eq_true_2;
      [reflexivity|exact Hj].
  - intros q Hq. apply lookup_insert_ne. congruence.
  - exists inv'. exact Hp'.
  - intros Hkeys other Hne.
    rewrite (has_zonefile_known _ _ _ _ _ Hp'), (has_zonefile_known _ _ _ _ _ Hp).
    destruct (atlasdb_get_zonefile_bits other d) as [|b bs] eqn:Hb; [reflexivity|].
    do 2 f_equal. apply forallb_agree. intros j Hj. cbn [zonefile_inv set_inv].
    rewrite Hinv', bool_decide_eq_false_2; [reflexivity|].
    apply (bits_of_distinct_hashes d zfhash other j Hkeys Hne). rewrite Hb. exact Hj.
Qed.

Lemma status_then_has_zonefile_witness :
  exists pt',
    atlas_peer_set_zonefile_status "holder:6264" "b" true None
                                   holder_and_lacker (db state_ab) = Ok pt'
    /\ atlas_peer_has_zonefile "holder:6264" "b" None (db state_ab) pt'
       = Ok (Some true)
    /\ atlas_peer_has_zonefile "holder:6264" "a" None (db state_ab) pt'
       = Ok (Some true).
Proof.
  destruct (status_then_has_zonefile "holder:6264" "b" true holder_and_lacker
              (db state_ab) (peer_with_inv [x80]))
    as (pt' & Hset & Hhas & _ & _ & Hother).
  - reflexivity.
  - simpl. lia.
  - exists pt'. split; [exact Hset|]. split; [exact Hhas|].
    rewrite Hother.
    + reflexivity.
    + split; repeat constructor; simpl; lia.
    + discriminate.
Defined.

(** X20.  The edge cases of the two functions.  For a hash without
    rows [atlas_peer_has_zonefile] answers [None] whoever the peer is,
    and [atlas_peer_set_zonefile_status] raises [ValueError] on a known
    peer, from [max] of the empty list of bits.  On an unknown peer
    [atlas_peer_set_zonefile_status] leaves the table as it is and
    [atlas_peer_has_zonefile] answers [False] for a hash that has
    rows. *)
Theorem status_edge_cases
  (peer_hostport zfhash : string) (pres : bool) (pt : peer_table) (d : atlasdb) :
  (rows_of_hash zfhash d = [] ->
   atlas_peer_has_zonefile peer_hostport zfhash None d pt = Ok None
   /\ (is_Some (pt !! peer_hostport) ->
       atlas_peer_set_zonefile_status peer_hostport zfhash pres None pt d
       = Raise ValueError))
  /\ (pt !! peer_hostport = None ->
      atlas_peer_set_zonefile_status peer_hostport zfhash pres None pt d = Ok pt
      /\ (0 < length (rows_of_hash zfhash d) ->
          atlas_peer_has_zonefile peer_hostport zfhash None d pt = Ok (Some false))).
Proof.
  split.
  - intros Hrows. unfold atlas_peer_has_zonefile, atlas_peer_set_zonefile_status,
      atlasdb_get_zonefile_bits. rewrite Hrows. cbn [map length Nat.eqb].
    split; [reflexivity|]. intros [info ->]. rewrite flip_empty_raises. reflexivity.
  - intros Hp. unfold atlas_peer_has_zonefile, atlas_peer_set_zonefile_status.
    rewrite Hp. split; [reflexivity|]. intros Hrows.
    pose proof (get_bits_nonempty _ _ Hrows) as Hbits.
    destruct (atlasdb_get_zonefile_bits zfhash d); [congruence|reflexivity].
Qed.

End PeerStatus.

(** ** Downloading and refreshing a peer's inventory *)

Section InventorySync.
Import Catalog PeerTable Rpc PeerInventory.
Variable cfg : atlas_config.
Variable b64decode : string -> option string.
Variable get_zonefile_inventory : string -> Z -> Z -> rpc_outcome.

Lemma inventory_range_frame now p bit_offset bit_count o (pt pt' : peer_table) v :
  atlas_peer_get_zonefile_inventory_range cfg b64decode now p bit_offset bit_count o pt
  = Ok (v, pt') ->
  only_history_changed p pt pt'.
Proof.
  intros Hcall.
  apply (rpc_frame cfg b64decode now p (CallGetInventory bit_offset bit_count) o).
  cbn [table_after_call]. rewrite Hcall. reflexivity.
Qed.

Lemma download_loop_requests now p (offsets : list Z) :
  forall inv0 reqs0 (pt0 : peer_table) inv reqs pt',
    download_loop cfg b64decode get_zonefile_inventory now p offsets inv0 reqs0 pt0
    = Ok (inv, reqs, pt') ->
    (exists n, n <= length offsets /\ (offsets <> [] -> 0 < n)
               /\ reqs = reqs0 ++ map (fun o => (o, interval)) (take n offsets))
    /\ only_history_changed p pt0 pt'.
Proof.
  induction offsets as [|o offsets IH]; intros inv0 reqs0 pt0 inv reqs pt';
    cbn [download_loop].
  - intros [= <- <- <-]. split; [|apply only_history_changed_refl].
    exists 0. split; [reflexivity|]. split; [congruence|]. by rewrite app_nil_r.
  - destruct (atlas_peer_get_zonefile_inventory_range _ _ _ _ _ _ _ _)
      as [[v pt1]|e] eqn:Hcall; [|discriminate].
    apply inventory_range_frame in Hcall. unfold mbind, result_bind. cbn [fst snd].
    assert (Hone : (exists n, n <= length (o :: offsets) /\ (o :: offsets <> [] -> 0 < n)
                     /\ reqs0 ++ [(o, interval)]
                        = reqs0 ++ map (fun o => (o, interval)) (take n (o :: offsets)))).
    { exists 1. cbn. split; [lia|]. split; [lia|reflexivity]. }
    destruct v as [| | |next_inv| |]; try discriminate.
    + intros [= <- <- <-]. split; [exact Hone|exact Hcall].
    + destruct (py_len next_inv <? interval)%Z.
      * intros [= <- <- <-]. split; [exact Hone|exact Hcall].
      * intros Hrest. apply IH in Hrest as [(n & Hn & _ & ->) Hframe]. split.
        -- exists (S n). cbn [length take map]. split; [lia|]. split; [lia|].
           rewrite <- app_assoc. reflexivity.
        -- eapply only_history_changed_trans; eassumption.
Qed.

Lemma py_xrange_elem (start stop step o : Z) :
  (0 < step)%Z -> o ∈ py_xrange start stop step ->
  (start <= o < stop)%Z /\ (step | o - start)%Z.
Proof.
  intros Hstep Ho. unfold py_xrange in Ho.
  apply list_elem_of_fmap in Ho as (k & -> & Hk). apply elem_of_seqZ in Hk.
  pose proof (Z.mul_div_le (stop - start + step - 1) step Hstep).
  split; [nia|]. exists k. lia.
Qed.

(** X21.  The requests of [atlas_peer_download_zonefile_inventory] are
    the first windows of [xrange(bit_offset, maxlen, interval)], in
    order and without gaps: each asks for [interval] bits at an offset
    that lies [bit_offset] plus a multiple of [interval] and below
    [maxlen].  At least one request is made when [bit_offset < maxlen],
    none when [maxlen <= bit_offset], and then the result is the empty
    string.  The peer table changes in the history of the peer only. *)
Theorem download_requests_are_windows
  (now : Z) (peer_hostport : string) (maxlen bit_offset : Z) (pt pt' : peer_table)
  (inv : string) (reqs : list (Z * Z)) :
  atlas_peer_download_zonefile_inventory
    cfg b64decode get_zonefile_inventory now peer_hostport maxlen bit_offset pt
  = Ok (inv, reqs, pt') ->
  (exists n, reqs = map (fun o => (o, interval))
                        (take n (py_xrange bit_offset maxlen interval))
             /\ ((bit_offset < maxlen)%Z -> 0 < n))
  /\ Forall (fun r => (bit_offset <= r.1 < maxlen)%Z
                      /\ (interval | r.1 - bit_offset)%Z /\ r.2 = interval) reqs
  /\ ((maxlen <= bit_offset)%Z -> inv = "" /\ reqs = [] /\ pt' = pt)
  /\ only_history_changed peer_hostport pt pt'.
Proof.
  unfold atlas_peer_download_zonefile_inventory. intros Hdl.
  assert (Hempty : (maxlen <= bit_offset)%Z -> py_xrange bit_offset maxlen interval = []).
  { intros Hle. unfold py_xrange. rewrite seqZ_nil; [reflexivity|].
    apply Z.lt_succ_r, Z.div_lt_upper_bound; [reflexivity|]. unfold interval. lia. }
  assert (Hwindows :
            (exists n, reqs = map (fun o => (o, interval))
                                  (take n (py_xrange bit_offset maxlen interval))
                       /\ ((bit_offset < maxlen)%Z -> 0 < n))
            /\ ((maxlen <= bit_offset)%Z -> inv = "" /\ reqs = [] /\ pt' = pt)
            /\ only_history_changed peer_hostport pt pt').
  { destruct (maxlen <? bit_offset)%Z eqn:Hcmp.
    - injection Hdl as <- <- <-. apply Z.ltb_lt in Hcmp. split; [|split].
      + exists 0. split; [reflexivity|lia].
      + done.
      + apply only_history_changed_refl.
    - apply Z.ltb_ge in Hcmp. split; [|split].
      + apply download_loop_requests in Hdl as [(n & _ & Hpos & ->) _].
        exists n. split; [reflexivity|]. intros Hlt. apply Hpos.
        destruct (py_xrange_first bit_offset maxlen interval) as [rest ->];
          [reflexivity|exact Hlt|discriminate].
      + intros Hle. rewrite (Hempty Hle) in Hdl. cbn in Hdl. by injection Hdl as <- <- <-.
      + by apply download_loop_requests in Hdl as [_ Hframe]. }
  destruct Hwindows as ((n & -> & Hpos) & Hnone & Hframe).
  split; [exists n; split; [reflexivity|exact Hpos]|]. split; [|split; assumption].
  apply Forall_forall. intros r Hr. apply list_elem_of_fmap in Hr as (o & -> & Ho).
  apply elem_of_take in Ho as (i & Ho & _). apply list_elem_of_lookup_2 in Ho.
  apply py_xrange_elem in Ho as [Hrange Hdiv]; [|reflexivity].
  cbn [fst snd]. repeat split; try lia. exact Hdiv.
Qed.

Lemma download_requests_frame now p maxlen bit_offset (pt pt' : peer_table) inv reqs :
  atlas_peer_download_zonefile_inventory
    cfg b64decode get_zonefile_inventory now p maxlen bit_offset pt
  = Ok (inv, reqs, pt') ->
  only_history_changed p pt pt'.
Proof.
  unfold atlas_peer_download_zonefile_inventory.
  destruct (maxlen <? bit_offset)%Z.
  - intros [= <- <- <-]. apply only_history_changed_refl.
  - intros Hdl. by apply download_loop_requests in Hdl as [_ Hframe].
Qed.

Lemma sync_known now p maxlen (pt pt' : peer_table) info r reqs :
  pt !! p = Some info ->
  atlas_peer_sync_zonefile_inventory
    cfg b64decode get_zonefile_inventory now p maxlen pt = Ok (r, reqs, pt') ->
  exists inv pt1 info1,
    atlas_peer_download_zonefile_inventory
      cfg b64decode get_zonefile_inventory now p maxlen
      (let bit_offset := ((py_len (zonefile_inv info) - 1) * 8)%Z in
       if (bit_offset <? 0)%Z then 0%Z else bit_offset) pt
    = Ok (inv, reqs, pt1)
    /\ r = Some inv
    /\ pt1 !! p = Some info1
    /\ only_history_changed p pt pt1
    /\ pt' = <[p := set_inv info1 inv]> pt1.
Proof.
  intros Hp. unfold atlas_peer_sync_zonefile_inventory, atlas_peer_get_zonefile_inventory.
  rewrite Hp. cbn [fmap option_fmap option_map]. cbv zeta.
  destruct (atlas_peer_download_zonefile_inventory _ _ _ _ _ _ _ _)
    as [[[inv reqs1] pt1]|e] eqn:Hdl; [|discriminate].
  unfold mbind, result_bind.
  pose proof Hdl as Hframe.
  apply download_requests_frame in Hframe.
  pose proof Hframe as [_ Hsame]. rewrite Hp in Hsame.
  destruct (pt1 !! p) as [info1|] eqn:Hp1; [|contradiction].
  intros [= <- <- <-]. exists inv, pt1, info1.
  rewrite (set_inventory_known _ _ _ _ Hp1).
  split; [reflexivity|]. split; [reflexivity|]. split; [exact Hp1|].
  split; [exact Hframe|reflexivity].
Qed.

Lemma refresh_known now p byte_offset local d (pt pt' : peer_table) info b reqs :
  pt !! p = Some info ->
  atlas_peer_refresh_zonefile_inventory
    cfg b64decode get_zonefile_inventory now p byte_offset (Some local) d pt
  = Ok (b, reqs, pt') ->
  exists inv pt1 info1,
    atlas_peer_sync_zonefile_inventory
      cfg b64decode get_zonefile_inventory now p (py_len local)
      (<[p := set_inv info (String.substring 0 byte_offset (zonefile_inv info))]> pt)
    = Ok (Some inv, reqs, <[p := set_inv info1 inv]> pt1)
    /\ b = true
    /\ blacklisted info1 = blacklisted info
    /\ whitelisted info1 = whitelisted info
    /\ (forall q, q <> p -> pt1 !! q = pt !! q)
    /\ pt' = <[p := set_last_refresh (set_inv info1 inv) now]> pt1.
Proof.
  intros Hp. unfold atlas_peer_refresh_zonefile_inventory.
  unfold mbind at 1, result_bind at 1. unfold atlas_peer_get_zonefile_inventory.
  rewrite Hp. cbn [fmap option_fmap option_map]. cbv zeta.
  rewrite (set_inventory_known _ _ _ _ Hp).
  set (pt0 := <[p := set_inv info _]> pt).
  assert (Hp0 : pt0 !! p = Some (set_inv info (String.substring 0 byte_offset
                                                 (zonefile_inv info))))
    by apply lookup_insert_eq.
  destruct (atlas_peer_sync_zonefile_inventory _ _ _ _ _ _ _)
    as [[[r reqs1] pt2]|e] eqn:Hsync; [|discriminate].
  unfold mbind, result_bind.
  pose proof (sync_known _ _ _ _ _ _ _ _ Hp0 Hsync)
    as (inv & pt1 & info1 & _ & -> & Hp1 & [Hq Hsame] & ->).
  rewrite lookup_insert_eq. intros [= <- <- <-].
  exists inv, pt1, info1. rewrite Hp0, Hp1 in Hsame.
  destruct Hsame as (_ & Hbl & Hwl & _). cbn in Hbl, Hwl.
  repeat split; try assumption.
  - intros q Hne. rewrite (Hq q Hne). subst pt0. apply lookup_insert_ne. congruence.
  - rewrite insert_insert_eq. reflexivity.
Qed.

(** X22.  [atlas_peer_refresh_zonefile_inventory], when it returns,
    answers [True] exactly when the peer is in the table: the answer
    does not depend on how much was downloaded.  For an unknown peer
    no request is made and the table is unchanged.  For a known peer
    the refresh time becomes the current time, the flags are kept and
    the entries of the other peers are untouched; from then on
    [atlas_peer_has_fresh_zonefile_inventory] holds exactly while the
    ping interval has not passed and the peer's inventory is at least
    as long as the local one. *)
Theorem refresh_answers_whether_peer_is_known
  (now : Z) (peer_hostport : string) (byte_offset : nat) (local : string)
  (d : atlasdb) (pt pt' : peer_table) (b : bool) (reqs : list (Z * Z)) :
  atlas_peer_refresh_zonefile_inventory
    cfg b64decode get_zonefile_inventory now peer_hostport byte_offset (Some local) d pt
  = Ok (b, reqs, pt') ->
  b = bool_decide (is_Some (pt !! peer_hostport))
  /\ (forall q, q <> peer_hostport -> pt' !! q = pt !! q)
  /\ (pt !! peer_hostport = None -> pt' = pt /\ reqs = [])
  /\ (forall info, pt !! peer_hostport = Some info ->
        exists info',
          pt' !! peer_hostport = Some info'
          /\ zonefile_inventory_last_refresh info' = Some now
          /\ blacklisted info' = blacklisted info
          /\ whitelisted info' = whitelisted info
          /\ forall later,
               atlas_peer_has_fresh_zonefile_inventory
                 cfg later peer_hostport (Some local) pt' d
               = Ok ((String.length local <=? String.length (zonefile_inv info'))
                     && (later <? now + PEER_PING_INTERVAL cfg)%Z)).
Proof.
  intros Hrefresh. destruct (pt !! peer_hostport) as [info|] eqn:Hp.
  - destruct (refresh_known _ _ _ _ _ _ _ _ _ _ Hp Hrefresh)
      as (inv & pt1 & info1 & _ & -> & Hbl & Hwl & Hq & ->).
    split; [symmetry; apply bool_decide_eq_true_2; eauto|].
    split; [|split; [discriminate|]].
    + intros q Hne. rewrite lookup_insert_ne by congruence. apply Hq, Hne.
    + intros info0 [= <-]. eexists. split; [apply lookup_insert_eq|].
      split; [reflexivity|]. split; [exact Hbl|]. split; [exact Hwl|].
      intros later. unfold atlas_peer_has_fresh_zonefile_inventory.
      unfold mbind, result_bind. rewrite lookup_insert_eq. reflexivity.
  - unfold atlas_peer_refresh_zonefile_inventory in Hrefresh.
    unfold mbind, result_bind, atlas_peer_get_zonefile_inventory in Hrefresh.
    rewrite Hp in Hrefresh. injection Hrefresh as <- <- <-.
    split; [symmetry; apply bool_decide_eq_false_2; by intros [? ?]|].
    split; [reflexivity|]. split; [done|discriminate].
Qed.

(** X23.  Against a peer that answers no inventory request (every
    call ends in a socket error), a refresh of a known peer still
    returns [True]: the peer's stored inventory becomes the empty
    string, whatever was known before, its refresh time becomes the
    current time, and at most one request is made. *)
Theorem refresh_of_unreachable_peer
  (now : Z) (peer_hostport : string) (byte_offset : nat) (local : string)
  (d : atlasdb) (pt : peer_table) (info : peer_info) :
  (forall bit_offset bit_count,
      get_zonefile_inventory peer_hostport bit_offset bit_count = RpcSocketError) ->
  pt !! peer_hostport = Some info ->
  exists reqs pt' info',
    atlas_peer_refresh_zonefile_inventory
      cfg b64decode get_zonefile_inventory now peer_hostport byte_offset (Some local) d pt
    = Ok (true, reqs, pt')
    /\ length reqs <= 1
    /\ pt' !! peer_hostport = Some info'
    /\ zonefile_inv info' = ""
    /\ zonefile_inventory_last_refresh info' = Some now.
Proof.
  intros Hdown Hp.
  assert (Hdl : forall maxlen bit_offset (pt0 : peer_table),
             exists reqs pt1,
               atlas_peer_download_zonefile_inventory
                 cfg b64decode get_zonefile_inventory now peer_hostport
                 maxlen bit_offset pt0 = Ok ("", reqs, pt1)
               /\ length reqs <= 1).
  { intros maxlen bit_offset pt0. unfold atlas_peer_download_zonefile_inventory.
    destruct (maxlen <? bit_offset)%Z;
      [eexists _, _; split; [reflexivity|cbn; lia]|].
    destruct (py_xrange bit_offset maxlen interval) as [|o offsets];
      cbn [download_loop]; [eexists _, _; split; [reflexivity|cbn; lia]|].
    rewrite Hdown. unfold atlas_peer_get_zonefile_inventory_range. cbn [returned].
    unfold mbind, result_bind. cbn [fst snd]. eexists _, _. split; [reflexivity|].
    cbn. lia. }
  unfold atlas_peer_refresh_zonefile_inventory.
  unfold mbind at 1, result_bind at 1. unfold atlas_peer_get_zonefile_inventory at 1.
  rewrite Hp. cbn [fmap option_fmap option_map]. cbv zeta.
  rewrite (set_inventory_known _ _ _ _ Hp).
  set (pt0 := <[peer_hostport := set_inv info _]> pt).
  unfold atlas_peer_sync_zonefile_inventory, atlas_peer_get_zonefile_inventory.
  subst pt0. rewrite lookup_insert_eq. cbn [fmap option_fmap option_map]. cbv zeta.
  match goal with
  | |- context [atlas_peer_download_zonefile_inventory _ _ _ _ _ ?m ?o ?t] =>
      destruct (Hdl m o t) as (reqs & pt1 & Hdl1 & Hlen);
      pose proof (download_requests_frame _ _ _ _ _ _ _ _ Hdl1) as [_ Hsame]
  end.
  rewrite Hdl1. unfold mbind, result_bind. rewrite lookup_insert_eq in Hsame.
  destruct (pt1 !! peer_hostport) as [info1|] eqn:Hp1; [|contradiction].
  rewrite (set_inventory_known _ _ _ _ Hp1), lookup_insert_eq.
  eexists _, _, _. split; [reflexivity|]. split; [exact Hlen|].
  split; [apply lookup_insert_eq|]. split; reflexivity.
Qed.

End InventorySync.

Lemma download_requests_are_windows_witness :
  exists n,
    [(0, Rpc.interval)]%Z
    = map (fun o => (o, Rpc.interval)) (take n (Rpc.py_xrange 0 16 Rpc.interval))
    /\ 0 < n.
Proof.
  destruct (download_requests_are_windows
              default_config Base64.b64decode no_inventory 0 "peer:6264" 16 0 one_peer
              (PeerTable.atlas_peer_update_health
                 default_config 0 "peer:6264" false one_peer).1
              "" [(0, Rpc.interval)]%Z)
    as ((n & Hreqs & Hpos) & _).
  - vm_compute. reflexivity.
  - exists n. split; [exact Hreqs|]. apply Hpos. lia.
Defined.

Lemma refresh_answers_whether_peer_is_known_witness :
  exists pt',
    Rpc.atlas_peer_refresh_zonefile_inventory
      default_config Base64.b64decode no_inventory 0 "peer:6264" 0 (Some "")
      Catalog.atlasdb_empty one_peer
    = Ok (true, [], pt')
    /\ forall q, q <> "peer:6264" -> pt' !! q = one_peer !! q.
Proof.
  eexists. split; [vm_compute; reflexivity|].
  refine (proj1 (proj2 (refresh_answers_whether_peer_is_known
                          default_config Base64.b64decode no_inventory 0 "peer:6264" 0 ""
                          Catalog.atlasdb_empty one_peer _ true [] _))).
  vm_compute. reflexivity.
Defined.

Lemma refresh_of_unreachable_peer_witness :
  exists reqs pt' info',
    Rpc.atlas_peer_refresh_zonefile_inventory
      default_config Base64.b64decode no_inventory 5 "holder:6264" 1 (Some "xy")
      Catalog.atlasdb_empty holder_and_lacker
    = Ok (true, reqs, pt')
    /\ length reqs <= 1
    /\ pt' !! "holder:6264" = Some info'
    /\ PeerTable.zonefile_inv info' = ""
    /\ PeerTable.zonefile_inventory_last_refresh info' = Some 5%Z.
Proof.
  apply (refresh_of_unreachable_peer
           default_config Base64.b64decode no_inventory 5 "holder:6264" 1 "xy"
           Catalog.atlasdb_empty holder_and_lacker (peer_with_inv [x80])).
  - reflexivity.
  - reflexivity.
Defined.

(** ** The fetcher's view of what is missing *)

Section Availability.
Import Inventory Catalog PeerTable ZonefileCrawler.

Lemma take_drop_length {A : Type} (n : nat) (l : list A) :
  take n l ++ drop (length (take n l)) l = l.
Proof.
  rewrite length_take. destruct (Nat.le_gt_cases n (length l)) as [Hle|Hgt].
  - rewrite Nat.min_l by exact Hle. apply take_drop.
  - rewrite Nat.min_r by lia. rewrite take_ge by lia. rewrite drop_all.
    apply app_nil_r.
Qed.

Lemma find_all_missing_drop (bit_count : nat) (d : atlasdb) :
  0 < bit_count ->
  forall fuel bit_offset,
    length (missing_rows d) - bit_offset < fuel ->
    find_all_missing fuel bit_offset bit_count d = drop bit_offset (missing_rows d).
Proof.
  intros Hcount. induction fuel as [|fuel IH]; intros off Hfuel; [lia|].
  cbn [find_all_missing]. unfold atlasdb_zonefile_find_missing.
  fold (missing_rows d). set (page := take bit_count (drop off (missing_rows d))).
  destruct (bool_decide (length page = 0)) eqn:Hpage.
  - apply bool_decide_eq_true in Hpage. subst page.
    destruct (drop off (missing_rows d)) as [|r rs]; [reflexivity|].
    destruct bit_count; [lia|]. discriminate.
  - apply bool_decide_eq_false in Hpage.
    assert (Hlen : length page <= length (missing_rows d) - off).
    { subst page. rewrite length_take, length_drop. lia. }
    rewrite IH by lia. rewrite <- drop_drop. subst page. apply take_drop_length.
Qed.

(** X24.  The paging loop of [atlas_find_missing_zonefile_availability]
    terminates and collects every row marked absent exactly once, in
    table order, whatever the (positive) page size: more iterations
    than there are rows suffice. *)
Theorem find_all_missing_is_complete (fuel bit_count : nat) (d : atlasdb) :
  0 < bit_count ->
  length (zonefiles d) < fuel ->
  find_all_missing fuel 0 bit_count d
  = List.filter (fun r => negb (present r)) (zonefiles d).
Proof.
  intros Hcount Hfuel. rewrite find_all_missing_drop; [reflexivity|exact Hcount|].
  pose proof (filter_length_le (fun r => negb (present r)) (zonefiles d)).
  unfold missing_rows. lia.
Qed.

Lemma find_all_missing_is_complete_witness :
  find_all_missing 3 0 1 (db state_ab)
  = List.filter (fun r => negb (present r)) (zonefiles (db state_ab)).
Proof.
  apply find_all_missing_is_complete.
  - lia.
  - simpl. lia.
Defined.

Lemma peer_claims_inv_bit (peer_inv : string) (j : nat) :
  peer_claims peer_inv (j / 8) (7 - j mod 8) = inv_bit peer_inv j.
Proof.
  unfold peer_claims, inv_bit, list_bit.
  destruct (list_byte_of_string peer_inv !! (j / 8)) as [c|]; [|reflexivity].
  apply land_test. lia.
Qed.

Lemma keys_known (pt : peer_table) (p : string) : p ∈ keys pt <-> is_Some (pt !! p).
Proof.
  unfold keys. rewrite list_elem_of_fmap. split.
  - intros ([q info] & -> & Hin). apply elem_of_map_to_list in Hin. eauto.
  - intros [info Hp]. exists (p, info). split; [reflexivity|].
    by apply elem_of_map_to_list.
Qed.

Lemma keys_NoDup (pt : peer_table) : NoDup (keys pt).
Proof. apply NoDup_fst_map_to_list. Qed.

Lemma availability_row_ok (pt : peer_table) rows ret r :
  (forall h, availability_ok pt rows ret h) ->
  forall h, availability_ok pt (rows ++ [r]) (availability_row pt ret r) h.
Proof.
  intros Hok h. specialize (Hok h). unfold availability_ok in *.
  unfold availability_row. fold (row_bit r).
  destruct (decide (zonefile_hash r = h)) as [Heq|Hne].
  - subst h. rewrite lookup_insert_eq.
    rewrite List.filter_app. cbn [List.filter]. unfold has_hash at 2.
    rewrite bool_decide_eq_true_2 by reflexivity. rewrite map_app. cbn [map].
    set (entry := default {| indexes := []; popularity := 0; peers := [];
                             mi_tried_storage := false |}
                          (ret !! zonefile_hash r)).
    assert (Hentry :
              indexes entry = map row_bit (List.filter (has_hash (zonefile_hash r)) rows)
              /\ popularity entry = length (peers entry)
              /\ NoDup (peers entry)
              /\ forall p, p ∈ peers entry
                           <-> is_Some (pt !! p)
                               /\ exists j, j ∈ indexes entry
                                            /\ inv_bit (mirrored_inv p pt) j = true).
    { subst entry. destruct (ret !! zonefile_hash r) as [info|]; cbn [default].
      - destruct Hok as (? & _ & ? & ? & ?). done.
      - cbn [indexes popularity peers length]. split; [|split; [reflexivity|split]].
        + symmetry. assert (Hnone : List.filter (has_hash (zonefile_hash r)) rows = []);
            [|by rewrite Hnone].
          induction rows as [|x rows IH]; [reflexivity|]. cbn [List.filter].
          unfold has_hash at 1. rewrite bool_decide_eq_false_2.
          * apply IH. intros y Hy. apply Hok. by apply list_elem_of_further.
          * apply Hok. apply list_elem_of_here.
        + constructor.
        + intros p. split; [intros Hp; by apply elem_of_nil in Hp|].
          intros (_ & j & Hj & _). by apply elem_of_nil in Hj. }
    destruct Hentry as (Hidx & Hpop & Hnodup & Hpeers).
    cbn [indexes popularity peers]. split; [by rewrite Hidx|].
    split; [by destruct (indexes entry)|].
    split; [rewrite length_app, Hpop; reflexivity|]. split.
    + apply NoDup_app. split; [exact Hnodup|]. split.
      * intros p Hp Hnew. apply list_elem_of_In, List.filter_In in Hnew as [_ Hnew].
        apply andb_prop in Hnew as [_ Hnew]. apply negb_true_iff in Hnew.
        by apply bool_decide_eq_false in Hnew.
      * apply NoDup_ListNoDup, List.NoDup_filter, NoDup_ListNoDup, keys_NoDup.
    + intros p. rewrite elem_of_app, Hpeers. split.
      * intros [(Hknown & j & Hj & Hbit)|Hnew].
        -- split; [exact Hknown|]. exists j. split; [|exact Hbit].
           apply elem_of_app. by left.
        -- apply list_elem_of_In, List.filter_In in Hnew as [Hkey Hnew].
           apply andb_prop in Hnew as [Hbit _].
           rewrite peer_claims_inv_bit in Hbit.
           split; [by apply keys_known, list_elem_of_In|].
           exists (row_bit r). split; [|exact Hbit].
           apply elem_of_app. right. apply list_elem_of_here.
      * intros (Hknown & j & Hj & Hbit).
        apply elem_of_app in Hj as [Hj|Hj]; [left; eauto|].
        apply list_elem_of_singleton in Hj as ->.
        destruct (decide (p ∈ peers entry)) as [Hold|Hnew].
        -- left. by apply Hpeers.
        -- right. apply list_elem_of_In, List.filter_In. split.
           ++ by apply list_elem_of_In, keys_known.
           ++ rewrite peer_claims_inv_bit. fold (mirrored_inv p pt). rewrite Hbit.
              by rewrite bool_decide_eq_false_2.
  - rewrite lookup_insert_ne by exact Hne.
    rewrite List.filter_app. cbn [List.filter]. unfold has_hash at 2.
    rewrite bool_decide_eq_false_2 by exact Hne. rewrite app_nil_r.
    destruct (ret !! h) as [info|]; [exact Hok|].
    intros x Hx. apply elem_of_app in Hx as [Hx|Hx]; [by apply Hok|].
    by apply list_elem_of_singleton in Hx as ->.
Qed.

Lemma availability_fold_ok (pt : peer_table) (todo : list zonefile_row) :
  forall rows ret,
    (forall h, availability_ok pt rows ret h) ->
    forall h, availability_ok pt (rows ++ todo) (fold_left (availability_row pt) todo ret) h.
Proof.
  induction todo as [|r todo IH]; intros rows ret Hok h; cbn [fold_left].
  - rewrite app_nil_r. apply Hok.
  - replace (rows ++ r :: todo) with ((rows ++ [r]) ++ todo)
      by (rewrite <- app_assoc; reflexivity).
    apply IH. by apply availability_row_ok.
Qed.

(** X25.  The availability map of the fetcher has an entry exactly for
    the hashes that have a row marked absent.  The entry lists the bits
    of those rows in table order; its peers are, without repetition,
    the known peers whose mirrored inventory has at least one of these
    bits set, and its popularity is their number. *)
Theorem availability_counts_claiming_peers
  (pt : peer_table) (d : atlasdb) (zfhash : string) :
  match atlas_find_missing_zonefile_availability pt d !! zfhash with
  | None => forall r, r ∈ zonefiles d -> zonefile_hash r = zfhash -> present r = true
  | Some info =>
      indexes info = map row_bit (List.filter (has_hash zfhash) (missing_rows d))
      /\ indexes info <> []
      /\ popularity info = length (peers info)
      /\ NoDup (peers info)
      /\ forall p, p ∈ peers info
                   <-> is_Some (pt !! p)
                       /\ exists j, j ∈ indexes info
                                    /\ inv_bit (mirrored_inv p pt) j = true
  end.
Proof.
  unfold atlas_find_missing_zonefile_availability.
  rewrite find_all_missing_drop; [|by apply Nat.ltb_lt; vm_compute|].
  2: { pose proof (filter_length_le (fun r => negb (present r)) (zonefiles d)).
       unfold missing_rows. lia. }
  rewrite drop_0.
  pose proof (availability_fold_ok pt (missing_rows d) [] ∅) as Hok.
  cbn [app] in Hok. specialize (Hok (fun h r Hr => False_ind _ (proj1 (elem_of_nil r) Hr)) zfhash).
  unfold availability_ok in Hok.
  destruct (fold_left (availability_row pt) (missing_rows d) ∅ !! zfhash) as [info|];
    [exact Hok|].
  intros r Hr Hhash. destruct (present r) eqn:Hpres; [reflexivity|].
  exfalso. apply (Hok r); [|exact Hhash].
  apply list_elem_of_In, List.filter_In. split; [by apply list_elem_of_In|].
  by rewrite Hpres.
Qed.

End Availability.

(** ** The ranking of the missing zonefiles *)

Section Ranking.
Import Catalog PeerTable ZonefileCrawler.

Lemma ranking_leb_total (x y : nat * string) :
  ranking_leb x y = false -> ranking_leb y x = true.
Proof.
  unfold ranking_leb. intros Hxy. apply orb_false_iff in Hxy as [Hlt Heq].
  apply Nat.ltb_ge in Hlt. destruct (Nat.ltb_spec y.1 x.1) as [|Hge]; [reflexivity|].
  assert (Hsame : x.1 = y.1) by lia. rewrite Hsame, Nat.eqb_refl in *.
  cbn [orb andb] in *. destruct (String.leb_total x.2 y.2); congruence.
Qed.

Lemma ranking_leb_popularity (x y : nat * string) :
  ranking_leb x y = true -> x.1 <= y.1.
Proof.
  unfold ranking_leb. intros Hxy. apply orb_true_iff in Hxy as [Hlt|Heq].
  - apply Nat.ltb_lt in Hlt. lia.
  - apply andb_prop in Heq as [Heq _]. apply Nat.eqb_eq in Heq. lia.
Qed.

Lemma sort_insert_Permutation x l : sort_insert x l ≡ₚ x :: l.
Proof.
  induction l as [|y l IH]; cbn [sort_insert]; [reflexivity|].
  destruct (ranking_leb x y); [reflexivity|].
  rewrite IH. apply Permutation_swap.
Qed.

Lemma py_sort_Permutation l : py_sort l ≡ₚ l.
Proof.
  induction l as [|x l IH]; cbn [py_sort fold_right]; [reflexivity|].
  fold (py_sort l). rewrite sort_insert_Permutation, IH. reflexivity.
Qed.

Lemma sort_insert_Sorted x l :
  Sorted (fun a b => ranking_leb a b = true) l ->
  Sorted (fun a b => ranking_leb a b = true) (sort_insert x l).
Proof.
  induction 1 as [|y l Hl IH Hy]; cbn [sort_insert]; [repeat constructor|].
  destruct (ranking_leb x y) eqn:Hxy.
  - constructor; [by constructor|]. by constructor.
  - constructor; [exact IH|]. apply ranking_leb_total in Hxy.
    destruct l as [|z l]; cbn [sort_insert]; [by constructor|].
    destruct (ranking_leb x z); constructor; [exact Hxy|].
    by inversion Hy.
Qed.

Lemma py_sort_Sorted l : Sorted (fun a b => ranking_leb a b = true) (py_sort l).
Proof.
  induction l as [|x l IH]; cbn [py_sort fold_right]; [constructor|].
  by apply sort_insert_Sorted.
Qed.

Lemma py_sort_by_popularity l :
  StronglySorted (fun a b : nat * string => a.1 <= b.1) (py_sort l).
Proof.
  apply Sorted_StronglySorted; [intros a b c; lia|].
  pose proof (py_sort_Sorted l) as Hsorted.
  induction Hsorted as [|x l' Hl IH Hx]; constructor; [exact IH|].
  destruct Hx; constructor. by apply ranking_leb_popularity.
Qed.

(** X26.  The ranking built by [AtlasZonefileCrawler.step] holds each
    hash of the availability map once, with its popularity, and is
    ordered by ascending popularity: the rarest zonefile comes first.
    (The fetcher then passes the hashes through [list(set(...))].) *)
Theorem ranking_is_rarest_first (missing_zfinfo : gmap string missing_info) :
  let ranking := zonefile_ranking missing_zfinfo in
  StronglySorted (fun a b : nat * string => a.1 <= b.1) ranking
  /\ NoDup (map snd ranking)
  /\ forall n h, (n, h) ∈ ranking
                 <-> exists info, missing_zfinfo !! h = Some info
                                  /\ popularity info = n.
Proof.
  cbv zeta. unfold zonefile_ranking.
  set (pairs := map (fun kv : string * missing_info => (popularity kv.2, kv.1))
                    (map_to_list missing_zfinfo)).
  pose proof (py_sort_Permutation pairs) as Hperm.
  split; [apply py_sort_by_popularity|]. split.
  - rewrite Hperm. subst pairs. rewrite map_map. cbn [snd].
    apply (NoDup_fst_map_to_list missing_zfinfo).
  - intros n h. rewrite Hperm. subst pairs. rewrite list_elem_of_fmap. split.
    + intros ([k info] & [= -> ->] & Hin). apply elem_of_map_to_list in Hin. eauto.
    + intros (info & Hin & <-). exists (h, info). split; [reflexivity|].
      by apply elem_of_map_to_list.
Qed.

End Ranking.

(** ** The pusher's step *)

Section PusherStep.
Import Catalog PeerTable Pusher.
Variable cfg : atlas_config.
Variable zonefile : Type.
Variable parse_zone_file : string -> option zonefile.
Variable serialize_zonefile : zonefile -> string.
Variable put_zonefiles : string -> list string -> rpc_outcome.




End PusherStep.


(** ** The ranking of the peers by health *)

Section PeerRankingFacts.
Import PeerTable PeerInventory PeerRanking.

Lemma health_leb_total (x y : Q * string) :
  health_leb x y = false -> health_leb y x = true.
Proof.
  unfold health_leb. intros Hxy. apply orb_false_iff in Hxy as [Hlt Heq].
  apply negb_false_iff in Hlt. destruct (Qle_bool x.1 y.1) eqn:Hle; [|reflexivity].
  cbn [negb orb]. apply Qle_bool_iff in Hlt, Hle.
  assert (Hsame : (x.1 == y.1)%Q) by (apply Qle_antisym; assumption).
  assert (Hxy : Qeq_bool x.1 y.1 = true) by (apply Qeq_bool_iff; exact Hsame).
  assert (Hyx : Qeq_bool y.1 x.1 = true) by (apply Qeq_bool_iff; symmetry; exact Hsame).
  rewrite Hxy in Heq. rewrite Hyx. cbn [andb] in *.
  destruct (String.leb_total x.2 y.2); congruence.
Qed.

Lemma health_leb_le (x y : Q * string) : health_leb x y = true -> (x.1 <= y.1)%Q.
Proof.
  unfold health_leb. intros Hxy. apply orb_true_iff in Hxy as [Hlt|Heq].
  - apply negb_true_iff in Hlt. destruct (Qlt_le_dec x.1 y.1) as [H|H].
    + apply Qlt_le_weak, H.
    + apply Qle_bool_iff in H. congruence.
  - apply andb_prop in Heq as [Heq _]. apply Qeq_bool_iff in Heq.
    rewrite Heq. apply Qle_refl.
Qed.

Lemma health_insert_Permutation x l : health_insert x l ≡ₚ x :: l.
Proof.
  induction l as [|y l IH]; cbn [health_insert]; [reflexivity|].
  destruct (health_leb x y); [reflexivity|].
  rewrite IH. apply Permutation_swap.
Qed.

Lemma health_sort_Permutation l : health_sort l ≡ₚ l.
Proof.
  induction l as [|x l IH]; cbn [health_sort fold_right]; [reflexivity|].
  fold (health_sort l). rewrite health_insert_Permutation, IH. reflexivity.
Qed.

Lemma health_insert_Sorted x l :
  Sorted (fun a b => health_leb a b = true) l ->
  Sorted (fun a b => health_leb a b = true) (health_insert x l).
Proof.
  induction 1 as [|y l Hl IH Hy]; cbn [health_insert]; [repeat constructor|].
  destruct (health_leb x y) eqn:Hxy.
  - constructor; [by constructor|]. by constructor.
  - constructor; [exact IH|]. apply health_leb_total in Hxy.
    destruct l as [|z l]; cbn [health_insert]; [by constructor|].
    destruct (health_leb x z); constructor; [exact Hxy|].
    by inversion Hy.
Qed.

Lemma health_sort_ascending l :
  StronglySorted (fun a b : Q * string => (a.1 <= b.1)%Q) (health_sort l).
Proof.
  apply Sorted_StronglySorted; [intros a b c; apply Qle_trans|].
  assert (Hsorted : Sorted (fun a b => health_leb a b = true) (health_sort l)).
  { induction l as [|x l IH]; cbn [health_sort fold_right]; [constructor|].
    by apply health_insert_Sorted. }
  induction Hsorted as [|x l' Hl IH Hx]; constructor; [exact IH|].
  destruct Hx; constructor. by apply health_leb_le.
Qed.

Lemma StronglySorted_rev {A : Type} (R : A -> A -> Prop) (l : list A) :
  StronglySorted R l -> StronglySorted (fun a b => R b a) (rev l).
Proof.
  induction 1 as [|x l Hl IH Hx]; cbn [rev]; [constructor|].
  apply StronglySorted_app_2; [|exact IH|repeat constructor].
  intros a b Ha Hb. apply list_elem_of_singleton in Hb as ->.
  rewrite List.Forall_forall in Hx. apply Hx.
  apply list_elem_of_In in Ha. by apply in_rev.
Qed.

Lemma ranking_elem (peer_list : option (list string)) (pt : peer_table)
  (with_zero_requests : bool) (h : Q) (p : string) :
  (h, p) ∈ atlas_rank_peers_by_health peer_list pt with_zero_requests
  <-> p ∈ match peer_list with Some l => l | None => keys pt end
      /\ (atlas_peer_get_request_count p pt = 0 -> with_zero_requests = true)
      /\ h = atlas_peer_get_health p pt.
Proof.
  unfold atlas_rank_peers_by_health.
  rewrite list_elem_of_In, <- in_rev, <- list_elem_of_In.
  rewrite health_sort_Permutation. rewrite list_elem_of_In, in_flat_map.
  split.
  - intros (q & Hq & Hin). apply list_elem_of_In in Hq.
    destruct ((atlas_peer_get_request_count q pt =? 0) && negb with_zero_requests)
      eqn:Hskip; [by destruct Hin|].
    destruct Hin as [Heq|[]]. injection Heq as <- <-.
    split; [exact Hq|]. split; [|reflexivity].
    intros Hzero. rewrite Hzero in Hskip. cbn in Hskip. by destruct with_zero_requests.
  - intros (Hp & Hcount & ->). exists p. split; [by apply list_elem_of_In|].
    destruct (atlas_peer_get_request_count p pt =? 0) eqn:Hzero.
    + apply Nat.eqb_eq in Hzero. rewrite (Hcount Hzero). cbn. by left.
    + cbn. by left.
Qed.

(** X28.  [atlas_rank_peers_by_health] lists, healthiest first, the
    peers of the list it is given (of the peer table by default): the
    health scores never increase along the result.  Each listed peer
    comes with its own health score, and a peer without an answered
    request is listed only at [with_zero_requests].  Taken from the
    peer table, the result names no peer twice. *)
Theorem rank_by_health_is_descending
  (peer_list : option (list string)) (pt : peer_table) (with_zero_requests : bool) :
  let ranking := atlas_rank_peers_by_health peer_list pt with_zero_requests in
  StronglySorted (fun a b : Q * string => (b.1 <= a.1)%Q) ranking
  /\ (forall h p,
        (h, p) ∈ ranking
        <-> p ∈ match peer_list with Some l => l | None => keys pt end
            /\ (atlas_peer_get_request_count p pt = 0 -> with_zero_requests = true)
            /\ h = atlas_peer_get_health p pt)
  /\ (peer_list = None -> NoDup (map snd ranking)).
Proof.
  cbv zeta. split; [|split].
  - unfold atlas_rank_peers_by_health. apply StronglySorted_rev, health_sort_ascending.
  - apply ranking_elem.
  - intros ->. unfold atlas_rank_peers_by_health.
    rewrite <- (Permutation_rev (health_sort _)), health_sort_Permutation.
    assert (Hsnd : forall l,
               map snd
                 (flat_map (fun peer_hostport =>
                              if (atlas_peer_get_request_count peer_hostport pt =? 0)
                                 && negb with_zero_requests
                              then []
                              else [(atlas_peer_get_health peer_hostport pt,
                                     peer_hostport)]) l)
               = List.filter (fun p => negb ((atlas_peer_get_request_count p pt =? 0)
                                             && negb with_zero_requests)) l).
    { induction l as [|p l IH]; [reflexivity|]. cbn [flat_map List.filter].
      rewrite map_app, IH. by destruct (_ && _). }
    rewrite Hsnd. apply NoDup_ListNoDup, List.NoDup_filter, NoDup_ListNoDup, keys_NoDup.
Qed.

End PeerRankingFacts.

(** ** Forgetting unhealthy peers *)

Section RemoveUnhealthy.
Import PeerTable PeerInventory PeerRanking.

Lemma select_unhealthy_spec (count : Z) (min_request_count : nat) (min_health : Q)
  (pt : peer_table) (l : list (Q * string)) :
  (forall h p, (h, p) ∈ l -> h = atlas_peer_get_health p pt) ->
  forall removed,
    select_unhealthy count min_request_count min_health pt l removed
    = removed
      ++ take (Z.to_nat (Z.max 1 (count - Z.of_nat (length removed))))
              (List.filter (unhealthy min_request_count min_health pt) (map snd l)).
Proof.
  induction l as [|[rank peer] l IH]; intros Hl removed; cbn [select_unhealthy].
  - cbn [map List.filter]. by rewrite take_nil, app_nil_r.
  - assert (Hrank : rank = atlas_peer_get_health peer pt)
      by (apply Hl, list_elem_of_here).
    assert (Hl' : forall h p, (h, p) ∈ l -> h = atlas_peer_get_health p pt)
      by (intros h p Hin; apply Hl; by apply list_elem_of_further).
    subst rank. cbn [map List.filter snd].
    change ((min_request_count <=? atlas_peer_get_request_count peer pt)
            && negb (Qle_bool min_health (atlas_peer_get_health peer pt)))
      with (unhealthy min_request_count min_health pt peer).
    destruct (unhealthy min_request_count min_health pt peer); [|by apply IH].
    destruct (count <=? Z.of_nat (length (removed ++ [peer])))%Z eqn:Hstop.
    + apply Z.leb_le in Hstop. rewrite length_app in Hstop. cbn [length] in Hstop.
      replace (Z.to_nat (Z.max 1 (count - Z.of_nat (length removed)))) with 1 by lia.
      cbn [take]. by rewrite take_0.
    + apply Z.leb_gt in Hstop. rewrite IH by exact Hl'. rewrite <- app_assoc.
      rewrite length_app in *. cbn [length] in *.
      replace (Z.to_nat (Z.max 1 (count - Z.of_nat (length removed))))
        with (S (Z.to_nat (Z.max 1 (count - Z.of_nat (length removed + 1))))) by lia.
      reflexivity.
Qed.

Lemma remove_all_spec (removed : list string) :
  forall (peers : list peer_row) (pt : peer_table),
    let '(peers', pt') :=
      fold_left (fun (acc : list peer_row * peer_table) peer =>
                   atlasdb_remove_peer peer acc.1 acc.2)
                removed (peers, pt) in
    peers' = List.filter (fun r => negb (bool_decide (peer_hostport r ∈ removed))) peers
    /\ forall p,
         pt' !! p
         = if bool_decide (p ∈ removed)
           then match pt !! p with
                | Some info =>
                    if whitelisted info || blacklisted info then Some info else None
                | None => None
                end
           else pt !! p.
Proof.
  induction removed as [|x removed IH]; intros peers pt; cbn [fold_left].
  - split.
    + induction peers as [|r peers IHp]; [reflexivity|]. cbn [List.filter].
      rewrite bool_decide_eq_false_2 by apply not_elem_of_nil. cbn [negb].
      by rewrite <- IHp.
    + intros p. by rewrite bool_decide_eq_false_2 by apply not_elem_of_nil.
  - cbn [fst snd].
    remember (atlasdb_remove_peer x peers pt) as first eqn:Hfirst.
    destruct first as [peers1 pt1]. unfold atlasdb_remove_peer in Hfirst.
    injection Hfirst as Hpeers1 Hdel.
    specialize (IH peers1 pt1). destruct (fold_left _ removed _) as [peers' pt'].
    destruct IH as [-> Hpt]. split.
    + rewrite Hpeers1. clear. induction peers as [|r peers IHp]; [reflexivity|].
      cbn [List.filter].
      destruct (decide (peer_hostport r = x)) as [Heq|Hne].
      * rewrite (bool_decide_eq_true_2 _ Heq). cbn [negb].
        rewrite (bool_decide_eq_true_2 (peer_hostport r ∈ x :: removed));
          [exact IHp|]. rewrite Heq. apply list_elem_of_here.
      * rewrite (bool_decide_eq_false_2 _ Hne). cbn [negb List.filter].
        rewrite IHp. f_equal.
        destruct (decide (peer_hostport r ∈ removed)) as [Hin|Hout].
        -- rewrite !bool_decide_eq_true_2; [reflexivity| |exact Hin].
           by apply list_elem_of_further.
        -- rewrite !bool_decide_eq_false_2; [reflexivity| |exact Hout].
           intros [?|?]%elem_of_cons; done.
    + intros p. rewrite Hpt.
      assert (Hpt1 : pt1 !! p
                     = if bool_decide (p = x)
                       then match pt !! p with
                            | Some info => if whitelisted info || blacklisted info
                                           then Some info else None
                            | None => None
                            end
                       else pt !! p).
      { rewrite Hdel. destruct (decide (p = x)) as [->|Hne].
        - rewrite bool_decide_eq_true_2 by reflexivity.
          destruct (pt !! x) as [info|] eqn:Hx; [|exact Hx].
          destruct (whitelisted info), (blacklisted info); cbn [negb andb orb];
            try exact Hx. apply lookup_delete_eq.
        - rewrite bool_decide_eq_false_2 by exact Hne.
          destruct (pt !! x) as [info|]; [|reflexivity].
          destruct (negb (whitelisted info) && negb (blacklisted info));
            [|reflexivity]. apply lookup_delete_ne. congruence. }
      rewrite Hpt1.
      destruct (decide (p = x)) as [->|Hne].
      * rewrite (bool_decide_eq_true_2 (x = x)) by reflexivity.
        rewrite (bool_decide_eq_true_2 (x ∈ x :: removed)) by apply list_elem_of_here.
        destruct (pt !! x) as [info|];
          [|destruct (bool_decide (x ∈ removed)); reflexivity].
        destruct (whitelisted info || blacklisted info) eqn:Hprot;
          destruct (bool_decide (x ∈ removed)); try reflexivity.
        by rewrite Hprot.
      * rewrite (bool_decide_eq_false_2 (p = x)) by exact Hne.
        destruct (decide (p ∈ removed)) as [Hin|Hout].
        -- rewrite !bool_decide_eq_true_2; [reflexivity| |exact Hin].
           by apply list_elem_of_further.
        -- rewrite !bool_decide_eq_false_2; [reflexivity| |exact Hout].
           intros [?|?]%elem_of_cons; done.
Qed.

(** X29.  [remove_unhealthy_peers] picks, in the order of the ranking
    by health (healthiest first), the peers with at least
    [min_request_count] answered requests and a health below
    [min_health], and stops after [count] of them, but never before
    the first: with [count <= 0] it still removes one.  Every peer
    picked is in the peer table.  The rows of the picked peers are
    deleted from the table [peers]; their entries are deleted from the
    peer table unless they are whitelisted or blacklisted; nothing else
    changes. *)
Theorem remove_unhealthy_peers_spec
  (count : Z) (peers : list peer_row) (pt : peer_table)
  (min_request_count : nat) (min_health : Q) :
  let '(removed, peers', pt') :=
    remove_unhealthy_peers count peers pt min_request_count min_health in
  removed
  = take (Z.to_nat (Z.max 1 count))
         (List.filter (unhealthy min_request_count min_health pt)
                      (map snd (atlas_rank_peers_by_health None pt false)))
  /\ length removed <= Z.to_nat (Z.max 1 count)
  /\ (forall p, p ∈ removed ->
                is_Some (pt !! p)
                /\ min_request_count <= atlas_peer_get_request_count p pt
                /\ (atlas_peer_get_health p pt < min_health)%Q)
  /\ peers' = List.filter (fun r => negb (bool_decide (peer_hostport r ∈ removed))) peers
  /\ forall p,
       pt' !! p
       = if bool_decide (p ∈ removed)
         then match pt !! p with
              | Some info =>
                  if whitelisted info || blacklisted info then Some info else None
              | None => None
              end
         else pt !! p.
Proof.
  unfold remove_unhealthy_peers.
  set (ranking := atlas_rank_peers_by_health None pt false).
  assert (Hsel : select_unhealthy count min_request_count min_health pt ranking []
                 = take (Z.to_nat (Z.max 1 count))
                        (List.filter (unhealthy min_request_count min_health pt)
                                     (map snd ranking))).
  { rewrite select_unhealthy_spec.
    - cbn [app length]. do 2 f_equal. lia.
    - intros h p Hin. by apply ranking_elem in Hin as (_ & _ & ->). }
  rewrite Hsel. set (removed := take _ _).
  pose proof (remove_all_spec removed peers pt) as Hrm.
  destruct (fold_left _ removed _) as [peers' pt'].
  destruct Hrm as [Hpeers Hpt].
  split; [reflexivity|]. split; [subst removed; rewrite length_take; lia|].
  split; [|split; assumption].
  intros p Hp. subst removed. apply elem_of_take in Hp as (i & Hp & _).
  apply list_elem_of_lookup_2, list_elem_of_In, List.filter_In in Hp as [Hin Hbad].
  apply list_elem_of_In, list_elem_of_fmap in Hin as ([h q] & -> & Hin).
  apply ranking_elem in Hin as (Hkey & _ & _). cbn [snd] in *.
  split; [by apply keys_known|].
  unfold unhealthy in Hbad. apply andb_prop in Hbad as [Hcount Hhealth].
  split; [by apply Nat.leb_le|].
  apply negb_true_iff in Hhealth.
  destruct (Qlt_le_dec (atlas_peer_get_health q pt) min_health) as [Hlt|Hle];
    [exact Hlt|]. apply Qle_bool_iff in Hle. congruence.
Qed.

(** X30.  The queue of pending peers takes a peer only if it is not in
    the peer table and the queue is shorter than
    [atlas_max_new_peers], which is at most 65536: offered a list of
    peers one after the other, the queue grows by the unknown ones, in
    order and with repetitions, until it is full.
    [atlas_peer_dequeue_all] hands out the whole queue in arrival
    order and leaves it empty. *)
Theorem peer_queue_is_bounded
  (pt : peer_table) (max_neighbors : nat) (peer_queue offered : list string) :
  let cap := atlas_max_new_peers max_neighbors in
  let queue' := enqueue_all pt max_neighbors peer_queue offered in
  cap <= 65536
  /\ queue'
     = peer_queue
       ++ take (cap - length peer_queue)
               (List.filter (fun p => negb (bool_decide (is_Some (pt !! p)))) offered)
  /\ length queue' <= Nat.max (length peer_queue) cap
  /\ atlas_peer_dequeue_all queue' = (queue', []).
Proof.
  cbv zeta.
  assert (Hcap : atlas_max_new_peers max_neighbors <= 65536).
  { unfold atlas_max_new_peers. change PEER_MAX_DB with 65536. apply Nat.le_min_r. }
  assert (Hall : forall q,
             enqueue_all pt max_neighbors q offered
             = q ++ take (atlas_max_new_peers max_neighbors - length q)
                         (List.filter (fun p => negb (bool_decide (is_Some (pt !! p))))
                                      offered)).
  { unfold enqueue_all. induction offered as [|p offered IH]; intros q;
      cbn [fold_left List.filter].
    - by rewrite take_nil, app_nil_r.
    - rewrite IH. unfold atlas_peer_enqueue.
      destruct (decide (is_Some (pt !! p))) as [Hknown|Hnew].
      + rewrite (bool_decide_eq_true_2 (p ∈ keys pt)) by by apply keys_known.
        rewrite (bool_decide_eq_true_2 _ Hknown). reflexivity.
      + rewrite (bool_decide_eq_false_2 (p ∈ keys pt))
          by (intros Hk; by apply Hnew, keys_known).
        rewrite (bool_decide_eq_false_2 _ Hnew). cbn [negb].
        destruct (Nat.ltb_spec (length q) (atlas_max_new_peers max_neighbors))
          as [Hroom|Hfull]; cbn [snd].
        * rewrite length_app. cbn [length]. rewrite <- app_assoc.
          replace (atlas_max_new_peers max_neighbors - length q)
            with (S (atlas_max_new_peers max_neighbors - (length q + 1))) by lia.
          reflexivity.
        * replace (atlas_max_new_peers max_neighbors - length q) with 0 by lia.
          reflexivity. }
  split; [exact Hcap|]. split; [apply Hall|]. split.
  - rewrite Hall, length_app, length_take. lia.
  - unfold atlas_peer_dequeue_all.
    assert (Hloop : forall q acc, dequeue_loop q acc = (acc ++ q, [])).
    { induction q as [|p q IH]; intros acc; cbn [dequeue_loop].
      - by rewrite app_nil_r.
      - rewrite IH, <- app_assoc. reflexivity. }
    apply Hloop.
Qed.

End RemoveUnhealthy.

Example remove_unhealthy_scenario :
  (PeerRanking.remove_unhealthy_peers 0 [] mixed_peers 2 MIN_PEER_HEALTH).1.1
  = ["weak:6264"].
Proof. vm_compute. reflexivity. Qed.
